(** * The isolated browser bridge of gemini-cli: BrowserManager, the MCP tool
      wrapper and the browser agent factory.

    Sources embedded here:
    - packages/core/src/agents/browser/browserManager.ts  (class BrowserManager)
    - packages/core/src/agents/browser/mcpToolWrapper.ts  (McpToolInvocation,
      McpDeclarativeTool, createMcpDeclarativeTools)
    - packages/core/src/agents/browser/browserAgentFactory.ts
      (createBrowserAgentDefinition, cleanupBrowserAgent)

    The TypeScript code is asynchronous and effectful.  It is embedded as
    programs of a small free monad [Prog]: synchronous commands ([Do]) act on
    an explicit world (the heap of BrowserManager objects, the abort signals,
    the main tool registry and the trace of calls made to the MCP SDK), and
    every [await] is a suspension ([Await]) that is resumed with the settled
    value of the awaited promise.  Two semantics interpret the same programs:
    [run], one task against an environment, and [sched], several interleaved
    tasks on one world. *)

From Stdlib Require Import ZArith.
From stdpp Require Import base option list strings gmap pretty relations.

Open Scope string_scope.
Open Scope list_scope.

(** ** Values of the JavaScript side *)

(** A thrown value.  The code only ever asks a caught value
    [error instanceof Error ? error.message : String(error)]. *)
Inductive JsThrown : Type :=
| JsError (message : string)      (* an instance of Error, with its message *)
| JsOther (rendered : string).    (* any other value; [rendered] is String(value) *)

(** JSON documents: tool arguments and input schemas are opaque to the bridge. *)
#[local] Unset Elimination Schemes.
Inductive Json : Type :=
| JNull
| JBool (b : bool)
| JNum (z : Z)
| JStr (s : string)
| JArr (items : list Json)
| JObj (fields : list (string * Json)).
#[local] Set Elimination Schemes.

(** JavaScript truthiness of the optional values the code tests. *)
Definition truthy_string (s : option string) : bool :=
  match s with
  | Some s => negb (String.eqb s EmptyString)
  | None => false
  end.

Definition truthy_bool (b : option bool) : bool :=
  match b with
  | Some b => b
  | None => false
  end.

(** [Tool] of the MCP SDK, as far as the code reads it. *)
Record McpTool : Type := {
  mcp_name : string;
  mcp_description : option string;
  mcp_inputSchema : option Json;
}.

(** [McpContentItem] and [McpToolCallResult] of browserManager.ts. *)
Inductive ContentType : Type := text | image.

Record McpContentItem : Type := {
  type : ContentType;
  item_text : option string;
  data : option string;
  mimeType : option string;
}.

Record McpToolCallResult : Type := {
  content : option (list McpContentItem);
  isError : option bool;
}.

(** The raw response of [Client.callTool], before [toResult]: [content] is
    present only when it is an array, every field of an item is optional. *)
Record RawItem : Type := {
  raw_type : option string;
  raw_text : option string;
  raw_data : option string;
  raw_mimeType : option string;
}.

Record RawResult : Type := {
  raw_content : option (list RawItem);
  raw_isError : option bool;
}.

(** [ToolResult] of tools.ts, as far as the wrapper fills it. *)
Record ToolError : Type := { message : string }.

Record ToolResult : Type := {
  llmContent : string;
  returnDisplay : string;
  error : option ToolError;
}.

(** The part of [config.getBrowserAgentConfig().customConfig] that is read. *)
Record Config : Type := {
  headless : option bool;
  chromeProfilePath : option string;
}.

(** The fields of a [BrowserManager] object.  Clients and transports are
    objects of the SDK, known by their identity. *)
Record BrowserManager : Type := {
  config : Config;
  rawMcpClient : option nat;
  mcpTransport : option nat;
  discoveredTools : list McpTool;
}.

(** The state of an [AbortSignal]. *)
Record AbortSignal : Type := {
  aborted : bool;
  reason : option JsThrown;
}.

(** [Kind] of tools.ts; the wrapper only uses [Kind.Other]. *)
Inductive Kind : Type := KindOther.

(** An [McpDeclarativeTool] object: its identity, the fields set by its
    constructor and by the [DeclarativeTool] constructor it calls. *)
Record McpDeclarativeTool : Type := {
  tool_ref : nat;
  browserManager : nat;
  name : string;
  displayName : string;
  description : string;
  kind : Kind;
  parameterSchema : Json;
  messageBus : nat;
  isOutputMarkdown : bool;
  canUpdateOutput : bool;
}.

(** ** Promises and what they settle to *)

Inductive RTy : Type := TUnit | TTools | TRaw.

Definition denote (t : RTy) : Type :=
  match t with
  | TUnit => unit
  | TTools => list McpTool
  | TRaw => RawResult
  end.

Record Promise (t : RTy) : Type := { pid : nat }.
Arguments pid {t} _.

Inductive Settled (t : RTy) : Type :=
| Fulfilled (v : denote t)
| Rejected (e : JsThrown).
Arguments Fulfilled {t} v.
Arguments Rejected {t} e.

(** ** The world *)

(** Calls that leave the bridge: to the MCP SDK, to the logger, to the abort
    signal.  The trace lists them oldest first. *)
Inductive Event : Type :=
| EvNewClient (c : nat) (client_name version : string)
| EvNewTransport (t : nat) (command : string) (args : list string)
| EvConnect (p c t : nat)
| EvListTools (p c : nat)
| EvCallTool (p c : nat) (tool : string) (args : Json) (timeout : Z)
| EvClientClose (p c : nat)
| EvTransportClose (p t : nat)
| EvAddAbortListener (sig : nat)
| EvRemoveAbortListener (sig : nat)
| EvLog (msg : string)
| EvLogError (msg : string)
| EvPrintOutput (msg : string).

Record World : Type := {
  heap : gmap nat BrowserManager;   (* the BrowserManager objects *)
  signals : gmap nat AbortSignal;   (* the AbortSignal objects *)
  registry : list nat;              (* tools of the main ToolRegistry *)
  next_ref : nat;                   (* next fresh object identity *)
  trace : list Event;
}.

Definition new_manager (cfg : Config) : BrowserManager :=
  {| config := cfg; rawMcpClient := None; mcpTransport := None;
     discoveredTools := [] |}.

Definition no_config : Config := {| headless := None; chromeProfilePath := None |}.

Definition idle_signal : AbortSignal := {| aborted := false; reason := None |}.

Definition manager_of (w : World) (this : nat) : BrowserManager :=
  default (new_manager no_config) (heap w !! this).

Definition signal_of (w : World) (sig : nat) : AbortSignal :=
  default idle_signal (signals w !! sig).

Definition set_heap (h : gmap nat BrowserManager) (w : World) : World :=
  {| heap := h; signals := signals w; registry := registry w;
     next_ref := next_ref w; trace := trace w |}.

Definition set_signals (s : gmap nat AbortSignal) (w : World) : World :=
  {| heap := heap w; signals := s; registry := registry w;
     next_ref := next_ref w; trace := trace w |}.

Definition set_registry (r : list nat) (w : World) : World :=
  {| heap := heap w; signals := signals w; registry := r;
     next_ref := next_ref w; trace := trace w |}.

Definition emit (e : Event) (w : World) : World :=
  {| heap := heap w; signals := signals w; registry := registry w;
     next_ref := next_ref w; trace := trace w ++ [e] |}.

Definition bump (w : World) : World :=
  {| heap := heap w; signals := signals w; registry := registry w;
     next_ref := S (next_ref w); trace := trace w |}.

(** Modelled from the spec: the shared tool registry of the hosting session
    ("any shared/global catalog", the main ToolRegistry of the comments in
    the sources), whose class is not among the sources.  It holds the
    identities of the tool objects registered in it, and registering is the
    only way in. *)
Definition register_tool (tool : nat) (w : World) : World :=
  set_registry (registry w ++ [tool]) w.

Definition empty_world : World :=
  {| heap := ∅; signals := ∅; registry := []; next_ref := 0; trace := [] |}.

(** ** Programs *)

(** Synchronous commands, indexed by the type of their reply: reads and
    writes of the fields of a BrowserManager, constructors ([new]), calls of
    the SDK that return a promise at once, reads of an abort signal and
    (de)registration of its listener, the logger, the progress callback.
    [NewObject] is the identity taken by a new [McpDeclarativeTool];
    [RegisterTool] is the insertion into the main tool registry (see
    [register_tool]), which no function of the bridge issues. *)
Inductive Cmd : Type -> Type :=
| ReadThis (this : nat) : Cmd BrowserManager
| SetRawMcpClient (this : nat) (c : option nat) : Cmd unit
| SetMcpTransport (this : nat) (t : option nat) : Cmd unit
| SetDiscoveredTools (this : nat) (tools : list McpTool) : Cmd unit
| NewBrowserManager (cfg : Config) : Cmd nat
| NewClient (client_name version : string) : Cmd nat
| NewStdioClientTransport (command : string) (args : list string) : Cmd nat
| ClientConnect (c t : nat) : Cmd (Promise TUnit)
| ClientListTools (c : nat) : Cmd (Promise TTools)
| ClientCallTool (c : nat) (tool : string) (args : Json) (timeout : Z)
    : Cmd (Promise TRaw)
| ClientClose (c : nat) : Cmd (Promise TUnit)
| TransportClose (t : nat) : Cmd (Promise TUnit)
| ReadSignal (sig : nat) : Cmd AbortSignal
| AddAbortListener (sig : nat) : Cmd unit
| RemoveAbortListener (sig : nat) : Cmd unit
| NewObject : Cmd nat
| RegisterTool (tool : nat) : Cmd unit
| DebugLog (msg : string) : Cmd unit
| DebugError (msg : string) : Cmd unit
| PrintOutput (msg : string) : Cmd unit.

(** What a task waits for: a promise of the SDK, the race of such a promise
    against the abort listener [onAbort] registered on a signal, the next
    turn of the job queue (the resumption after awaiting an async function of
    the bridge itself), or the return of a callback of the caller, which the
    task has called and which returns or throws. *)
Inductive Wait : RTy -> Type :=
| WPromise {t : RTy} (p : Promise t) : Wait t
| WRace (p : Promise TRaw) (sig : nat) (onAbort : option JsThrown -> JsThrown)
    : Wait TRaw
| WTick : Wait TUnit
| WCallback : Wait TUnit.

Inductive Prog (A : Type) : Type :=
| Ret (a : A)
| Throw (e : JsThrown)
| Do {R : Type} (c : Cmd R) (k : R -> Prog A)
| Await {t : RTy} (wt : Wait t) (k : Settled t -> Prog A).
Arguments Ret {A} a.
Arguments Throw {A} e.
Arguments Do {A R} c k.
Arguments Await {A t} wt k.

Fixpoint bind {A B : Type} (p : Prog A) (f : A -> Prog B) : Prog B :=
  match p with
  | Ret a => f a
  | Throw e => Throw e
  | Do c k => Do c (fun r => bind (k r) f)
  | Await wt k => Await wt (fun s => bind (k s) f)
  end.

(** try { p } catch (e) { h e } *)
Fixpoint try_catch {A : Type} (p : Prog A) (h : JsThrown -> Prog A) : Prog A :=
  match p with
  | Ret a => Ret a
  | Throw e => h e
  | Do c k => Do c (fun r => try_catch (k r) h)
  | Await wt k => Await wt (fun s => try_catch (k s) h)
  end.

(** try { p } finally { f } *)
Definition try_finally {A : Type} (p : Prog A) (f : Prog unit) : Prog A :=
  bind (try_catch (bind p (fun a => Ret (inl a))) (fun e => Ret (inr e)))
       (fun r => bind f (fun _ =>
          match r with
          | inl a => Ret a
          | inr e => Throw e
          end)).

Declare Scope prog_scope.
Delimit Scope prog_scope with prog.
Bind Scope prog_scope with Prog.
Notation "x <- p ;; q" := (bind p (fun x => q))
  (at level 100, p at next level, right associativity) : prog_scope.
Notation "p ;; q" := (bind p (fun _ => q))
  (at level 100, right associativity) : prog_scope.

Definition do {R : Type} (c : Cmd R) : Prog R := Do c Ret.

(** [await p] for a promise of the SDK. *)
Definition await {t : RTy} (p : Promise t) : Prog (denote t) :=
  Await (WPromise p) (fun s =>
    match s with
    | Fulfilled v => Ret v
    | Rejected e => Throw e
    end).

(** One turn of the job queue. *)
Definition tick : Prog unit := Await WTick (fun _ => Ret tt).

(** [await f(...)] for an async function [f] of the bridge: the body of [f]
    runs at once up to its own first suspension, and the caller is resumed,
    with the result or the exception, in a later turn of the job queue. *)
Definition await_call {A : Type} (p : Prog A) : Prog A :=
  try_catch (bind p (fun a => bind tick (fun _ => Ret a)))
            (fun e => bind tick (fun _ => Throw e)).

(** ** Semantics of the commands *)

Definition update_manager (f : BrowserManager -> BrowserManager) (this : nat)
    (w : World) : World :=
  set_heap (<[this := f (manager_of w this)]> (heap w)) w.

Definition with_client (c : option nat) (bm : BrowserManager) : BrowserManager :=
  {| config := config bm; rawMcpClient := c; mcpTransport := mcpTransport bm;
     discoveredTools := discoveredTools bm |}.

Definition with_transport (t : option nat) (bm : BrowserManager) : BrowserManager :=
  {| config := config bm; rawMcpClient := rawMcpClient bm; mcpTransport := t;
     discoveredTools := discoveredTools bm |}.

Definition with_tools (l : list McpTool) (bm : BrowserManager) : BrowserManager :=
  {| config := config bm; rawMcpClient := rawMcpClient bm;
     mcpTransport := mcpTransport bm; discoveredTools := l |}.

Arguments manager_of : simpl never.
Arguments signal_of : simpl never.
Arguments set_heap : simpl never.
Arguments set_signals : simpl never.
Arguments set_registry : simpl never.
Arguments emit : simpl never.
Arguments bump : simpl never.
Arguments update_manager : simpl never.

(** Every [new] and every call that returns a promise takes the next fresh
    identity. *)
Definition exec {R : Type} (c : Cmd R) (w : World) : R * World :=
  match c in Cmd R return R * World with
  | ReadThis this => (manager_of w this, w)
  | SetRawMcpClient this c => (tt, update_manager (with_client c) this w)
  | SetMcpTransport this t => (tt, update_manager (with_transport t) this w)
  | SetDiscoveredTools this l => (tt, update_manager (with_tools l) this w)
  | NewBrowserManager cfg =>
      (next_ref w, bump (set_heap (<[next_ref w := new_manager cfg]> (heap w)) w))
  | NewClient n v => (next_ref w, emit (EvNewClient (next_ref w) n v) (bump w))
  | NewStdioClientTransport cmd args =>
      (next_ref w, emit (EvNewTransport (next_ref w) cmd args) (bump w))
  | ClientConnect c t =>
      ({| pid := next_ref w |}, emit (EvConnect (next_ref w) c t) (bump w))
  | ClientListTools c =>
      ({| pid := next_ref w |}, emit (EvListTools (next_ref w) c) (bump w))
  | ClientCallTool c tool args timeout =>
      ({| pid := next_ref w |},
       emit (EvCallTool (next_ref w) c tool args timeout) (bump w))
  | ClientClose c =>
      ({| pid := next_ref w |}, emit (EvClientClose (next_ref w) c) (bump w))
  | TransportClose t =>
      ({| pid := next_ref w |}, emit (EvTransportClose (next_ref w) t) (bump w))
  | ReadSignal sig => (signal_of w sig, w)
  | AddAbortListener sig => (tt, emit (EvAddAbortListener sig) w)
  | RemoveAbortListener sig => (tt, emit (EvRemoveAbortListener sig) w)
  | NewObject => (next_ref w, bump w)
  | RegisterTool tool => (tt, register_tool tool w)
  | DebugLog msg => (tt, emit (EvLog msg) w)
  | DebugError msg => (tt, emit (EvLogError msg) w)
  | PrintOutput msg => (tt, emit (EvPrintOutput msg) w)
  end.

(** ** One task against an environment *)

(** What happens while a task is suspended: the awaited promise settles, or
    some [AbortController.abort(reason)] comes first. *)
Inductive Arrival (t : RTy) : Type :=
| Settles (s : Settled t)
| AbortFirst (sig : nat) (why : option JsThrown) (rest : Arrival t).
Arguments Settles {t} s.
Arguments AbortFirst {t} sig why rest.

(** The environment answers each suspension, knowing the calls made so far. *)
Definition Env : Type := list Event -> forall t : RTy, Wait t -> Arrival t.

(** [abort(reason)] on a signal that is not aborted yet. *)
Definition abort_signal (sig : nat) (why : option JsThrown) (w : World) : World :=
  set_signals (<[sig := {| aborted := true; reason := why |}]> (signals w)) w.

Arguments abort_signal : simpl never.

Definition listener {t : RTy} (wt : Wait t)
    : option (nat * (option JsThrown -> JsThrown)) :=
  match wt with
  | WRace _ sig onAbort => Some (sig, onAbort)
  | _ => None
  end.

(** Aborting an aborted signal does nothing.  Otherwise the signal becomes
    aborted and its abort event is dispatched once: a task suspended on a race
    with a listener on that signal is resumed by the listener's rejection;
    any other task stays suspended. *)
Fixpoint deliver {t : RTy} (wt : Wait t) (a : Arrival t) (w : World)
    : Settled t * World :=
  match a with
  | Settles s => (s, w)
  | AbortFirst sig why rest =>
      if aborted (signal_of w sig) then deliver wt rest w
      else
        match listener wt with
        | Some (sig', onAbort) =>
            if Nat.eqb sig' sig
            then (Rejected (onAbort why), abort_signal sig why w)
            else deliver wt rest (abort_signal sig why w)
        | None => deliver wt rest (abort_signal sig why w)
        end
  end.

Inductive Result (A : Type) : Type :=
| Returned (a : A)
| Raised (e : JsThrown).
Arguments Returned {A} a.
Arguments Raised {A} e.

Fixpoint run {A : Type} (env : Env) (p : Prog A) (w : World) : Result A * World :=
  match p with
  | Ret a => (Returned a, w)
  | Throw e => (Raised e, w)
  | Do c k => run env (k (exec c w).1) (exec c w).2
  | Await wt k =>
      run env (k (deliver wt (env (trace w) _ wt) w).1)
              (deliver wt (env (trace w) _ wt) w).2
  end.

(** ** Several tasks on one world *)

(** A task runs without interruption up to its next suspension. *)
Fixpoint advance {A : Type} (p : Prog A) (w : World) : Prog A * World :=
  match p with
  | Do c k => advance (k (exec c w).1) (exec c w).2
  | _ => (p, w)
  end.

(** ** browserManager.ts *)

Local Open Scope prog_scope.

Definition CHROME_DEVTOOLS_MCP_VERSION : string := "0.13.0".

Definition MCP_TIMEOUT_MS : Z := 60000.

(** error instanceof Error ? error.message : String(error) *)
Definition error_message (e : JsThrown) : string :=
  match e with
  | JsError m => m
  | JsOther s => s
  end.

(** signal.reason ?? new Error('Operation cancelled') *)
Definition operation_cancelled (why : option JsThrown) : JsThrown :=
  default (JsError "Operation cancelled") why.

(** Reading a property of [undefined]. *)
Definition type_error : JsThrown :=
  JsError "Cannot read properties of undefined".

Definition toResult_item (item : RawItem) : McpContentItem :=
  {| type := if bool_decide (raw_type item = Some "image") then image else text;
     item_text := raw_text item;
     data := raw_data item;
     mimeType := raw_mimeType item |}.

Definition toResult (raw : RawResult) : McpToolCallResult :=
  {| content := map toResult_item <$> raw_content raw;
     isError := Some (bool_decide (raw_isError raw = Some true)) |}.

Definition discoverTools (this : nat) : Prog unit :=
  bm <- do (ReadThis this) ;;
  match rawMcpClient bm with
  | None => Throw (JsError "MCP client not connected")
  | Some c =>
      p <- do (ClientListTools c) ;;
      tools <- await p ;;
      do (SetDiscoveredTools this tools) ;;
      bm <- do (ReadThis this) ;;
      do (DebugLog ("Discovered " +:+ pretty (length (discoveredTools bm))
                    +:+ " tools from chrome-devtools-mcp: "
                    +:+ String.concat ", " (map mcp_name (discoveredTools bm))))
  end.

Definition mcpArgs (cfg : Config) : list string :=
  ["-y"; "chrome-devtools-mcp@" +:+ CHROME_DEVTOOLS_MCP_VERSION;
   "--isolated"; "--experimental-vision"]
  ++ (if truthy_bool (headless cfg) then ["--headless"] else [])
  ++ (if truthy_string (chromeProfilePath cfg)
      then ["--profile-path"; default EmptyString (chromeProfilePath cfg)] else []).

Definition connectMcp (this : nat) : Prog unit :=
  do (DebugLog "Connecting isolated MCP client to chrome-devtools-mcp...") ;;
  c <- do (NewClient "gemini-cli-browser-agent" "1.0.0") ;;
  do (SetRawMcpClient this (Some c)) ;;
  bm <- do (ReadThis this) ;;
  do (DebugLog ("Launching chrome-devtools-mcp with args: "
                +:+ String.concat " " (mcpArgs (config bm)))) ;;
  t <- do (NewStdioClientTransport "npx" (mcpArgs (config bm))) ;;
  do (SetMcpTransport this (Some t)) ;;
  bm <- do (ReadThis this) ;;
  match rawMcpClient bm, mcpTransport bm with
  | Some c, Some t =>
      p <- do (ClientConnect c t) ;;
      await p ;;
      do (DebugLog "MCP client connected to chrome-devtools-mcp") ;;
      await_call (discoverTools this)
  | _, _ => Throw type_error
  end.

Definition ensureConnection (this : nat) : Prog unit :=
  bm <- do (ReadThis this) ;;
  match rawMcpClient bm with
  | Some _ => Ret tt
  | None => await_call (connectMcp this)
  end.

Definition getRawMcpClient (this : nat) : Prog nat :=
  bm <- do (ReadThis this) ;;
  match rawMcpClient bm with
  | Some c => Ret c
  | None =>
      await_call (ensureConnection this) ;;
      bm <- do (ReadThis this) ;;
      match rawMcpClient bm with
      | None => Throw (JsError "Failed to initialize chrome-devtools MCP client")
      | Some c => Ret c
      end
  end.

Definition getDiscoveredTools (this : nat) : Prog (list McpTool) :=
  await_call (ensureConnection this) ;;
  bm <- do (ReadThis this) ;;
  Ret (discoveredTools bm).

(** The continuation of an awaited promise of the SDK. *)
Definition settle {t : RTy} (s : Settled t) : Prog (denote t) :=
  match s with
  | Fulfilled v => Ret v
  | Rejected e => Throw e
  end.

Definition callTool (this : nat) (toolName : string) (args : Json)
    (signal : option nat) : Prog McpToolCallResult :=
  match signal with
  | Some sig =>
      s <- do (ReadSignal sig) ;;
      if aborted s then Throw (operation_cancelled (reason s)) else Ret tt
  | None => Ret tt
  end ;;
  client <- await_call (getRawMcpClient this) ;;
  callPromise <- do (ClientCallTool client toolName args MCP_TIMEOUT_MS) ;;
  match signal with
  | None =>
      raw <- await callPromise ;;
      Ret (toResult raw)
  | Some sig =>
      try_finally
        (do (AddAbortListener sig) ;;
         result <- Await (WRace callPromise sig operation_cancelled) settle ;;
         Ret (toResult result))
        (do (RemoveAbortListener sig))
  end.

Definition close (this : nat) : Prog unit :=
  bm <- do (ReadThis this) ;;
  match rawMcpClient bm with
  | Some c =>
      try_catch (p <- do (ClientClose c) ;; await p)
                (fun e => do (DebugError ("Error closing MCP client: "
                                          +:+ error_message e))) ;;
      do (SetRawMcpClient this None)
  | None => Ret tt
  end ;;
  bm <- do (ReadThis this) ;;
  match mcpTransport bm with
  | Some t =>
      try_catch (p <- do (TransportClose t) ;; await p)
                (fun e => do (DebugError ("Error closing MCP transport: "
                                          +:+ error_message e))) ;;
      do (SetMcpTransport this None)
  | None => Ret tt
  end ;;
  do (SetDiscoveredTools this []).

(** ** mcpToolWrapper.ts *)

Record McpToolInvocation : Type := {
  inv_browserManager : nat;
  inv_toolName : string;
  inv_params : Json;
  inv_messageBus : nat;
}.

Definition getDescription (inv : McpToolInvocation) : string :=
  "Calling MCP tool: " +:+ inv_toolName inv.

(** Always [false]: the wrapped tools are not confirmed. *)
Definition shouldConfirmExecute (inv : McpToolInvocation) (abortSignal : nat)
    : Prog bool :=
  Ret false.

(** The one-character string of a line feed. *)
Definition newline : string :=
  String (Ascii.Ascii false true false true false false false false) EmptyString.

(** c.type === 'text' && c.text *)
Definition is_text_content (c : McpContentItem) : bool :=
  match type c with
  | text => truthy_string (item_text c)
  | image => false
  end.

(** .filter(...).map((c) => c.text).join('\n'); [join] renders a missing
    element as the empty string. *)
Definition textContent (result : McpToolCallResult) : string :=
  match content result with
  | Some items =>
      String.concat newline (map (fun c => default EmptyString (item_text c)) (List.filter is_text_content items))
  | None => EmptyString
  end.

(** a || b on strings *)
Definition or_else (a b : string) : string :=
  if String.eqb a EmptyString then b else a.

Definition failure (msg : string) : ToolResult :=
  {| llmContent := "Error: " +:+ msg;
     returnDisplay := "Error: " +:+ msg;
     error := Some {| message := msg |} |}.

Definition normalize (result : McpToolCallResult) : ToolResult :=
  if truthy_bool (isError result)
  then failure (textContent result)
  else {| llmContent := or_else (textContent result) "Tool executed successfully.";
          returnDisplay := or_else (textContent result) "Tool executed successfully.";
          error := None |}.

Definition execute (inv : McpToolInvocation) (signal : nat) : Prog ToolResult :=
  try_catch
    (result <- await_call (callTool (inv_browserManager inv) (inv_toolName inv)
                                    (inv_params inv) (Some signal)) ;;
     Ret (normalize result))
    (fun error =>
       do (DebugError ("MCP tool " +:+ inv_toolName inv +:+ " failed: "
                       +:+ error_message error)) ;;
       Ret (failure (error_message error))).

(** new McpDeclarativeTool(browserManager, name, description, schema, bus) *)
Definition newMcpDeclarativeTool (bm : nat) (n d : string) (schema : Json)
    (bus : nat) : Prog McpDeclarativeTool :=
  r <- do NewObject ;;
  Ret {| tool_ref := r; browserManager := bm; name := n; displayName := n;
         description := d; kind := KindOther; parameterSchema := schema;
         messageBus := bus; isOutputMarkdown := true; canUpdateOutput := false |}.

Definition build (tool : McpDeclarativeTool) (params : Json) : McpToolInvocation :=
  {| inv_browserManager := browserManager tool; inv_toolName := name tool;
     inv_params := params; inv_messageBus := messageBus tool |}.

(** [FunctionDeclaration] of @google/genai, as far as it is filled. *)
Record FunctionDeclaration : Type := {
  fd_name : string;
  fd_description : string;
  parametersJsonSchema : Json;
}.

Definition empty_object_schema : Json :=
  JObj [("type", JStr "object"); ("properties", JObj [])].

Definition convertMcpToolToFunctionDeclaration (mcpTool : McpTool)
    : FunctionDeclaration :=
  {| fd_name := mcp_name mcpTool;
     fd_description := default EmptyString (mcp_description mcpTool);
     parametersJsonSchema := default empty_object_schema (mcp_inputSchema mcpTool) |}.

(** Array.prototype.map with an allocating callback. *)
Fixpoint map_each {A B : Type} (f : A -> Prog B) (l : list A) : Prog (list B) :=
  match l with
  | [] => Ret []
  | x :: l' => y <- f x ;; ys <- map_each f l' ;; Ret (y :: ys)
  end.

Definition wrap (bm bus : nat) (mcpTool : McpTool) : Prog McpDeclarativeTool :=
  newMcpDeclarativeTool bm (mcp_name mcpTool)
    (default EmptyString (mcp_description mcpTool))
    (parametersJsonSchema (convertMcpToolToFunctionDeclaration mcpTool)) bus.

Definition createMcpDeclarativeTools (bm bus : nat)
    : Prog (list McpDeclarativeTool) :=
  mcpTools <- await_call (getDiscoveredTools bm) ;;
  do (DebugLog ("Creating " +:+ pretty (length mcpTools)
                +:+ " declarative tools for browser agent")) ;;
  map_each (wrap bm bus) mcpTools.

(** ** browserAgentFactory.ts *)

(** The agent definition handed to the session; of its fields only
    [toolConfig.tools] depends on the bridge. *)
Record LocalAgentDefinition : Type := {
  toolConfig_tools : list McpDeclarativeTool;
}.

(** printOutput(msg): the callback is the caller's own code.  The call is
    recorded; then the callback runs, and it returns or throws (and may have
    aborted signals meanwhile).  The call is not inside any [try], so what
    the callback throws is thrown on. *)
Definition call_printOutput (msg : string) : Prog unit :=
  do (PrintOutput msg) ;;
  Await WCallback settle.

(** [printOutput] tells whether the optional callback was given. *)
Definition createBrowserAgentDefinition (cfg : Config) (bus : nat)
    (printOutput : bool) : Prog (LocalAgentDefinition * nat) :=
  do (DebugLog "Creating browser agent definition with isolated MCP tools...") ;;
  bm <- do (NewBrowserManager cfg) ;;
  await_call (ensureConnection bm) ;;
  (if printOutput
   then call_printOutput "Browser connected with isolated MCP client."
   else Ret tt) ;;
  mcpTools <- await_call (createMcpDeclarativeTools bm bus) ;;
  do (DebugLog ("Created " +:+ pretty (length mcpTools)
                +:+ " isolated MCP tools for browser agent: "
                +:+ String.concat ", " (map name mcpTools))) ;;
  Ret ({| toolConfig_tools := mcpTools |}, bm).

(** [cleanupBrowserAgent] calls the [close] method of the object it is given. *)
Definition cleanupWith (closeMethod : Prog unit) : Prog unit :=
  try_catch
    (await_call closeMethod ;;
     do (DebugLog "Browser agent cleanup complete"))
    (fun e => do (DebugError ("Error during browser cleanup: "
                              +:+ error_message e))).

Definition cleanupBrowserAgent (bm : nat) : Prog unit :=
  cleanupWith (close bm).

(** ** Auxiliary notions for the statements *)

(** The world after one turn of the job queue. *)
Definition after_tick (env : Env) (w : World) : World :=
  (deliver WTick (env (trace w) TUnit WTick) w).2.

(** An environment in which nothing is aborted and every promise is
    fulfilled: listings with [tools], tool calls with [raw]. *)
Definition env_const (tools : list McpTool) (raw : RawResult) : Env :=
  fun _ t _ =>
    match t return Arrival t with
    | TUnit => Settles (Fulfilled (t := TUnit) tt)
    | TTools => Settles (Fulfilled (t := TTools) tools)
    | TRaw => Settles (Fulfilled (t := TRaw) raw)
    end.

(** *** Result normalization, in the words of the specification *)

Definition is_text_typed (c : McpContentItem) : bool :=
  match type c with
  | text => true
  | image => false
  end.

(** "The concatenation of all text-typed content items joined by newline". *)
Definition spec_text_concatenation (items : list McpContentItem) : string :=
  String.concat newline
    (map (fun c => default EmptyString (item_text c))
         (List.filter is_text_typed items)).

(** The texts, in source order, of the text-typed items whose text is present
    and not empty. *)
Fixpoint nonempty_texts (items : list McpContentItem) : list string :=
  match items with
  | [] => []
  | c :: rest =>
      match type c, item_text c with
      | text, Some s =>
          if String.eqb s EmptyString then nonempty_texts rest
          else s :: nonempty_texts rest
      | _, _ => nonempty_texts rest
      end
  end.

Definition items_of (result : McpToolCallResult) : list McpContentItem :=
  default [] (content result).

Definition text_item (s : string) : McpContentItem :=
  {| type := text; item_text := Some s; data := None; mimeType := None |}.

Definition raw_text_item (s : string) : RawItem :=
  {| raw_type := Some "text"; raw_text := Some s; raw_data := None;
     raw_mimeType := None |}.

(** A response whose second text item is empty. *)
Definition raw_a_empty_b (flag : option bool) : RawResult :=
  {| raw_content := Some [raw_text_item "a"; raw_text_item EmptyString;
                          raw_text_item "b"];
     raw_isError := flag |}.

(** A connected manager at identity 0 (client 1, transport 2), one idle
    signal at identity 0. *)
Definition connected_world : World :=
  {| heap := {[ 0 := {| config := no_config; rawMcpClient := Some 1;
                        mcpTransport := Some 2; discoveredTools := [] |} ]};
     signals := {[ 0 := idle_signal ]};
     registry := [];
     next_ref := 3;
     trace := [] |}.

Definition click_invocation : McpToolInvocation :=
  {| inv_browserManager := 0; inv_toolName := "click"; inv_params := JObj [];
     inv_messageBus := 9 |}.


(** An error-flagged response with the single text "boom". *)
Definition raw_boom : RawResult :=
  {| raw_content := Some [raw_text_item "boom"]; raw_isError := Some true |}.

Definition raw_ok : RawResult :=
  {| raw_content := Some [raw_text_item "ok"]; raw_isError := None |}.

(** [connected_world] after [abort(new Error('stop'))] on its signal. *)
Definition aborted_world : World :=
  abort_signal 0 (Some (JsError "stop")) connected_world.

(** What an environment delivers to a suspension begun in world [w]. *)
Definition settled_of (env : Env) {t : RTy} (wt : Wait t) (w : World)
    : Settled t * World :=
  deliver wt (env (trace w) t wt) w.


(** *** Commands a program may issue *)

(** Every command that the program can issue, whatever replies and settled
    values it is resumed with, satisfies [P]. *)
Fixpoint all_cmds (P : forall R : Type, Cmd R -> Prop) {A : Type} (p : Prog A)
    : Prop :=
  match p with
  | Ret _ => True
  | Throw _ => True
  | Do c k => P _ c /\ forall r, all_cmds P (k r)
  | Await _ k => forall s, all_cmds P (k s)
  end.

(** The command inserts into the main tool registry. *)
Definition registers {R : Type} (c : Cmd R) : Prop :=
  match c with
  | RegisterTool _ => True
  | _ => False
  end.

(** The command stays within the bridge of the manager [this]: it writes no
    field of another manager, creates no manager and does not touch the main
    tool registry. *)
Definition owned (this : nat) {R : Type} (c : Cmd R) : Prop :=
  match c with
  | SetRawMcpClient m _ | SetMcpTransport m _ | SetDiscoveredTools m _ => m = this
  | NewBrowserManager _ | RegisterTool _ => False
  | _ => True
  end.

(** The command starts a connection or replaces the client of a manager. *)
Definition connects {R : Type} (c : Cmd R) : Prop :=
  match c with
  | NewClient _ _ | NewStdioClientTransport _ _ | ClientConnect _ _
  | SetRawMcpClient _ _ | NewBrowserManager _ => True
  | _ => False
  end.

(** *** Counting on the trace *)

Definition is_new_transport (e : Event) : bool :=
  match e with
  | EvNewTransport _ _ _ => true
  | _ => false
  end.

Definition is_connect (e : Event) : bool :=
  match e with
  | EvConnect _ _ _ => true
  | _ => false
  end.

Definition is_call_tool (e : Event) : bool :=
  match e with
  | EvCallTool _ _ _ _ _ => true
  | _ => false
  end.

Definition transports_created (tr : list Event) : nat :=
  length (List.filter is_new_transport tr).

Definition connects_issued (tr : list Event) : nat :=
  length (List.filter is_connect tr).

Definition requests_sent (tr : list Event) : nat :=
  length (List.filter is_call_tool tr).

(** *** Interleaved callers of [ensureConnection] *)

(** The tasks of the callers, each suspended or finished, and the world they
    share. *)
Record Pool : Type := {
  tasks : list (Prog unit);
  world : World;
}.

(** One step of the event loop: a new caller invokes [ensureConnection] on
    the manager, whose body runs up to its first suspension; or the
    environment delivers what a suspended task awaits, and the task runs up
    to its next suspension.  Any suspended task may be the next to resume. *)
Inductive sched (env : Env) (this : nat) : Pool -> Pool -> Prop :=
| sched_call (ts : list (Prog unit)) (w : World) :
    sched env this {| tasks := ts; world := w |}
      {| tasks := ts ++ [(advance (ensureConnection this) w).1];
         world := (advance (ensureConnection this) w).2 |}
| sched_settle (ts : list (Prog unit)) (w : World) (i : nat) (t : RTy)
    (wt : Wait t) (k : Settled t -> Prog unit) :
    ts !! i = Some (Await wt k) ->
    sched env this {| tasks := ts; world := w |}
      {| tasks := <[i := (advance (k (deliver wt (env (trace w) t wt) w).1)
                                  (deliver wt (env (trace w) t wt) w).2).1]> ts;
         world := (advance (k (deliver wt (env (trace w) t wt) w).1)
                           (deliver wt (env (trace w) t wt) w).2).2 |}.

(** A manager at identity 0 that was never connected, one idle signal at
    identity 0. *)
Definition fresh_world : World :=
  {| heap := {[ 0 := new_manager no_config ]};
     signals := {[ 0 := idle_signal ]};
     registry := [];
     next_ref := 1;
     trace := [] |}.

(** An environment that aborts signal 0 during the first suspension of a
    task and fulfils every promise. *)
Definition env_abort_early (raw : RawResult) : Env :=
  fun _ t _ =>
    match t return Arrival t with
    | TUnit => AbortFirst 0 (Some (JsError "stop")) (Settles (Fulfilled (t := TUnit) tt))
    | TTools => Settles (Fulfilled (t := TTools) [])
    | TRaw => Settles (Fulfilled (t := TRaw) raw)
    end.

(** What an arrival finally settles to, the aborts before it left aside. *)
Fixpoint outcome {t : RTy} (a : Arrival t) : Settled t :=
  match a with
  | Settles s => s
  | AbortFirst _ _ rest => outcome rest
  end.

(** The error logged by a guarded close step that was rejected. *)
Definition close_log (prefix : string) (s : Settled TUnit) : list Event :=
  match s with
  | Fulfilled _ => []
  | Rejected e => [EvLogError (prefix +:+ error_message e)]
  end.


(** An environment in which every close, connect and listing is rejected. *)
Definition env_reject (e : JsThrown) (raw : RawResult) : Env :=
  fun _ t _ =>
    match t return Arrival t with
    | TUnit => Settles (Rejected e)
    | TTools => Settles (Rejected e)
    | TRaw => Settles (Fulfilled (t := TRaw) raw)
    end.


(** *** A fresh connection attempt *)

(** The calls by which [connectMcp] starts an attempt in world [w] for a
    manager configured with [cfg]: a new client, a new transport for npx,
    and the connect of the one to the other. *)
Definition attempt_events (w : World) (cfg : Config) : list Event :=
  [EvLog "Connecting isolated MCP client to chrome-devtools-mcp...";
   EvNewClient (next_ref w) "gemini-cli-browser-agent" "1.0.0";
   EvLog ("Launching chrome-devtools-mcp with args: "
          +:+ String.concat " " (mcpArgs cfg));
   EvNewTransport (S (next_ref w)) "npx" (mcpArgs cfg);
   EvConnect (S (S (next_ref w))) (next_ref w) (S (next_ref w))].

(** What the connect of that attempt settles to. *)
Definition connect_outcome (env : Env) (w : World) (cfg : Config)
    : Settled TUnit :=
  outcome (env (trace w ++ attempt_events w cfg) TUnit
               (WPromise {| pid := S (S (next_ref w)) |})).

(** The discovery that follows a fulfilled connect. *)
Definition discovery_events (w : World) : list Event :=
  [EvLog "MCP client connected to chrome-devtools-mcp";
   EvListTools (S (S (S (next_ref w)))) (next_ref w)].

(** What the listing of that attempt settles to. *)
Definition discovery_outcome (env : Env) (w : World) (cfg : Config)
    : Settled TTools :=
  outcome (env (trace w ++ attempt_events w cfg ++ discovery_events w) TTools
               (WPromise {| pid := S (S (S (next_ref w))) |})).

(** The result of the attempt. *)
Definition attempt_result (env : Env) (w : World) (cfg : Config) : Result unit :=
  match connect_outcome env w cfg with
  | Rejected e => Raised e
  | Fulfilled _ =>
      match discovery_outcome env w cfg with
      | Rejected e => Raised e
      | Fulfilled _ => Returned tt
      end
  end.

(** A caller that connects, closes and connects again. *)
Definition connect_close_connect (this : nat) : Prog unit :=
  (await_call (ensureConnection this) ;;
   await_call (close this) ;;
   await_call (ensureConnection this))%prog.


(** The world of a manager that was connected and then closed. *)
Definition closed_world : World :=
  (run (env_const [] raw_ok)
       (await_call (ensureConnection 0) ;; await_call (close 0))%prog
       fresh_world).2.


(** *** Wrapping *)

(** The operation mirrors the descriptor: same name, the description or the
    empty string, the input schema or the empty-object schema. *)
Definition mirrors (d : McpTool) (t : McpDeclarativeTool) : Prop :=
  name t = mcp_name d
  /\ description t = default EmptyString (mcp_description d)
  /\ parameterSchema t
     = default (JObj [("type", JStr "object"); ("properties", JObj [])])
               (mcp_inputSchema d).

(** The object built for descriptor [d] under identity [r]. *)
Definition wrapped (bm bus r : nat) (d : McpTool) : McpDeclarativeTool :=
  {| tool_ref := r; browserManager := bm; name := mcp_name d;
     displayName := mcp_name d;
     description := default EmptyString (mcp_description d);
     kind := KindOther;
     parameterSchema := default empty_object_schema (mcp_inputSchema d);
     messageBus := bus; isOutputMarkdown := true; canUpdateOutput := false |}.

(** The objects built for the descriptors [ds], under consecutive identities
    from [r] on. *)
Fixpoint wrapped_from (bm bus r : nat) (ds : list McpTool)
    : list McpDeclarativeTool :=
  match ds with
  | [] => []
  | d :: ds' => wrapped bm bus r d :: wrapped_from bm bus (S r) ds'
  end.

(** The world in which the factory, called in [w], starts to connect its new
    manager. *)
Definition factory_start (cfg : Config) (w : World) : World :=
  (exec (NewBrowserManager cfg)
        (emit (EvLog "Creating browser agent definition with isolated MCP tools...")
              w)).2.

Definition click_tool : McpTool :=
  {| mcp_name := "click"; mcp_description := None; mcp_inputSchema := None |}.

Definition fill_tool : McpTool :=
  {| mcp_name := "fill"; mcp_description := Some "Fill a field";
     mcp_inputSchema := Some (JObj [("type", JStr "object");
                                    ("required", JArr [JStr "uid"])]) |}.


(** Two bridges built one after the other, in an environment that answers
    both tool listings with the same two descriptors. *)
Definition first_bridge : Result (LocalAgentDefinition * nat) * World :=
  run (env_const [click_tool; fill_tool] raw_ok)
      (createBrowserAgentDefinition no_config 7 false) empty_world.

Definition second_bridge : Result (LocalAgentDefinition * nat) * World :=
  run (env_const [click_tool; fill_tool] raw_ok)
      (createBrowserAgentDefinition no_config 7 false) first_bridge.2.

Definition first_tools : list McpDeclarativeTool :=
  wrapped_from 0 7 5 [click_tool; fill_tool].

Definition second_tools : list McpDeclarativeTool :=
  wrapped_from 7 7 12 [click_tool; fill_tool].


(** The task that has finished with the result [r]. *)
Definition finished (r : Result unit) : Prog unit :=
  match r with
  | Returned a => Ret a
  | Raised e => Throw e
  end.

(** The task is still suspended, or it has finished, and then with [r]. *)
Definition observes (r : Result unit) (task : Prog unit) : Prop :=
  match task with
  | Ret a => r = Returned a
  | Throw e => r = Raised e
  | Await _ _ => True
  | Do _ _ => False
  end.

(** What holds of the callers of [ensureConnection] on [this], started in
    the world [w0]: either nobody has called yet; or the first caller has
    started the one attempt, what remains of its task starts no connection
    and ends as the call made alone in [w0] ends, the manager holds a client,
    and every later caller has already returned. *)
Definition one_attempt (env : Env) (this : nat) (w0 : World) (pool : Pool)
    : Prop :=
  (tasks pool = [] /\ world pool = w0)
  \/ (exists (first : Prog unit) (later : nat) (c : nat),
        tasks pool = first :: replicate later (Ret tt)
        /\ all_cmds (fun R c => ~ connects c) first
        /\ rawMcpClient (manager_of (world pool) this) = Some c
        /\ transports_created (trace (world pool))
           = S (transports_created (trace w0))
        /\ connects_issued (trace (world pool)) = S (connects_issued (trace w0))
        /\ advance first (world pool) = (first, world pool)
        /\ (run env first (world pool)).1
           = (run env (ensureConnection this) w0).1).


(** Two callers of [ensureConnection] on the fresh manager, the second
    arriving while the connect of the first is in flight. *)
Definition one_caller : Pool :=
  {| tasks := [] ++ [(advance (ensureConnection 0) fresh_world).1];
     world := (advance (ensureConnection 0) fresh_world).2 |}.

Definition two_callers : Pool :=
  {| tasks := tasks one_caller
              ++ [(advance (ensureConnection 0) (world one_caller)).1];
     world := (advance (ensureConnection 0) (world one_caller)).2 |}.


(** An environment in which every tool call is rejected with [e], for
    instance by the timeout of the SDK. *)
Definition env_call_rejects (e : JsThrown) : Env :=
  fun _ t _ =>
    match t return Arrival t with
    | TUnit => Settles (Fulfilled (t := TUnit) tt)
    | TTools => Settles (Fulfilled (t := TTools) [])
    | TRaw => Settles (Rejected e)
    end.


(** The program ends by returning, whatever replies and settled values it is
    resumed with: no path through it ends in a throw. *)
Fixpoint returns_only {A : Type} (p : Prog A) : Prop :=
  match p with
  | Ret _ => True
  | Throw _ => False
  | Do _ k => forall r, returns_only (k r)
  | Await _ k => forall s, returns_only (k s)
  end.


(** *** Notions for the further properties *)

(** The texts, in order, of the items of a raw response that [toResult] and
    the filter of [execute] together let through: those whose type is not
    'image' and whose text is present and not empty. *)
Fixpoint raw_texts (items : list RawItem) : list string :=
  match items with
  | [] => []
  | item :: rest =>
      if bool_decide (raw_type item = Some "image") then raw_texts rest
      else match raw_text item with
           | Some s =>
               if String.eqb s EmptyString then raw_texts rest
               else s :: raw_texts rest
           | None => raw_texts rest
           end
  end.

(** Classes of events, and how many of a class a trace holds. *)
Definition is_close_call (e : Event) : bool :=
  match e with
  | EvClientClose _ _ | EvTransportClose _ _ => true
  | _ => false
  end.

Definition is_print (e : Event) : bool :=
  match e with
  | EvPrintOutput _ => true
  | _ => false
  end.

Definition is_list_tools (e : Event) : bool :=
  match e with
  | EvListTools _ _ => true
  | _ => false
  end.

Definition count (f : Event -> bool) (tr : list Event) : nat :=
  length (List.filter f tr).

(** The command is one of those by which a manager connects and reads its
    own state: it sends no tool call, touches no abort listener, closes
    nothing, prints nothing and registers nothing. *)
Definition plain {R : Type} (c : Cmd R) : Prop :=
  match c with
  | ClientCallTool _ _ _ _ | AddAbortListener _ | RemoveAbortListener _
  | ClientClose _ | TransportClose _ | PrintOutput _ | RegisterTool _ => False
  | _ => True
  end.

(** The events of a connection attempt: objects created, connect, listing
    and log lines.  No tool call, no abort listener, no close and no output
    is among them. *)
Definition connection_event (e : Event) : bool :=
  match e with
  | EvNewClient _ _ _ | EvNewTransport _ _ _ | EvConnect _ _ _
  | EvListTools _ _ | EvLog _ | EvLogError _ => true
  | _ => false
  end.

(** The abort listener of a call: added before the race and removed in the
    finally block, when the call was given a signal. *)
Definition listener_events (signal : option nat) : list Event :=
  match signal with
  | Some sig => [EvAddAbortListener sig; EvRemoveAbortListener sig]
  | None => []
  end.


(** A wrapped tool of the manager of [connected_world]. *)
Definition click_tool_object : McpDeclarativeTool :=
  {| tool_ref := 7; browserManager := 0; name := "click"; displayName := "click";
     description := "Click an element"; kind := KindOther;
     parameterSchema := empty_object_schema; messageBus := 9;
     isOutputMarkdown := true; canUpdateOutput := false |}.

(** The log line of a fulfilled listing. *)
Definition discovered_log (tools : list McpTool) : Event :=
  EvLog ("Discovered " +:+ pretty (length tools)
         +:+ " tools from chrome-devtools-mcp: "
         +:+ String.concat ", " (map mcp_name tools)).

(** All the events of an attempt begun in world [w], by the outcomes of its
    connect and of its listing. *)
Definition attempt_trace (env : Env) (w : World) (cfg : Config) : list Event :=
  attempt_events w cfg
  ++ match connect_outcome env w cfg with
     | Rejected _ => []
     | Fulfilled _ =>
         discovery_events w
         ++ match discovery_outcome env w cfg with
            | Rejected _ => []
            | Fulfilled tools => [discovered_log tools]
            end
     end.


(** ** packages/cli/src/config/footerItems.ts *)

Record FooterItem : Type := {
  item_id : string;
  item_header : string;
  item_description : string;
}.

Definition ALL_ITEMS : list FooterItem :=
  [ {| item_id := "cwd"; item_header := "Path";
       item_description := "Current directory path" |};
    {| item_id := "git-branch"; item_header := "Branch";
       item_description := "Current git branch name" |};
    {| item_id := "sandbox-status"; item_header := "/docs";
       item_description := "Sandbox type and trust indicator" |};
    {| item_id := "model-name"; item_header := "/model";
       item_description := "Current model identifier" |};
    {| item_id := "context-remaining"; item_header := "Context";
       item_description := "Percentage of context window remaining" |};
    {| item_id := "quota"; item_header := "/stats";
       item_description := "Remaining usage on daily limit" |};
    {| item_id := "memory-usage"; item_header := "Memory";
       item_description := "Node.js heap memory usage" |};
    {| item_id := "session-id"; item_header := "Session";
       item_description := "Unique identifier for the current session" |};
    {| item_id := "code-changes"; item_header := "Diff";
       item_description := "Lines added/removed in the session" |};
    {| item_id := "token-count"; item_header := "Tokens";
       item_description := "Total tokens used in the session" |} ].

Definition DEFAULT_ORDER : list string :=
  ["cwd"; "git-branch"; "sandbox-status"; "model-name"; "context-remaining";
   "quota"; "memory-usage"; "session-id"; "code-changes"; "token-count"].

(** [MergedSettings], as far as the footer reads it. *)
Record FooterSettings : Type := {
  hideCWD : option bool;
  hideSandboxStatus : option bool;
  hideModelInfo : option bool;
  hideContextPercentage : option bool;
  items : option (list string);
}.

Record UiSettings : Type := {
  footer : FooterSettings;
  showMemoryUsage : option bool;
}.

Record MergedSettings : Type := { ui : UiSettings }.

(** Array.prototype.indexOf on strings: the first position, or -1. *)
Fixpoint indexOf (arr : list string) (id : string) : Z :=
  match arr with
  | [] => (-1)%Z
  | x :: rest =>
      if String.eqb x id then 0%Z
      else let i := indexOf rest id in
           if Z.eqb i (-1)%Z then (-1)%Z else (i + 1)%Z
  end.

(** Array.prototype.includes on strings. *)
Definition includes (arr : list string) (id : string) : bool :=
  existsb (String.eqb id) arr.

(** Array.prototype.splice(start, deleteCount, ...inserted): a negative start
    counts from the end, and both arguments are clamped to the array. *)
Definition splice (arr : list string) (start deleteCount : Z)
    (inserted : list string) : list string :=
  let len := Z.of_nat (length arr) in
  let s := (if Z.ltb start 0 then Z.max (len + start) 0 else Z.min start len)%Z in
  let d := Z.min (Z.max deleteCount 0) (len - s)%Z in
  take (Z.to_nat s) arr ++ inserted ++ drop (Z.to_nat (s + d)%Z) arr.

(** const remove = (arr, id) => { ... } *)
Definition remove (arr : list string) (id : string) : list string :=
  let idx := indexOf arr id in
  if negb (Z.eqb idx (-1)%Z) then splice arr idx 1 [] else arr.

Definition deriveItemsFromLegacySettings (settings : MergedSettings)
    : list string :=
  let defaults := ["cwd"; "git-branch"; "sandbox-status"; "model-name"; "quota"] in
  let items0 := defaults in
  let items1 :=
    if truthy_bool (hideCWD (footer (ui settings)))
    then remove items0 "cwd" else items0 in
  let items2 :=
    if truthy_bool (hideSandboxStatus (footer (ui settings)))
    then remove items1 "sandbox-status" else items1 in
  let items3 :=
    if truthy_bool (hideModelInfo (footer (ui settings)))
    then remove (remove (remove items2 "model-name") "context-remaining") "quota"
    else items2 in
  let items4 :=
    if negb (truthy_bool (hideContextPercentage (footer (ui settings))))
       && negb (includes items3 "context-remaining")
    then
      let modelIdx := indexOf items3 "model-name" in
      if negb (Z.eqb modelIdx (-1)%Z)
      then splice items3 (modelIdx + 1)%Z 0 ["context-remaining"]
      else items3 ++ ["context-remaining"]
    else items3 in
  if truthy_bool (showMemoryUsage (ui settings))
  then items4 ++ ["memory-usage"] else items4.

Definition VALID_IDS : gset string := list_to_set (map item_id ALL_ITEMS).

(** What [resolveFooterState] returns. *)
Record FooterState : Type := {
  resolved_orderedIds : list string;
  resolved_selectedIds : gset string;
}.

Definition resolveFooterState (settings : MergedSettings) : FooterState :=
  let source :=
    List.filter (fun id => bool_decide (id ∈ VALID_IDS))
      (default (deriveItemsFromLegacySettings settings)
               (items (footer (ui settings)))) in
  let others := List.filter (fun id => negb (includes source id)) DEFAULT_ORDER in
  {| resolved_orderedIds := source ++ others;
     resolved_selectedIds := list_to_set source |}.

(** ** The reducer of FooterConfigDialog *)

(** Indices are JavaScript numbers; they are integers here, as the dialog
    only ever stores 0 and steps of one. *)
Record FooterConfigState : Type := {
  orderedIds : list string;
  selectedIds : gset string;
  activeIndex : Z;
  scrollOffset : Z;
}.

(** The actions of the reducer that move the cursor, toggle an item or reset
    the cursor; the keys of [filteredItems] stand for the items.  The cases
    MOVE_LEFT and MOVE_RIGHT (a swap inside the array) and SET_STATE are not
    part of this model. *)
Inductive FooterConfigAction : Type :=
| MOVE_UP (filteredCount maxToShow : Z)
| MOVE_DOWN (filteredCount maxToShow : Z)
| TOGGLE_ITEM (filteredItems : list string)
| RESET_INDEX.

(** arr[i] for an integer i: undefined outside the array. *)
Definition at_index (arr : list string) (i : Z) : option string :=
  if Z.ltb i 0 then None else arr !! Z.to_nat i.

Definition footerConfigReducer (state : FooterConfigState)
    (action : FooterConfigAction) : FooterConfigState :=
  match action with
  | MOVE_UP filteredCount maxToShow =>
      let totalSlots := (filteredCount + 2)%Z in
      let newIndex :=
        if Z.ltb 0 (activeIndex state) then (activeIndex state - 1)%Z
        else (totalSlots - 1)%Z in
      let newOffset :=
        if Z.ltb newIndex filteredCount then
          if Z.eqb newIndex (filteredCount - 1)%Z
          then Z.max 0 (filteredCount - maxToShow)%Z
          else if Z.ltb newIndex (scrollOffset state) then newIndex
          else scrollOffset state
        else scrollOffset state in
      {| orderedIds := orderedIds state; selectedIds := selectedIds state;
         activeIndex := newIndex; scrollOffset := newOffset |}
  | MOVE_DOWN filteredCount maxToShow =>
      let totalSlots := (filteredCount + 2)%Z in
      let newIndex :=
        if Z.ltb (activeIndex state) (totalSlots - 1)%Z
        then (activeIndex state + 1)%Z else 0%Z in
      let newOffset :=
        if Z.eqb newIndex 0 then 0%Z
        else if Z.ltb newIndex filteredCount
                && Z.leb (scrollOffset state + maxToShow)%Z newIndex
             then (newIndex - maxToShow + 1)%Z
             else scrollOffset state in
      {| orderedIds := orderedIds state; selectedIds := selectedIds state;
         activeIndex := newIndex; scrollOffset := newOffset |}
  | TOGGLE_ITEM filteredItems =>
      let isSystemFocused :=
        Z.leb (Z.of_nat (length filteredItems)) (activeIndex state) in
      if isSystemFocused then state
      else
        match at_index filteredItems (activeIndex state) with
        | None => state
        | Some key =>
            let nextSelected :=
              if bool_decide (key ∈ selectedIds state)
              then selectedIds state ∖ {[ key ]}
              else selectedIds state ∪ {[ key ]} in
            {| orderedIds := orderedIds state; selectedIds := nextSelected;
               activeIndex := activeIndex state;
               scrollOffset := scrollOffset state |}
        end
  | RESET_INDEX =>
      {| orderedIds := orderedIds state; selectedIds := selectedIds state;
         activeIndex := 0%Z; scrollOffset := 0%Z |}
  end.

(** The state with which the dialog starts. *)
Definition initial_state (settings : MergedSettings) : FooterConfigState :=
  {| orderedIds := resolved_orderedIds (resolveFooterState settings);
     selectedIds := resolved_selectedIds (resolveFooterState settings);
     activeIndex := 0%Z; scrollOffset := 0%Z |}.

(** const finalItems = orderedIds.filter((id) => selectedIds.has(id)),
    the list that the dialog saves. *)
Definition finalItems (state : FooterConfigState) : list string :=
  List.filter (fun id => bool_decide (id ∈ selectedIds state)) (orderedIds state).

(** The cursor is on a slot of the dialog, and when it is on an item of the
    list that item lies in the window of [maxToShow] items that starts at the
    scroll offset. *)
Definition cursor_visible (filteredCount maxToShow : Z)
    (state : FooterConfigState) : Prop :=
  (0 <= activeIndex state < filteredCount + 2)%Z
  /\ (0 <= scrollOffset state)%Z
  /\ ((activeIndex state < filteredCount)%Z ->
      (scrollOffset state <= activeIndex state < scrollOffset state + maxToShow)%Z).


(** What the call of the progress callback by the factory comes to, when the
    attempt of the factory called in [w] has succeeded: the callback is
    called after the events of the attempt, and returns or throws; without a
    callback there is nothing to throw. *)
Definition callback_outcome (env : Env) (cfg : Config) (printOutput : bool)
    (w : World) : Settled TUnit :=
  if printOutput
  then outcome (env (trace (factory_start cfg w)
                     ++ attempt_trace env (factory_start cfg w) cfg
                     ++ [EvPrintOutput
                           "Browser connected with isolated MCP client."])
                    TUnit WCallback)
  else Fulfilled (t := TUnit) tt.

(** An environment in which every promise is fulfilled and the progress
    callback throws [e]. *)
Definition env_callback_throws (e : JsThrown) (tools : list McpTool)
    (raw : RawResult) : Env :=
  fun _ t wt =>
    match wt in Wait t return Arrival t with
    | WCallback => Settles (Rejected e)
    | WTick => Settles (Fulfilled (t := TUnit) tt)
    | WRace _ _ _ => Settles (Fulfilled (t := TRaw) raw)
    | @WPromise t' _ =>
        match t' return Arrival t' with
        | TUnit => Settles (Fulfilled (t := TUnit) tt)
        | TTools => Settles (Fulfilled (t := TTools) tools)
        | TRaw => Settles (Fulfilled (t := TRaw) raw)
        end
    end.

(** * Properties *)

#[local] Arguments String.concat : simpl never.
#[local] Arguments String.append : simpl never.
#[local] Arguments mcpArgs : simpl never.
#[local] Arguments pretty : simpl never.

(** ** The semantics of the combinators *)

Section RunLaws.
Context (env : Env).

Lemma run_bind {A B : Type} (p : Prog A) (f : A -> Prog B) (w : World) :
  run env (bind p f) w =
  match run env p w with
  | (Returned a, w') => run env (f a) w'
  | (Raised e, w') => (Raised e, w')
  end.
Proof.
  revert w. induction p as [a|e|R c k IH|t wt k IH]; intros w; simpl; auto.
Qed.

Lemma run_try_catch {A : Type} (p : Prog A) (h : JsThrown -> Prog A) (w : World) :
  run env (try_catch p h) w =
  match run env p w with
  | (Returned a, w') => (Returned a, w')
  | (Raised e, w') => run env (h e) w'
  end.
Proof.
  revert w. induction p as [a|e|R c k IH|t wt k IH]; intros w; simpl; auto.
Qed.

Lemma run_try_finally {A : Type} (p : Prog A) (f : Prog unit) (w : World) :
  run env (try_finally p f) w =
  match run env p w with
  | (Returned a, w') =>
      match run env f w' with
      | (Returned _, w'') => (Returned a, w'')
      | (Raised e, w'') => (Raised e, w'')
      end
  | (Raised e, w') =>
      match run env f w' with
      | (Returned _, w'') => (Raised e, w'')
      | (Raised e', w'') => (Raised e', w'')
      end
  end.
Proof.
  unfold try_finally. rewrite run_bind, run_try_catch, run_bind.
  destruct (run env p w) as [[a|e] w']; simpl;
    rewrite run_bind; destruct (run env f w') as [[[]|e'] w'']; reflexivity.
Qed.

Lemma run_tick (w : World) : run env tick w = (Returned tt, after_tick env w).
Proof. reflexivity. Qed.

Lemma run_await_call {A : Type} (p : Prog A) (w : World) :
  run env (await_call p) w =
  match run env p w with
  | (Returned a, w') => (Returned a, after_tick env w')
  | (Raised e, w') => (Raised e, after_tick env w')
  end.
Proof.
  unfold await_call. rewrite run_try_catch, run_bind.
  destruct (run env p w) as [[a|e] w']; reflexivity.
Qed.

Lemma run_do {R : Type} (c : Cmd R) (w : World) :
  run env (do c) w = (Returned (exec c w).1, (exec c w).2).
Proof. reflexivity. Qed.

(** The two semantics agree on the uninterrupted part of a task. *)
Lemma run_advance {A : Type} (p : Prog A) (w : World) :
  run env p w = run env (advance p w).1 (advance p w).2.
Proof.
  revert w. induction p as [a|e|R c k IH|t wt k IH]; intros w; simpl; auto.
Qed.
End RunLaws.

(** ** Result normalization (mcpToolWrapper.ts, [execute]) *)

Lemma append_nonempty (s s' : string) :
  s <> EmptyString -> (s +:+ s') <> EmptyString.
Proof. destruct s; [congruence | discriminate]. Qed.

Lemma concat_cons_nonempty (sep s : string) (l : list string) :
  s <> EmptyString -> String.concat sep (s :: l) <> EmptyString.
Proof.
  intros Hs. destruct l as [|s' l]; simpl; [exact Hs | by apply append_nonempty].
Qed.

Lemma filter_text_content (items : list McpContentItem) :
  map (fun c => default EmptyString (item_text c))
      (List.filter is_text_content items)
  = nonempty_texts items.
Proof.
  induction items as [|c rest IH]; simpl; [reflexivity|].
  unfold is_text_content.
  destruct (type c); [|exact IH].
  destruct (item_text c) as [s|] eqn:Hs; simpl; [|exact IH].
  destruct (String.eqb s EmptyString); simpl; [exact IH|].
  rewrite Hs. simpl. f_equal. exact IH.
Qed.

Lemma textContent_nonempty_texts (result : McpToolCallResult) :
  textContent result = String.concat newline (nonempty_texts (items_of result)).
Proof.
  unfold textContent, items_of.
  destruct (content result) as [items|]; simpl; [|reflexivity].
  by rewrite filter_text_content.
Qed.

Lemma nonempty_texts_head (items : list McpContentItem) (s : string)
    (l : list string) :
  nonempty_texts items = s :: l -> s <> EmptyString.
Proof.
  induction items as [|c rest IH]; simpl; [discriminate|].
  destruct (type c); [|exact IH].
  destruct (item_text c) as [s'|]; [|exact IH].
  destruct (String.eqb s' EmptyString) eqn:E; [exact IH|].
  intros [= <- _]. intros ->. discriminate.
Qed.

Lemma or_else_placeholder (items : list McpContentItem) (fallback : string) :
  or_else (String.concat newline (nonempty_texts items)) fallback
  = match nonempty_texts items with
    | [] => fallback
    | ts => String.concat newline ts
    end.
Proof.
  destruct (nonempty_texts items) as [|s l] eqn:E; [reflexivity|].
  unfold or_else.
  destruct (String.eqb_spec (String.concat newline (s :: l)) EmptyString)
    as [H|H]; [|reflexivity].
  exfalso. revert H. apply concat_cons_nonempty.
  eapply nonempty_texts_head, E.
Qed.

(** Where every text-typed item carries a non-empty text, the text content is
    the newline-joined concatenation of all text-typed items. *)
Lemma textContent_all_text_typed (result : McpToolCallResult) :
  Forall (fun c => is_text_typed c = true -> truthy_string (item_text c) = true)
         (items_of result) ->
  textContent result = spec_text_concatenation (items_of result).
Proof.
  unfold textContent, spec_text_concatenation, items_of.
  destruct (content result) as [items|]; simpl; [|reflexivity].
  intros H. do 2 f_equal.
  induction H as [|c rest Hc _ IH]; simpl; [reflexivity|].
  unfold is_text_content, is_text_typed in *.
  destruct (type c); [|exact IH].
  rewrite (Hc eq_refl). by rewrite IH.
Qed.

(** The examples of the specification: text, image, text; and no content. *)
Lemma normalize_examples :
  normalize {| content := Some [text_item "a";
                                {| type := image; item_text := None;
                                   data := Some "iVBORw0KGgo=";
                                   mimeType := Some "image/png" |};
                                text_item "b"];
               isError := Some false |}
  = {| llmContent := "a" +:+ newline +:+ "b";
       returnDisplay := "a" +:+ newline +:+ "b"; error := None |}
  /\ normalize {| content := Some []; isError := Some false |}
     = {| llmContent := "Tool executed successfully.";
          returnDisplay := "Tool executed successfully."; error := None |}
  /\ normalize {| content := None; isError := None |}
     = {| llmContent := "Tool executed successfully.";
          returnDisplay := "Tool executed successfully."; error := None |}.
Proof. repeat split. Qed.

(** [execute] is [callTool] followed by [normalize], and turns what
    [callTool] throws into a failure result. *)
Lemma run_execute (env : Env) (inv : McpToolInvocation) (sig : nat) (w : World) :
  run env (execute inv sig) w =
  match run env (await_call (callTool (inv_browserManager inv) (inv_toolName inv)
                                      (inv_params inv) (Some sig))) w with
  | (Returned result, w1) => (Returned (normalize result), w1)
  | (Raised e, w1) =>
      (Returned (failure (error_message e)),
       emit (EvLogError ("MCP tool " +:+ inv_toolName inv +:+ " failed: "
                         +:+ error_message e)) w1)
  end.
Proof.
  unfold execute. rewrite run_try_catch, run_bind.
  destruct (run env (await_call _) w) as [[result|e] w1]; reflexivity.
Qed.

(** C6, as stated, fails: a text-typed item whose text is empty is dropped by
    the filter [c.type === 'text' && c.text], so the payload of the response
    [a, (empty), b] is "a\nb", while the newline-joined concatenation of all
    text-typed items is "a\n\nb". *)
Lemma execute_payload_drops_empty_text :
  (run (env_const [] (raw_a_empty_b None)) (execute click_invocation 0)
       connected_world).1
  = Returned {| llmContent := "a" +:+ newline +:+ "b";
                returnDisplay := "a" +:+ newline +:+ "b";
                error := None |}
  /\ spec_text_concatenation (items_of (toResult (raw_a_empty_b None)))
     = "a" +:+ newline +:+ newline +:+ "b"
  /\ "a" +:+ newline +:+ "b"
     <> spec_text_concatenation (items_of (toResult (raw_a_empty_b None))).
Proof. repeat split; vm_compute; congruence. Qed.

(** C6 (amended): for every non-error response returned by [callTool], the
    invocation returns a result without error whose payload is the texts of
    the text-typed items that carry a non-empty text, in source order, joined
    by newline (other items are skipped); when there is no such item the
    payload is the placeholder "Tool executed successfully."; it is never the
    empty string. *)
Theorem execute_success_payload (env : Env) (inv : McpToolInvocation)
    (sig : nat) (w w1 : World) (result : McpToolCallResult) :
  run env (await_call (callTool (inv_browserManager inv) (inv_toolName inv)
                                (inv_params inv) (Some sig))) w
    = (Returned result, w1) ->
  truthy_bool (isError result) = false ->
  exists r : ToolResult,
    run env (execute inv sig) w = (Returned r, w1)
    /\ error r = None
    /\ returnDisplay r = llmContent r
    /\ llmContent r
       = match nonempty_texts (items_of result) with
         | [] => "Tool executed successfully."
         | ts => String.concat newline ts
         end
    /\ llmContent r <> EmptyString.
Proof.
  intros Hcall Hok. rewrite run_execute, Hcall.
  unfold normalize. rewrite Hok. eexists. split; [reflexivity|]. simpl.
  rewrite textContent_nonempty_texts, or_else_placeholder.
  repeat split.
  destruct (nonempty_texts (items_of result)) as [|s l] eqn:E; [discriminate|].
  apply concat_cons_nonempty. eapply nonempty_texts_head, E.
Qed.

Lemma execute_success_payload_witness :
  exists r : ToolResult,
    run (env_const [] (raw_a_empty_b None)) (execute click_invocation 0)
        connected_world
    = (Returned r,
       (run (env_const [] (raw_a_empty_b None))
            (await_call (callTool 0 "click" (JObj []) (Some 0)))
            connected_world).2)
    /\ error r = None
    /\ returnDisplay r = llmContent r
    /\ llmContent r
       = match nonempty_texts (items_of (toResult (raw_a_empty_b None))) with
         | [] => "Tool executed successfully."
         | ts => String.concat newline ts
         end
    /\ llmContent r <> EmptyString.
Proof.
  apply (execute_success_payload (env_const [] (raw_a_empty_b None))
           click_invocation 0 connected_world).
  - vm_compute. reflexivity.
  - reflexivity.
Defined.

(** C7, as stated, fails for the same reason as C6: for the error-flagged
    response [a, (empty), b] the error detail is "a\nb", not the concatenation
    "a\n\nb" of all text-typed items. *)
Lemma execute_error_detail_drops_empty_text :
  (run (env_const [] (raw_a_empty_b (Some true))) (execute click_invocation 0)
       connected_world).1
  = Returned (failure ("a" +:+ newline +:+ "b"))
  /\ spec_text_concatenation (items_of (toResult (raw_a_empty_b (Some true))))
     = "a" +:+ newline +:+ newline +:+ "b"
  /\ "a" +:+ newline +:+ "b"
     <> spec_text_concatenation (items_of (toResult (raw_a_empty_b (Some true)))).
Proof. repeat split; vm_compute; congruence. Qed.

(** C7 (amended): for every response returned by [callTool] with the error
    flag set, the invocation returns (it does not throw) a failure result
    whose error message is the texts of the text-typed items that carry a
    non-empty text, in source order, joined by newline, and whose display
    text is that message after "Error: ". *)
Theorem execute_remote_error (env : Env) (inv : McpToolInvocation)
    (sig : nat) (w w1 : World) (result : McpToolCallResult) :
  run env (await_call (callTool (inv_browserManager inv) (inv_toolName inv)
                                (inv_params inv) (Some sig))) w
    = (Returned result, w1) ->
  truthy_bool (isError result) = true ->
  run env (execute inv sig) w
  = (Returned
       {| llmContent :=
            "Error: " +:+ String.concat newline (nonempty_texts (items_of result));
          returnDisplay :=
            "Error: " +:+ String.concat newline (nonempty_texts (items_of result));
          error :=
            Some {| message :=
                      String.concat newline (nonempty_texts (items_of result)) |} |},
     w1).
Proof.
  intros Hcall Herr. rewrite run_execute, Hcall.
  unfold normalize, failure. rewrite Herr, textContent_nonempty_texts.
  reflexivity.
Qed.

Lemma execute_remote_error_witness :
  run (env_const [] raw_boom) (execute click_invocation 0) connected_world
  = (Returned {| llmContent := "Error: boom"; returnDisplay := "Error: boom";
                 error := Some {| message := "boom" |} |},
     (run (env_const [] raw_boom)
          (await_call (callTool 0 "click" (JObj []) (Some 0)))
          connected_world).2).
Proof.
  apply (execute_remote_error (env_const [] raw_boom) click_invocation 0
           connected_world _ (toResult raw_boom)).
  - vm_compute. reflexivity.
  - reflexivity.
Defined.

(** ** Cancellation before dispatch (browserManager.ts, [callTool]) *)

(** C4: when the signal passed to [callTool] is already aborted at call time,
    the call throws the signal's reason (or Error('Operation cancelled') when
    the reason is missing) before its first suspension, and the world is left
    as it was: nothing is connected and no request reaches the client. *)
Theorem callTool_pre_aborted (env : Env) (w : World) (this : nat)
    (toolName : string) (args : Json) (sig : nat) :
  aborted (signal_of w sig) = true ->
  run env (callTool this toolName args (Some sig)) w
    = (Raised (operation_cancelled (reason (signal_of w sig))), w)
  /\ advance (callTool this toolName args (Some sig)) w
    = (Throw (operation_cancelled (reason (signal_of w sig))), w).
Proof.
  intros H. unfold callTool. simpl. rewrite H. split; reflexivity.
Qed.

Lemma callTool_pre_aborted_witness :
  run (env_const [] raw_ok) (callTool 0 "click" (JObj []) (Some 0)) aborted_world
    = (Raised (JsError "stop"), aborted_world)
  /\ advance (callTool 0 "click" (JObj []) (Some 0)) aborted_world
    = (Throw (JsError "stop"), aborted_world).
Proof.
  apply (callTool_pre_aborted (env_const [] raw_ok) aborted_world 0 "click"
           (JObj []) 0).
  reflexivity.
Defined.

(** ** Frames: what commands and suspensions leave unchanged *)

Section WorldProjections.
Context (w : World) (e : Event) (this m sig : nat)
        (f : BrowserManager -> BrowserManager) (why : option JsThrown).

Lemma trace_emit : trace (emit e w) = trace w ++ [e].
Proof. reflexivity. Qed.
Lemma trace_bump : trace (bump w) = trace w.
Proof. reflexivity. Qed.
Lemma trace_update : trace (update_manager f m w) = trace w.
Proof. reflexivity. Qed.
Lemma trace_abort : trace (abort_signal sig why w) = trace w.
Proof. reflexivity. Qed.
Lemma trace_set_heap h : trace (set_heap h w) = trace w.
Proof. reflexivity. Qed.
Lemma trace_set_registry r : trace (set_registry r w) = trace w.
Proof. reflexivity. Qed.

Lemma next_ref_emit : next_ref (emit e w) = next_ref w.
Proof. reflexivity. Qed.
Lemma next_ref_bump : next_ref (bump w) = S (next_ref w).
Proof. reflexivity. Qed.
Lemma next_ref_update : next_ref (update_manager f m w) = next_ref w.
Proof. reflexivity. Qed.
Lemma next_ref_abort : next_ref (abort_signal sig why w) = next_ref w.
Proof. reflexivity. Qed.
Lemma next_ref_set_heap h : next_ref (set_heap h w) = next_ref w.
Proof. reflexivity. Qed.
Lemma next_ref_set_registry r : next_ref (set_registry r w) = next_ref w.
Proof. reflexivity. Qed.

Lemma registry_emit : registry (emit e w) = registry w.
Proof. reflexivity. Qed.
Lemma registry_bump : registry (bump w) = registry w.
Proof. reflexivity. Qed.
Lemma registry_update : registry (update_manager f m w) = registry w.
Proof. reflexivity. Qed.
Lemma registry_abort : registry (abort_signal sig why w) = registry w.
Proof. reflexivity. Qed.
Lemma registry_set_heap h : registry (set_heap h w) = registry w.
Proof. reflexivity. Qed.
Lemma registry_set_registry r : registry (set_registry r w) = r.
Proof. reflexivity. Qed.

Lemma heap_emit : heap (emit e w) = heap w.
Proof. reflexivity. Qed.
Lemma heap_bump : heap (bump w) = heap w.
Proof. reflexivity. Qed.
Lemma heap_update :
  heap (update_manager f m w) = <[m := f (manager_of w m)]> (heap w).
Proof. reflexivity. Qed.
Lemma heap_abort : heap (abort_signal sig why w) = heap w.
Proof. reflexivity. Qed.
Lemma heap_set_heap h : heap (set_heap h w) = h.
Proof. reflexivity. Qed.
Lemma heap_set_registry r : heap (set_registry r w) = heap w.
Proof. reflexivity. Qed.

Lemma signals_emit : signals (emit e w) = signals w.
Proof. reflexivity. Qed.
Lemma signals_bump : signals (bump w) = signals w.
Proof. reflexivity. Qed.
Lemma signals_update : signals (update_manager f m w) = signals w.
Proof. reflexivity. Qed.

Lemma manager_of_emit : manager_of (emit e w) this = manager_of w this.
Proof. reflexivity. Qed.
Lemma manager_of_bump : manager_of (bump w) this = manager_of w this.
Proof. reflexivity. Qed.
Lemma manager_of_abort :
  manager_of (abort_signal sig why w) this = manager_of w this.
Proof. reflexivity. Qed.
Lemma manager_of_set_registry r :
  manager_of (set_registry r w) this = manager_of w this.
Proof. reflexivity. Qed.

Lemma manager_of_update :
  manager_of (update_manager f m w) this
  = if decide (m = this) then f (manager_of w this) else manager_of w this.
Proof.
  unfold manager_of at 1, update_manager, set_heap. simpl.
  destruct (decide (m = this)) as [->|Hne].
  - by rewrite lookup_insert_eq.
  - by rewrite lookup_insert_ne.
Qed.

Lemma manager_of_update_eq :
  manager_of (update_manager f this w) this = f (manager_of w this).
Proof.
  unfold manager_of at 1, update_manager, set_heap. simpl.
  by rewrite lookup_insert_eq.
Qed.

Lemma signal_of_emit : signal_of (emit e w) sig = signal_of w sig.
Proof. reflexivity. Qed.
Lemma signal_of_bump : signal_of (bump w) sig = signal_of w sig.
Proof. reflexivity. Qed.
Lemma signal_of_update :
  signal_of (update_manager f m w) sig = signal_of w sig.
Proof. reflexivity. Qed.
End WorldProjections.

Create Rewrite HintDb world.

#[export] Hint Rewrite trace_emit trace_bump trace_update trace_abort
  trace_set_heap trace_set_registry
  next_ref_emit next_ref_bump next_ref_update next_ref_abort next_ref_set_heap
  next_ref_set_registry
  registry_emit registry_bump registry_update registry_abort
  registry_set_heap registry_set_registry
  heap_emit heap_bump heap_update heap_abort heap_set_heap heap_set_registry
  signals_emit signals_bump signals_update
  manager_of_emit manager_of_bump manager_of_abort manager_of_set_registry
  manager_of_update_eq
  signal_of_emit signal_of_bump signal_of_update : world.

Lemma manager_of_heap (w w' : World) (this : nat) :
  heap w' = heap w -> manager_of w' this = manager_of w this.
Proof. unfold manager_of. by intros ->. Qed.

Lemma deliver_frame {t : RTy} (wt : Wait t) (a : Arrival t) (w : World) :
  heap (deliver wt a w).2 = heap w
  /\ registry (deliver wt a w).2 = registry w
  /\ next_ref (deliver wt a w).2 = next_ref w
  /\ trace (deliver wt a w).2 = trace w.
Proof.
  revert w. induction a as [s|sig why rest IH]; intros w; simpl; [done|].
  destruct (aborted (signal_of w sig)); [apply IH|].
  destruct (listener wt) as [[sig' onAbort]|].
  - destruct (Nat.eqb sig' sig); [done|].
    destruct (IH (abort_signal sig why w)) as (-> & -> & -> & ->). done.
  - destruct (IH (abort_signal sig why w)) as (-> & -> & -> & ->). done.
Qed.

Lemma manager_of_deliver {t : RTy} (wt : Wait t) (a : Arrival t) (w : World)
    (this : nat) :
  manager_of (deliver wt a w).2 this = manager_of w this.
Proof. apply manager_of_heap. by destruct (deliver_frame wt a w) as (-> & _). Qed.

Lemma after_tick_frame (env : Env) (w : World) :
  heap (after_tick env w) = heap w
  /\ registry (after_tick env w) = registry w
  /\ next_ref (after_tick env w) = next_ref w
  /\ trace (after_tick env w) = trace w.
Proof. apply deliver_frame. Qed.

Lemma heap_after_tick (env : Env) (w : World) :
  heap (after_tick env w) = heap w.
Proof. apply after_tick_frame. Qed.

Lemma registry_after_tick (env : Env) (w : World) :
  registry (after_tick env w) = registry w.
Proof. apply after_tick_frame. Qed.

Lemma next_ref_after_tick (env : Env) (w : World) :
  next_ref (after_tick env w) = next_ref w.
Proof. apply after_tick_frame. Qed.

Lemma trace_after_tick (env : Env) (w : World) :
  trace (after_tick env w) = trace w.
Proof. apply after_tick_frame. Qed.

Lemma manager_of_after_tick (env : Env) (w : World) (this : nat) :
  manager_of (after_tick env w) this = manager_of w this.
Proof. apply manager_of_deliver. Qed.

#[export] Hint Rewrite heap_after_tick registry_after_tick next_ref_after_tick
  trace_after_tick manager_of_after_tick : world.

(** A suspension without abort listener is resumed with what the awaited
    promise settles to. *)
Lemma deliver_outcome {t : RTy} (wt : Wait t) (a : Arrival t) (w : World) :
  listener wt = None -> (deliver wt a w).1 = outcome a.
Proof.
  intros H. revert w. induction a as [s|sig why rest IH]; intros w; simpl; [done|].
  destruct (aborted (signal_of w sig)); [apply IH|]. rewrite H. apply IH.
Qed.

Lemma exec_registry {R : Type} (c : Cmd R) (w : World) :
  ~ registers c -> registry (exec c w).2 = registry w.
Proof. destruct c; simpl; tauto. Qed.

Lemma exec_next_ref {R : Type} (c : Cmd R) (w : World) :
  next_ref w <= next_ref (exec c w).2.
Proof. destruct c; simpl; autorewrite with world; lia. Qed.

Lemma exec_heap_frame {R : Type} (c : Cmd R) (w : World) (this m : nat) :
  owned this c -> m <> this -> heap (exec c w).2 !! m = heap w !! m.
Proof.
  intros Hc Hm.
  destruct c; simpl in *; autorewrite with world; try tauto; subst;
    by rewrite lookup_insert_ne.
Qed.

Lemma owned_not_registers (this : nat) {R : Type} (c : Cmd R) :
  owned this c -> ~ registers c.
Proof. destruct c; simpl; tauto. Qed.

Lemma filter_snoc_length {A : Type} (f : A -> bool) (l : list A) (x : A) :
  length (List.filter f (l ++ [x]))
  = length (List.filter f l) + (if f x then 1 else 0).
Proof.
  rewrite List.filter_app, length_app. simpl. by destruct (f x).
Qed.

(** A command that does not start a connection creates no transport, issues
    no connect and keeps the client of every manager. *)
Lemma exec_quiet {R : Type} (c : Cmd R) (w : World) (this : nat) :
  ~ connects c ->
  transports_created (trace (exec c w).2) = transports_created (trace w)
  /\ connects_issued (trace (exec c w).2) = connects_issued (trace w)
  /\ rawMcpClient (manager_of (exec c w).2 this) = rawMcpClient (manager_of w this).
Proof.
  unfold transports_created, connects_issued.
  destruct c; simpl; try tauto; intros _; autorewrite with world;
    rewrite ?filter_snoc_length; simpl; rewrite ?Nat.add_0_r;
    try done; rewrite manager_of_update; by case_decide.
Qed.

(** ** Invariants of programs from invariants of their commands *)

Section Invariants.
Context (P : forall R : Type, Cmd R -> Prop) (I : World -> Prop).
Hypothesis exec_keeps :
  forall (R : Type) (c : Cmd R) (w : World), P R c -> I w -> I (exec c w).2.
Hypothesis deliver_keeps :
  forall (t : RTy) (wt : Wait t) (a : Arrival t) (w : World),
    I w -> I (deliver wt a w).2.

Lemma run_invariant {A : Type} (env : Env) (p : Prog A) (w : World) :
  all_cmds P p -> I w -> I (run env p w).2.
Proof.
  revert w. induction p as [a|e|R c k IH|t wt k IH]; intros w Hp Hw;
    simpl in *; auto.
  destruct Hp as [Hc Hk]. apply IH; auto.
Qed.

Lemma advance_invariant {A : Type} (p : Prog A) (w : World) :
  all_cmds P p -> I w ->
  all_cmds P (advance p w).1 /\ I (advance p w).2.
Proof.
  revert w. induction p as [a|e|R c k IH|t wt k IH]; intros w Hp Hw;
    simpl in *; auto.
  destruct Hp as [Hc Hk]. apply IH; auto.
Qed.
End Invariants.

Section AllCmds.
Context (P : forall R : Type, Cmd R -> Prop).

Lemma all_cmds_impl (Q : forall R : Type, Cmd R -> Prop) {A : Type} (p : Prog A) :
  (forall (R : Type) (c : Cmd R), P R c -> Q R c) ->
  all_cmds P p -> all_cmds Q p.
Proof.
  intros HPQ. induction p as [a|e|R c k IH|t wt k IH]; simpl; auto.
  intros [Hc Hk]. split; auto.
Qed.

Lemma all_cmds_bind {A B : Type} (p : Prog A) (f : A -> Prog B) :
  all_cmds P p -> (forall a, all_cmds P (f a)) -> all_cmds P (bind p f).
Proof.
  intros Hp Hf. induction p as [a|e|R c k IH|t wt k IH]; simpl in *; auto.
  destruct Hp as [Hc Hk]. split; auto.
Qed.

Lemma all_cmds_try_catch {A : Type} (p : Prog A) (h : JsThrown -> Prog A) :
  all_cmds P p -> (forall e, all_cmds P (h e)) -> all_cmds P (try_catch p h).
Proof.
  intros Hp Hh. induction p as [a|e|R c k IH|t wt k IH]; simpl in *; auto.
  destruct Hp as [Hc Hk]. split; auto.
Qed.

Lemma all_cmds_try_finally {A : Type} (p : Prog A) (f : Prog unit) :
  all_cmds P p -> all_cmds P f -> all_cmds P (try_finally p f).
Proof.
  intros Hp Hf. unfold try_finally.
  apply all_cmds_bind.
  - apply all_cmds_try_catch; [|done]. apply all_cmds_bind; done.
  - intros r. apply all_cmds_bind; [done|]. intros _. by destruct r.
Qed.

Lemma all_cmds_await_call {A : Type} (p : Prog A) :
  all_cmds P p -> all_cmds P (await_call p).
Proof.
  intros Hp. unfold await_call. apply all_cmds_try_catch.
  - apply all_cmds_bind; [done|]. intros a. simpl. done.
  - intros e. simpl. done.
Qed.

Lemma all_cmds_do {R : Type} (c : Cmd R) : P R c -> all_cmds P (do c).
Proof. intros Hc. simpl. done. Qed.

Lemma all_cmds_await {t : RTy} (p : Promise t) : all_cmds P (await p).
Proof. intros s. by destruct s. Qed.

Lemma all_cmds_map_each {A B : Type} (f : A -> Prog B) (l : list A) :
  (forall a, all_cmds P (f a)) -> all_cmds P (map_each f l).
Proof.
  intros Hf. induction l as [|x l IH]; simpl; [done|].
  apply all_cmds_bind; [done|]. intros y.
  apply all_cmds_bind; [done|]. done.
Qed.
End AllCmds.

Ltac cmds :=
  repeat first
    [ progress intros
    | apply all_cmds_bind
    | apply all_cmds_try_catch
    | apply all_cmds_try_finally
    | apply all_cmds_await_call
    | apply all_cmds_await
    | apply all_cmds_map_each
    | match goal with
      | |- all_cmds _ (settle ?s) => destruct s
      | |- all_cmds _ (match ?x with _ => _ end) => destruct x
      | |- all_cmds _ (if ?x then _ else _) => destruct x
      | H : all_cmds ?P ?p |- all_cmds ?P ?p => exact H
      end
    | progress cbn [all_cmds do tick]
    | split
    | done ].

(** ** The commands of each function *)

Section Owned.
Context (this : nat).
Let P : forall R : Type, Cmd R -> Prop := fun R c => owned this c.

Lemma discoverTools_owned : all_cmds P (discoverTools this).
Proof. unfold discoverTools. cmds. Qed.

Lemma connectMcp_owned : all_cmds P (connectMcp this).
Proof. unfold connectMcp. cmds; try apply discoverTools_owned. Qed.

Lemma ensureConnection_owned : all_cmds P (ensureConnection this).
Proof. unfold ensureConnection. cmds; try apply connectMcp_owned. Qed.

Lemma getRawMcpClient_owned : all_cmds P (getRawMcpClient this).
Proof. unfold getRawMcpClient. cmds; try apply ensureConnection_owned. Qed.

Lemma getDiscoveredTools_owned : all_cmds P (getDiscoveredTools this).
Proof. unfold getDiscoveredTools. cmds; try apply ensureConnection_owned. Qed.

Lemma callTool_owned (toolName : string) (args : Json) (signal : option nat) :
  all_cmds P (callTool this toolName args signal).
Proof.
  unfold callTool. cmds; try apply getRawMcpClient_owned.
Qed.

Lemma close_owned : all_cmds P (close this).
Proof. unfold close. cmds. Qed.
End Owned.

Lemma execute_owned (inv : McpToolInvocation) (sig : nat) :
  all_cmds (fun R c => owned (inv_browserManager inv) c) (execute inv sig).
Proof. unfold execute. cmds; try apply callTool_owned. Qed.

(** ** Teardown (browserManager.ts [close], browserAgentFactory.ts
       [cleanupBrowserAgent]) *)

(** Names what the environment delivers to the next suspension of the goal. *)
Ltac settle_next :=
  match goal with
  | |- context [deliver ?wt ?a ?w] =>
      let Hh := fresh "Hheap" in
      let Hr := fresh "Hreg" in
      let Hn := fresh "Hnext" in
      let Ht := fresh "Htrace" in
      let Ho := fresh "Hout" in
      let Hm := fresh "Hmgr" in
      pose proof (deliver_frame wt a w) as (Hh & Hr & Hn & Ht);
      pose proof (deliver_outcome wt a w eq_refl) as Ho;
      pose proof (fun this => manager_of_deliver wt a w this) as Hm;
      destruct (deliver wt a w) as [? ?];
      simpl in Hh, Hr, Hn, Ht, Ho, Hm;
      autorewrite with world in Hh;
      autorewrite with world in Hr;
      autorewrite with world in Hn;
      autorewrite with world in Ht;
      rewrite <- ?app_assoc in Ht; simpl in Ht;
      autorewrite with world in Ho;
      rewrite <- ?app_assoc in Ho; simpl in Ho;
      autorewrite with world in Hm
  end.

Ltac norm := repeat progress (autorewrite with world; simpl).

Lemma cleared_eq (bm bm' : BrowserManager) :
  config bm' = config bm -> rawMcpClient bm' = None ->
  mcpTransport bm' = None -> discoveredTools bm' = [] ->
  bm' = new_manager (config bm).
Proof. destruct bm'; simpl; intros <- -> -> ->. reflexivity. Qed.

(** [close] returns, whatever the two close calls settle to, and leaves the
    manager without client, without transport and without tools; other
    managers and the registry are not touched. *)
Lemma close_clears (env : Env) (w : World) (this : nat) :
  exists w' : World,
    run env (close this) w = (Returned tt, w')
    /\ heap w' !! this = Some (new_manager (config (manager_of w this)))
    /\ registry w' = registry w
    /\ (forall m, m <> this -> heap w' !! m = heap w !! m).
Proof.
  unfold close. simpl.
  destruct (rawMcpClient (manager_of w this)) as [c|] eqn:Hc; simpl.
  - settle_next.
    destruct s as [[]|e]; norm; rewrite Hmgr; norm;
      (destruct (mcpTransport (manager_of w this)) as [t|] eqn:Ht; norm;
       [ settle_next; destruct s as [[]|e']; norm | ]);
      (eexists; split; [reflexivity|]); norm;
      rewrite ?Hmgr0, ?Hreg0, ?Hheap0; norm; rewrite ?Hmgr, ?Hreg, ?Hheap; norm;
      (split; [rewrite lookup_insert_eq; f_equal; by apply cleared_eq
              |split; [done|]]);
      intros m Hm; rewrite !lookup_insert_ne by done; done.
  - destruct (mcpTransport (manager_of w this)) as [t|] eqn:Ht; norm;
      [ settle_next; destruct s as [[]|e']; norm | ];
      (eexists; split; [reflexivity|]); norm;
      rewrite ?Hmgr, ?Hreg, ?Hheap; norm;
      (split; [rewrite lookup_insert_eq; f_equal; by apply cleared_eq
              |split; [done|]]);
      intros m Hm; rewrite !lookup_insert_ne by done; done.
Qed.

(** On a manager that holds neither client nor transport nor tools, [close]
    does nothing at all. *)
Lemma close_closed (env : Env) (w : World) (this : nat) (cfg : Config) :
  heap w !! this = Some (new_manager cfg) ->
  run env (close this) w = (Returned tt, w).
Proof.
  intros H.
  assert (Hm : manager_of w this = new_manager cfg)
    by (unfold manager_of; by rewrite H).
  unfold close. simpl. rewrite Hm. simpl. rewrite Hm. simpl.
  f_equal. unfold update_manager. rewrite Hm.
  change (with_tools [] (new_manager cfg)) with (new_manager cfg).
  rewrite insert_id by done. by destruct w.
Qed.

(** With client [c] and transport [t], [close] first closes the client, then
    the transport, and logs each rejection. *)
Lemma close_trace (env : Env) (w : World) (this c t : nat) :
  rawMcpClient (manager_of w this) = Some c ->
  mcpTransport (manager_of w this) = Some t ->
  let p1 := next_ref w in
  let s1 := outcome (env (trace w ++ [EvClientClose p1 c]) TUnit
                         (WPromise {| pid := p1 |})) in
  let tr1 := trace w ++ EvClientClose p1 c
                        :: close_log "Error closing MCP client: " s1 in
  let p2 := S p1 in
  let s2 := outcome (env (tr1 ++ [EvTransportClose p2 t]) TUnit
                         (WPromise {| pid := p2 |})) in
  trace (run env (close this) w).2
  = tr1 ++ EvTransportClose p2 t
           :: close_log "Error closing MCP transport: " s2.
Proof.
  intros Hc Ht. unfold close. simpl. rewrite Hc. simpl.
  settle_next.
  destruct s as [[]|e]; norm; rewrite Hmgr; norm; rewrite Ht; norm;
    settle_next; rewrite Hnext, Htrace in *; rewrite <- Hout in *; simpl in *;
    rewrite <- ?app_assoc in *; simpl in *;
    destruct s as [[]|e']; norm; rewrite Htrace0, <- Hout0; simpl;
    rewrite <- ?app_assoc; reflexivity.
Qed.

Lemma run_cleanupWith (env : Env) (closeMethod : Prog unit) (w : World) :
  run env (cleanupWith closeMethod) w
  = match run env closeMethod w with
    | (Returned _, w1) =>
        (Returned tt,
         emit (EvLog "Browser agent cleanup complete") (after_tick env w1))
    | (Raised e, w1) =>
        (Returned tt,
         emit (EvLogError ("Error during browser cleanup: " +:+ error_message e))
              (after_tick env w1))
    end.
Proof.
  unfold cleanupWith. rewrite run_try_catch, run_bind, run_await_call.
  destruct (run env closeMethod w) as [[[]|e] w1]; reflexivity.
Qed.

(** [cleanupBrowserAgent] returns whatever the [close] method does. *)
Lemma cleanupWith_returns (env : Env) (closeMethod : Prog unit) (w : World) :
  exists w' : World, run env (cleanupWith closeMethod) w = (Returned tt, w').
Proof.
  rewrite run_cleanupWith.
  destruct (run env closeMethod w) as [[[]|e] w1]; eauto.
Qed.

(** C9: [close] always returns (it never throws), whatever the two close
    calls settle to, and leaves the manager without client, without transport
    and with an empty tool list; called again it returns again and changes
    and calls nothing.  On a connected manager it closes the client first,
    then the transport, and a rejected step is logged and followed by the
    next one.  [cleanupBrowserAgent] returns even when the [close] method it
    calls throws, and a second cleanup only logs its completion. *)
Theorem close_teardown (env : Env) (w : World) (this : nat) :
  (exists w' : World,
     run env (close this) w = (Returned tt, w')
     /\ rawMcpClient (manager_of w' this) = None
     /\ mcpTransport (manager_of w' this) = None
     /\ discoveredTools (manager_of w' this) = []
     /\ run env (close this) w' = (Returned tt, w'))
  /\ (forall c t : nat,
        rawMcpClient (manager_of w this) = Some c ->
        mcpTransport (manager_of w this) = Some t ->
        let p1 := next_ref w in
        let s1 := outcome (env (trace w ++ [EvClientClose p1 c]) TUnit
                               (WPromise {| pid := p1 |})) in
        let tr1 := trace w ++ EvClientClose p1 c
                              :: close_log "Error closing MCP client: " s1 in
        let p2 := S p1 in
        let s2 := outcome (env (tr1 ++ [EvTransportClose p2 t]) TUnit
                               (WPromise {| pid := p2 |})) in
        trace (run env (close this) w).2
        = tr1 ++ EvTransportClose p2 t
                 :: close_log "Error closing MCP transport: " s2)
  /\ (forall (closeMethod : Prog unit) (w0 : World),
        exists w' : World,
          run env (cleanupWith closeMethod) w0 = (Returned tt, w'))
  /\ (exists w1 w2 : World,
        run env (cleanupBrowserAgent this) w = (Returned tt, w1)
        /\ run env (cleanupBrowserAgent this) w1 = (Returned tt, w2)
        /\ trace w2 = trace w1 ++ [EvLog "Browser agent cleanup complete"]).
Proof.
  destruct (close_clears env w this) as (w' & Hrun & Hheap & _ & _).
  assert (Hm : manager_of w' this = new_manager (config (manager_of w this)))
    by (unfold manager_of at 1; by rewrite Hheap).
  repeat split.
  - exists w'. rewrite Hm. repeat split; try done.
    eapply close_closed, Hheap.
  - intros c t. apply close_trace.
  - intros closeMethod w0. apply cleanupWith_returns.
  - unfold cleanupBrowserAgent. rewrite run_cleanupWith, Hrun.
    set (w1 := emit _ (after_tick env w')).
    assert (Hheap1 : heap w1 !! this
                     = Some (new_manager (config (manager_of w this)))).
    { unfold w1, after_tick. rewrite heap_emit.
      by destruct (deliver_frame WTick (env (trace w') TUnit WTick) w')
        as (-> & _). }
    exists w1, (emit (EvLog "Browser agent cleanup complete") (after_tick env w1)).
    split; [reflexivity|]. split.
    + by rewrite run_cleanupWith, (close_closed env w1 this _ Hheap1).
    + rewrite trace_emit. unfold after_tick.
      by destruct (deliver_frame WTick (env (trace w1) TUnit WTick) w1)
        as (_ & _ & _ & ->).
Qed.

Lemma close_teardown_witness :
  trace (run (env_reject (JsError "boom") raw_ok) (close 0) connected_world).2
  = [EvClientClose 3 1; EvLogError "Error closing MCP client: boom";
     EvTransportClose 4 2; EvLogError "Error closing MCP transport: boom"].
Proof.
  destruct (close_teardown (env_reject (JsError "boom") raw_ok)
              connected_world 0) as (_ & H & _).
  exact (H 1 2 eq_refl eq_refl).
Defined.

(** ** Connecting (browserManager.ts, [ensureConnection] and [connectMcp]) *)

(** On a manager that holds a client, [ensureConnection] returns at once. *)
Lemma ensureConnection_connected (env : Env) (w : World) (this c : nat) :
  rawMcpClient (manager_of w this) = Some c ->
  run env (ensureConnection this) w = (Returned tt, w)
  /\ advance (ensureConnection this) w = (Ret tt, w).
Proof. intros H. unfold ensureConnection. simpl. by rewrite H. Qed.

(** On a manager that holds no client, [ensureConnection] starts a fresh
    attempt: it creates a client and a transport, keeps both in the manager
    whatever follows, connects, and on success lists the tools and stores
    them. *)
Lemma ensureConnection_attempt (env : Env) (w : World) (this : nat) :
  rawMcpClient (manager_of w this) = None ->
  exists w' : World,
    run env (ensureConnection this) w
      = (attempt_result env w (config (manager_of w this)), w')
    /\ (exists tail : list Event,
          trace w' = trace w ++ attempt_events w (config (manager_of w this))
                             ++ tail)
    /\ rawMcpClient (manager_of w' this) = Some (next_ref w)
    /\ mcpTransport (manager_of w' this) = Some (S (next_ref w))
    /\ config (manager_of w' this) = config (manager_of w this)
    /\ (forall tools : list McpTool,
          connect_outcome env w (config (manager_of w this))
            = Fulfilled (t := TUnit) tt ->
          discovery_outcome env w (config (manager_of w this))
            = Fulfilled (t := TTools) tools ->
          discoveredTools (manager_of w' this) = tools)
    /\ (attempt_result env w (config (manager_of w this)) = Returned tt ->
        next_ref w' = 4 + next_ref w).
Proof.
  intros Hc. unfold ensureConnection. simpl. rewrite Hc.
  rewrite run_await_call. unfold connectMcp. simpl. norm.
  rewrite <- !app_assoc. simpl.
  unfold attempt_result, connect_outcome, discovery_outcome, attempt_events,
    discovery_events.
  settle_next. rewrite <- Hout. simpl.
  destruct s as [[]|e]; simpl.
  - norm. rewrite Hmgr. norm. rewrite Htrace, Hnext. rewrite <- !app_assoc. simpl.
    settle_next. rewrite <- Hout0.
    destruct s as [tools|e]; simpl; norm.
    + settle_next. eexists. split; [reflexivity|]. norm.
      rewrite Hmgr1. norm. rewrite Hmgr0. norm. rewrite Hmgr. norm.
      rewrite Htrace1, Htrace0, Htrace.
      repeat split; try done.
      * eexists. rewrite <- !app_assoc. simpl. reflexivity.
      * intros tools' _ [= <-]. done.
      * intros _. rewrite Hnext1, Hnext0, Hnext. done.
    + settle_next. eexists. split; [reflexivity|]. norm.
      rewrite Hmgr1. norm. rewrite Hmgr0. norm. rewrite Hmgr. norm.
      rewrite Htrace1, Htrace0, Htrace.
      repeat split; try done.
      eexists. rewrite <- !app_assoc. simpl. reflexivity.
  - eexists. split; [reflexivity|]. norm. rewrite Hmgr. norm. rewrite Htrace.
    repeat split; try done.
    exists []. reflexivity.
Qed.

(** The events of an attempt, exactly. *)
Lemma ensureConnection_attempt_trace (env : Env) (w : World) (this : nat) :
  rawMcpClient (manager_of w this) = None ->
  trace (run env (ensureConnection this) w).2
  = trace w ++ attempt_trace env w (config (manager_of w this)).
Proof.
  intros Hc. unfold ensureConnection. simpl. rewrite Hc.
  rewrite run_await_call. unfold connectMcp. simpl. norm.
  rewrite <- !app_assoc. simpl.
  unfold attempt_trace, connect_outcome, discovery_outcome, attempt_events,
    discovery_events, discovered_log.
  settle_next. rewrite <- Hout. simpl.
  destruct s as [[]|e]; simpl.
  - norm. rewrite Hmgr. norm. rewrite Htrace, Hnext. rewrite <- !app_assoc. simpl.
    settle_next. rewrite <- Hout0.
    destruct s as [tools|e]; simpl; norm.
    + settle_next. norm. rewrite ?Hmgr1. norm.
      rewrite Htrace1, Htrace0, Htrace, <- !app_assoc. reflexivity.
    + settle_next. norm.
      rewrite Htrace1, Htrace0, Htrace, <- !app_assoc. reflexivity.
  - norm. rewrite Htrace. reflexivity.
Qed.

(** C2, as stated, fails: nothing in [BrowserManager] records that it was
    closed.  [close] resets the client to undefined, which is the state in
    which [ensureConnection] connects; so after a completed [close] the next
    [ensureConnection] returns successfully, having spawned a second
    transport. *)
Lemma ensureConnection_after_close_succeeds :
  (run (env_const [] raw_ok)
       (await_call (ensureConnection 0) ;; await_call (close 0))%prog
       fresh_world).1 = Returned tt
  /\ rawMcpClient (manager_of closed_world 0) = None
  /\ transports_created (trace closed_world) = 1
  /\ (run (env_const [] raw_ok) (ensureConnection 0) closed_world).1
     = Returned tt
  /\ transports_created
       (trace (run (env_const [] raw_ok) (ensureConnection 0) closed_world).2)
     = 2.
Proof. repeat split; vm_compute; reflexivity. Qed.

(** C2 (amended): after [close] has completed, the next [ensureConnection]
    does not fail by itself.  It starts a fresh attempt: it creates a new
    client and a new transport under the next unused identities, keeps them
    in the manager, issues a connect and, when that is fulfilled, a tool
    listing; it throws exactly when that connect or that listing is
    rejected.  The closed client and transport are not used again. *)
Theorem ensureConnection_after_close (env : Env) (w w1 : World) (this : nat) :
  run env (close this) w = (Returned tt, w1) ->
  exists w2 : World,
    run env (ensureConnection this) w1
      = (attempt_result env w1 (config (manager_of w this)), w2)
    /\ (exists tail : list Event,
          trace w2 = trace w1 ++ attempt_events w1 (config (manager_of w this))
                              ++ tail)
    /\ rawMcpClient (manager_of w2 this) = Some (next_ref w1)
    /\ mcpTransport (manager_of w2 this) = Some (S (next_ref w1)).
Proof.
  intros Hclose.
  destruct (close_clears env w this) as (w' & Hrun & Hheap & _ & _).
  rewrite Hrun in Hclose. injection Hclose as <-.
  assert (Hm : manager_of w' this = new_manager (config (manager_of w this)))
    by (unfold manager_of at 1; by rewrite Hheap).
  destruct (ensureConnection_attempt env w' this)
    as (w2 & H1 & H2 & H3 & H4 & _).
  { by rewrite Hm. }
  rewrite Hm in H1, H2. simpl in H1, H2.
  exists w2. done.
Qed.

Lemma ensureConnection_after_close_witness :
  exists w2 : World,
    run (env_const [] raw_ok) (ensureConnection 0) closed_world
      = (attempt_result (env_const [] raw_ok) closed_world
           (config (manager_of
                      (run (env_const [] raw_ok) (await_call (ensureConnection 0))
                           fresh_world).2 0)), w2)
    /\ (exists tail : list Event,
          trace w2
          = trace closed_world
            ++ attempt_events closed_world
                 (config (manager_of
                            (run (env_const [] raw_ok)
                                 (await_call (ensureConnection 0))
                                 fresh_world).2 0))
            ++ tail)
    /\ rawMcpClient (manager_of w2 0) = Some (next_ref closed_world)
    /\ mcpTransport (manager_of w2 0) = Some (S (next_ref closed_world)).
Proof.
  apply (ensureConnection_after_close (env_const [] raw_ok)
           (run (env_const [] raw_ok) (await_call (ensureConnection 0))
                fresh_world).2 closed_world 0).
  vm_compute. reflexivity.
Defined.

(** ** Wrapping (mcpToolWrapper.ts, [createMcpDeclarativeTools]) *)

Lemma run_map_each_wrap (env : Env) (bm bus : nat) (ds : list McpTool) (w : World) :
  run env (map_each (wrap bm bus) ds) w
  = (Returned (wrapped_from bm bus (next_ref w) ds), Nat.iter (length ds) bump w).
Proof.
  revert w. induction ds as [|d ds IH]; intros w; [reflexivity|].
  cbn [map_each]. rewrite run_bind. cbn [wrap newMcpDeclarativeTool convertMcpToolToFunctionDeclaration parametersJsonSchema].
  simpl. rewrite run_bind, IH. simpl.
  f_equal. apply (Nat.iter_swap _ _ bump).
Qed.

Lemma iter_bump_frame (n : nat) (w : World) :
  heap (Nat.iter n bump w) = heap w
  /\ registry (Nat.iter n bump w) = registry w
  /\ next_ref (Nat.iter n bump w) = n + next_ref w
  /\ trace (Nat.iter n bump w) = trace w.
Proof.
  induction n as [|n (H1 & H2 & H3 & H4)]; simpl; [done|].
  autorewrite with world. rewrite H1, H2, H3, H4. done.
Qed.

Lemma wrapped_from_mirrors (bm bus r : nat) (ds : list McpTool) :
  Forall2 mirrors ds (wrapped_from bm bus r ds).
Proof.
  revert r. induction ds as [|d ds IH]; intros r; simpl; constructor; auto.
  by repeat split.
Qed.

Lemma wrapped_from_elem (bm bus r : nat) (ds : list McpTool)
    (t : McpDeclarativeTool) :
  t ∈ wrapped_from bm bus r ds ->
  browserManager t = bm /\ messageBus t = bus
  /\ r <= tool_ref t < r + length ds.
Proof.
  revert r. induction ds as [|d ds IH]; intros r; simpl.
  - intros H. by apply elem_of_nil in H.
  - intros [->|H]%elem_of_cons; simpl.
    + repeat split; lia.
    + destruct (IH _ H) as (? & ? & ?). repeat split; try done; lia.
Qed.

Lemma run_getDiscoveredTools_connected (env : Env) (w : World) (this c : nat) :
  rawMcpClient (manager_of w this) = Some c ->
  run env (getDiscoveredTools this) w
  = (Returned (discoveredTools (manager_of w this)), after_tick env w).
Proof.
  intros Hc. unfold getDiscoveredTools.
  rewrite run_bind, run_await_call.
  destruct (ensureConnection_connected env w this c Hc) as [-> _].
  simpl. norm. reflexivity.
Qed.

Lemma run_createMcpDeclarativeTools_connected (env : Env) (w : World)
    (bm bus c : nat) :
  rawMcpClient (manager_of w bm) = Some c ->
  exists w' : World,
    run env (createMcpDeclarativeTools bm bus) w
    = (Returned (wrapped_from bm bus (next_ref w)
                   (discoveredTools (manager_of w bm))), w')
    /\ heap w' = heap w
    /\ registry w' = registry w
    /\ next_ref w' = length (discoveredTools (manager_of w bm)) + next_ref w.
Proof.
  intros Hc. unfold createMcpDeclarativeTools.
  rewrite run_bind, run_await_call.
  rewrite (run_getDiscoveredTools_connected env w bm c Hc).
  rewrite run_bind. simpl. rewrite run_map_each_wrap.
  eexists. split; [norm; reflexivity|].
  destruct (iter_bump_frame (length (discoveredTools (manager_of w bm)))
              (emit (EvLog ("Creating "
                            +:+ pretty (length (discoveredTools (manager_of w bm)))
                            +:+ " declarative tools for browser agent"))
                    (after_tick env (after_tick env w))))
    as (-> & -> & -> & _).
  norm. done.
Qed.

(** A program that stays within the bridge of [this] leaves the registry and
    every other manager as they were. *)
Lemma run_owned_frame {A : Type} (env : Env) (this : nat) (p : Prog A)
    (w : World) :
  all_cmds (fun R c => owned this c) p ->
  registry (run env p w).2 = registry w
  /\ forall m, m <> this -> heap (run env p w).2 !! m = heap w !! m.
Proof.
  intros Hp.
  apply (run_invariant (fun R c => owned this c)
           (fun w' => registry w' = registry w
                      /\ forall m, m <> this -> heap w' !! m = heap w !! m));
    try done.
  - intros R c w0 Hc [Hr Hh]. split.
    + rewrite exec_registry; [done|]. by eapply owned_not_registers.
    + intros m Hm. rewrite (exec_heap_frame c w0 this m Hc Hm). auto.
  - intros t wt a w0 [Hr Hh].
    destruct (deliver_frame wt a w0) as (-> & -> & _). done.
Qed.

Lemma createMcpDeclarativeTools_owned (bm bus : nat) :
  all_cmds (fun R c => owned bm c) (createMcpDeclarativeTools bm bus).
Proof.
  unfold createMcpDeclarativeTools. cmds; try apply getDiscoveredTools_owned.
Qed.

(** The factory creates a manager under the next unused identity and stays
    within its bridge from then on. *)
Lemma createBrowserAgentDefinition_frame (env : Env) (cfg : Config) (bus : nat)
    (printOutput : bool) (w : World) :
  registry (run env (createBrowserAgentDefinition cfg bus printOutput) w).2
    = registry w
  /\ forall m, m <> next_ref w ->
       heap (run env (createBrowserAgentDefinition cfg bus printOutput) w).2 !! m
       = heap w !! m.
Proof.
  unfold createBrowserAgentDefinition. simpl. norm.
  match goal with
  | |- context [run env ?p ?w0] =>
      destruct (run_owned_frame env (next_ref w) p w0) as [Hr Hh]
  end.
  { cmds; try apply ensureConnection_owned;
      try apply createMcpDeclarativeTools_owned. }
  split.
  - rewrite Hr. by norm.
  - intros m Hm. rewrite (Hh m Hm). norm. by rewrite lookup_insert_ne.
Qed.

(** What the factory returns: when the attempt of its fresh manager fails,
    the failure; otherwise the manager and one object per discovered tool,
    in order, under the identities that follow those of the connection. *)
Lemma run_printOutput (env : Env) (printOutput : bool) (w : World) :
  exists w2 : World,
    run env (if printOutput
             then call_printOutput "Browser connected with isolated MCP client."
             else Ret tt) w
    = (match (if printOutput
              then outcome
                     (env (trace w
                           ++ [EvPrintOutput
                                 "Browser connected with isolated MCP client."])
                          TUnit WCallback)
              else Fulfilled (t := TUnit) tt) with
       | Fulfilled _ => Returned tt
       | Rejected e => Raised e
       end, w2)
    /\ heap w2 = heap w
    /\ next_ref w2 = next_ref w
    /\ trace w2
       = trace w
         ++ (if printOutput
             then [EvPrintOutput "Browser connected with isolated MCP client."]
             else []).
Proof.
  destruct printOutput.
  - unfold call_printOutput. simpl. norm. settle_next. rewrite <- Hout.
    eexists. split; [by destruct s as [[]|e]|]. done.
  - exists w. simpl. by rewrite app_nil_r.
Qed.

Lemma run_createBrowserAgentDefinition (env : Env) (cfg : Config) (bus : nat)
    (printOutput : bool) (w : World) :
  match attempt_result env (factory_start cfg w) cfg with
  | Raised e =>
      exists w1 : World,
        run env (createBrowserAgentDefinition cfg bus printOutput) w
        = (Raised e, w1)
  | Returned _ =>
      match callback_outcome env cfg printOutput w with
      | Rejected e =>
          exists w1 : World,
            run env (createBrowserAgentDefinition cfg bus printOutput) w
            = (Raised e, w1)
      | Fulfilled _ =>
          exists w1 : World,
            run env (createBrowserAgentDefinition cfg bus printOutput) w
            = (Returned
                 ({| toolConfig_tools :=
                       wrapped_from (next_ref w) bus (5 + next_ref w)
                         (discoveredTools (manager_of w1 (next_ref w))) |},
                  next_ref w), w1)
            /\ rawMcpClient (manager_of w1 (next_ref w)) = Some (S (next_ref w))
            /\ mcpTransport (manager_of w1 (next_ref w))
               = Some (S (S (next_ref w)))
            /\ next_ref w1
               = length (discoveredTools (manager_of w1 (next_ref w)))
                 + (5 + next_ref w)
            /\ (forall tools : list McpTool,
                  connect_outcome env (factory_start cfg w) cfg
                    = Fulfilled (t := TUnit) tt ->
                  discovery_outcome env (factory_start cfg w) cfg
                    = Fulfilled (t := TTools) tools ->
                  discoveredTools (manager_of w1 (next_ref w)) = tools)
      end
  end.
Proof.
  assert (Hfresh : manager_of (factory_start cfg w) (next_ref w)
                   = new_manager cfg).
  { unfold factory_start. simpl. norm. unfold manager_of. norm.
    by rewrite lookup_insert_eq. }
  assert (Hnext : next_ref (factory_start cfg w) = S (next_ref w))
    by (unfold factory_start; simpl; by norm).
  destruct (ensureConnection_attempt env (factory_start cfg w) (next_ref w))
    as (w' & Hrun & _ & Hc & Ht & _ & Htools & Hn).
  { by rewrite Hfresh. }
  pose proof (ensureConnection_attempt_trace env (factory_start cfg w)
                (next_ref w)) as Htr.
  rewrite Hfresh in Hrun, Htools, Hn, Htr. specialize (Htr eq_refl).
  change (config (new_manager cfg)) with cfg in Hrun, Htools, Hn, Htr.
  rewrite Hrun in Htr. cbn [snd] in Htr.
  rewrite Hnext in Hc, Ht, Hn.
  unfold createBrowserAgentDefinition.
  cbn [bind do]. cbn [run].
  change (exec (NewBrowserManager cfg) (exec (DebugLog _) w).2)
    with (next_ref w, factory_start cfg w).
  cbn [fst snd].
  rewrite run_bind, run_await_call, Hrun.
  destruct (attempt_result env (factory_start cfg w) cfg) as [[]|e];
    [|eexists; reflexivity].
  specialize (Hn eq_refl).
  rewrite run_bind.
  destruct (run_printOutput env printOutput (after_tick env w'))
    as (w2 & -> & Hheap2 & Hnext2 & _).
  rewrite trace_after_tick, Htr, <- app_assoc.
  rewrite heap_after_tick in Hheap2. rewrite next_ref_after_tick in Hnext2.
  fold (callback_outcome env cfg printOutput w).
  destruct (callback_outcome env cfg printOutput w) as [[]|e];
    [|eexists; reflexivity].
  assert (Hm2 : manager_of w2 (next_ref w) = manager_of w' (next_ref w))
    by (by apply manager_of_heap).
  rewrite run_bind, run_await_call.
  destruct (run_createMcpDeclarativeTools_connected env w2 (next_ref w) bus
              (S (next_ref w))) as (w3 & -> & Hheap3 & _ & Hnext3).
  { by rewrite Hm2. }
  simpl.
  set (w1 := emit _ (after_tick env w3)).
  assert (Hm1 : manager_of w1 (next_ref w) = manager_of w' (next_ref w)).
  { rewrite <- Hm2. apply manager_of_heap. unfold w1. by norm. }
  exists w1. rewrite Hm1. repeat split; try done.
  - rewrite Hm2, Hnext2, Hn. reflexivity.
  - unfold w1. norm. rewrite Hnext3, Hm2, Hnext2, Hn. reflexivity.
Qed.

Lemma wrapped_from_names (bm bus r : nat) (ds : list McpTool) :
  map name (wrapped_from bm bus r ds) = map mcp_name ds.
Proof.
  revert r. induction ds as [|d ds IH]; intros r; simpl; [done|].
  by rewrite IH.
Qed.

(** C8: when the connect is fulfilled and the tool listing answers the N
    descriptors [ds], the factory returns exactly N operations, in the order
    of the listing; each has the name of its descriptor, its description or
    the empty string when it has none, and its input schema or the
    empty-object schema (type object, no properties, no required entry) when
    it has none.  The names are those of the listing, one for one: colliding
    names are neither merged nor renamed. *)
Theorem createBrowserAgentDefinition_wraps_all (env : Env) (cfg : Config)
    (bus : nat) (printOutput : bool) (w : World) (ds : list McpTool) :
  (forall (tr : list Event) (wt : Wait TUnit),
     outcome (env tr TUnit wt) = Fulfilled (t := TUnit) tt) ->
  (forall (tr : list Event) (wt : Wait TTools),
     outcome (env tr TTools wt) = Fulfilled (t := TTools) ds) ->
  exists (def : LocalAgentDefinition) (bm : nat) (w1 : World),
    run env (createBrowserAgentDefinition cfg bus printOutput) w
      = (Returned (def, bm), w1)
    /\ length (toolConfig_tools def) = length ds
    /\ Forall2 mirrors ds (toolConfig_tools def)
    /\ map name (toolConfig_tools def) = map mcp_name ds.
Proof.
  intros Hconnect Hlist.
  pose proof (run_createBrowserAgentDefinition env cfg bus printOutput w) as H.
  unfold attempt_result in H.
  assert (Hc : connect_outcome env (factory_start cfg w) cfg
               = Fulfilled (t := TUnit) tt) by apply Hconnect.
  assert (Hd : discovery_outcome env (factory_start cfg w) cfg
               = Fulfilled (t := TTools) ds) by apply Hlist.
  rewrite Hc, Hd in H.
  assert (Hcb : callback_outcome env cfg printOutput w
                = Fulfilled (t := TUnit) tt).
  { unfold callback_outcome. destruct printOutput; [apply Hconnect|done]. }
  rewrite Hcb in H.
  destruct H as (w1 & Hrun & _ & _ & _ & Htools).
  rewrite (Htools ds eq_refl eq_refl) in Hrun.
  eexists _, _, w1. split; [exact Hrun|]. simpl.
  pose proof (wrapped_from_mirrors (next_ref w) bus (5 + next_ref w) ds) as Hm.
  split; [symmetry; eapply Forall2_length, Hm|].
  split; [exact Hm|]. apply wrapped_from_names.
Qed.

Lemma createBrowserAgentDefinition_wraps_all_witness :
  exists (def : LocalAgentDefinition) (bm : nat) (w1 : World),
    run (env_const [click_tool; fill_tool; click_tool] raw_ok)
        (createBrowserAgentDefinition no_config 7 true) empty_world
      = (Returned (def, bm), w1)
    /\ length (toolConfig_tools def) = 3
    /\ Forall2 mirrors [click_tool; fill_tool; click_tool] (toolConfig_tools def)
    /\ map name (toolConfig_tools def) = ["click"; "fill"; "click"].
Proof.
  apply (createBrowserAgentDefinition_wraps_all
           (env_const [click_tool; fill_tool; click_tool] raw_ok)
           no_config 7 true empty_world [click_tool; fill_tool; click_tool]).
  - intros tr wt. reflexivity.
  - intros tr wt. reflexivity.
Defined.

(** ** Isolation (browserAgentFactory.ts, [createBrowserAgentDefinition]) *)

Lemma createBrowserAgentDefinition_returned (env : Env) (cfg : Config)
    (bus : nat) (printOutput : bool) (w w1 : World)
    (def : LocalAgentDefinition) (bm : nat) :
  run env (createBrowserAgentDefinition cfg bus printOutput) w
    = (Returned (def, bm), w1) ->
  bm = next_ref w
  /\ toolConfig_tools def
     = wrapped_from bm bus (5 + bm) (discoveredTools (manager_of w1 bm))
  /\ rawMcpClient (manager_of w1 bm) = Some (S bm)
  /\ mcpTransport (manager_of w1 bm) = Some (S (S bm))
  /\ next_ref w1 = length (discoveredTools (manager_of w1 bm)) + (5 + bm)
  /\ registry w1 = registry w
  /\ (forall m, m <> bm -> heap w1 !! m = heap w !! m).
Proof.
  intros Hrun.
  destruct (createBrowserAgentDefinition_frame env cfg bus printOutput w)
    as [Hreg Hheap].
  rewrite Hrun in Hreg, Hheap. simpl in Hreg, Hheap.
  pose proof (run_createBrowserAgentDefinition env cfg bus printOutput w) as H.
  destruct (attempt_result env (factory_start cfg w) cfg) as [[]|e].
  - destruct (callback_outcome env cfg printOutput w) as [[]|e].
    + destruct H as (w1' & Hrun' & Hc & Ht & Hn & _).
      rewrite Hrun in Hrun'. injection Hrun' as -> -> <-.
      repeat split; done.
    + destruct H as (w1' & Hrun'). rewrite Hrun in Hrun'. discriminate.
  - destruct H as (w1' & Hrun'). rewrite Hrun in Hrun'. discriminate.
Qed.

(** An operation of a bridge, whenever it is executed, stays within that
    bridge. *)
Lemma execute_frame (env : Env) (t : McpDeclarativeTool) (params : Json)
    (sig : nat) (w : World) (m : nat) :
  m <> browserManager t ->
  registry (run env (execute (build t params) sig) w).2 = registry w
  /\ heap (run env (execute (build t params) sig) w).2 !! m = heap w !! m.
Proof.
  intros Hm.
  destruct (run_owned_frame env (browserManager t)
              (execute (build t params) sig) w) as [Hr Hh].
  { apply (execute_owned (build t params) sig). }
  split; [exact Hr | by apply Hh].
Qed.

(** C1: take any two bridges that the factory has built, the second in the
    world left by the first, whatever the environment answered (the same
    tool listing twice included).  The operations of each are the image of
    the tools discovered by its own manager; neither build changed the main
    tool registry; the two managers are distinct objects, with distinct
    clients and transports; every operation refers to the manager of its own
    bridge; no operation object of one bridge is an operation object of the
    other; and executing an operation of one bridge, in any world and
    environment, changes neither the registry nor the manager of the other
    bridge. *)
Theorem bridges_are_isolated (env : Env) (cfg1 cfg2 : Config) (bus1 bus2 : nat)
    (print1 print2 : bool) (w w1 w2 : World)
    (def1 def2 : LocalAgentDefinition) (bm1 bm2 : nat) :
  run env (createBrowserAgentDefinition cfg1 bus1 print1) w
    = (Returned (def1, bm1), w1) ->
  run env (createBrowserAgentDefinition cfg2 bus2 print2) w1
    = (Returned (def2, bm2), w2) ->
  (Forall2 mirrors (discoveredTools (manager_of w1 bm1)) (toolConfig_tools def1)
   /\ Forall2 mirrors (discoveredTools (manager_of w2 bm2)) (toolConfig_tools def2))
  /\ (registry w1 = registry w /\ registry w2 = registry w)
  /\ bm1 <> bm2
  /\ (rawMcpClient (manager_of w2 bm1) <> rawMcpClient (manager_of w2 bm2)
      /\ mcpTransport (manager_of w2 bm1) <> mcpTransport (manager_of w2 bm2))
  /\ (forall t : McpDeclarativeTool,
        (t ∈ toolConfig_tools def1 -> browserManager t = bm1)
        /\ (t ∈ toolConfig_tools def2 -> browserManager t = bm2))
  /\ (forall t1 t2 : McpDeclarativeTool,
        t1 ∈ toolConfig_tools def1 -> t2 ∈ toolConfig_tools def2 ->
        tool_ref t1 <> tool_ref t2)
  /\ (forall (env' : Env) (t : McpDeclarativeTool) (params : Json) (sig : nat)
             (w3 : World),
        t ∈ toolConfig_tools def1 ->
        registry (run env' (execute (build t params) sig) w3).2 = registry w3
        /\ heap (run env' (execute (build t params) sig) w3).2 !! bm2
           = heap w3 !! bm2)
  /\ (forall (env' : Env) (t : McpDeclarativeTool) (params : Json) (sig : nat)
             (w3 : World),
        t ∈ toolConfig_tools def2 ->
        registry (run env' (execute (build t params) sig) w3).2 = registry w3
        /\ heap (run env' (execute (build t params) sig) w3).2 !! bm1
           = heap w3 !! bm1).
Proof.
  intros H1 H2.
  destruct (createBrowserAgentDefinition_returned _ _ _ _ _ _ _ _ H1)
    as (Hb1 & Htools1 & Hc1 & Ht1 & Hn1 & Hr1 & _).
  destruct (createBrowserAgentDefinition_returned _ _ _ _ _ _ _ _ H2)
    as (Hb2 & Htools2 & Hc2 & Ht2 & Hn2 & Hr2 & Hh2).
  assert (Hlt : 5 + bm1 + length (toolConfig_tools def1) = bm2).
  { rewrite Hb2, Hn1, Htools1.
    pose proof (Forall2_length _ _ _
                  (wrapped_from_mirrors bm1 bus1 (5 + bm1)
                     (discoveredTools (manager_of w1 bm1)))) as <-.
    lia. }
  assert (Hne : bm1 <> bm2) by lia.
  assert (Hm1 : manager_of w2 bm1 = manager_of w1 bm1).
  { unfold manager_of. by rewrite Hh2. }
  split; [|split; [|split; [|split; [|split; [|split; [|split]]]]]].
  - rewrite Htools1, Htools2. split; apply wrapped_from_mirrors.
  - split; congruence.
  - exact Hne.
  - rewrite Hm1, Hc1, Hc2, Ht1, Ht2. split; intros [= ?]; lia.
  - intros t. rewrite Htools1, Htools2.
    split; intros Ht; by destruct (wrapped_from_elem _ _ _ _ _ Ht).
  - intros t1 t2. rewrite Htools1, Htools2. intros Hin1 Hin2.
    destruct (wrapped_from_elem _ _ _ _ _ Hin1) as (_ & _ & Hrange1).
    destruct (wrapped_from_elem _ _ _ _ _ Hin2) as (_ & _ & Hrange2).
    rewrite Htools1 in Hlt.
    pose proof (Forall2_length _ _ _
                  (wrapped_from_mirrors bm1 bus1 (5 + bm1)
                     (discoveredTools (manager_of w1 bm1)))) as Hlen.
    lia.
  - intros env' t params sig w3. rewrite Htools1. intros Hin.
    destruct (wrapped_from_elem _ _ _ _ _ Hin) as (Hbm & _).
    apply execute_frame. congruence.
  - intros env' t params sig w3. rewrite Htools2. intros Hin.
    destruct (wrapped_from_elem _ _ _ _ _ Hin) as (Hbm & _).
    apply execute_frame. congruence.
Qed.

Lemma bridges_are_isolated_witness :
  registry second_bridge.2 = []
  /\ 0 <> 7
  /\ (forall t1 t2 : McpDeclarativeTool,
        t1 ∈ first_tools -> t2 ∈ second_tools -> tool_ref t1 <> tool_ref t2).
Proof.
  destruct (bridges_are_isolated (env_const [click_tool; fill_tool] raw_ok)
              no_config no_config 7 7 false false
              empty_world first_bridge.2 second_bridge.2
              {| toolConfig_tools := first_tools |}
              {| toolConfig_tools := second_tools |} 0 7)
    as (_ & (_ & Hreg) & Hne & _ & _ & Hrefs & _).
  - vm_compute. reflexivity.
  - vm_compute. reflexivity.
  - exact (conj Hreg (conj Hne Hrefs)).
Defined.

(** ** Interleaved callers of [ensureConnection] *)

(** The first call on a manager without client creates a client, a transport
    and issues one connect before it suspends; what remains of the task
    starts no further connection. *)
Lemma advance_ensureConnection_fresh (this : nat) (w : World) :
  rawMcpClient (manager_of w this) = None ->
  all_cmds (fun R c => ~ connects c) (advance (ensureConnection this) w).1
  /\ rawMcpClient (manager_of (advance (ensureConnection this) w).2 this)
     = Some (next_ref w)
  /\ transports_created (trace (advance (ensureConnection this) w).2)
     = S (transports_created (trace w))
  /\ connects_issued (trace (advance (ensureConnection this) w).2)
     = S (connects_issued (trace w)).
Proof.
  intros Hc. unfold ensureConnection. simpl. rewrite Hc.
  unfold await_call, connectMcp. simpl. norm.
  split; [|split; [|split]].
  - intros s. destruct s as [[]|e]; simpl; [|done].
    split; [tauto|]. intros _. unfold discoverTools. simpl. split; [tauto|].
    intros bm. destruct (rawMcpClient bm); simpl; [|done].
    split; [tauto|]. intros p s. destruct s as [tools|e]; simpl; [|done].
    repeat (split; [tauto|]; intros). done.
  - done.
  - unfold transports_created. rewrite !filter_snoc_length. simpl. lia.
  - unfold connects_issued. rewrite !filter_snoc_length. simpl. lia.
Qed.

Lemma advance_quiet (this c : nat) (p : Prog unit) (w : World) (n k : nat) :
  all_cmds (fun R c => ~ connects c) p ->
  rawMcpClient (manager_of w this) = Some c ->
  transports_created (trace w) = n ->
  connects_issued (trace w) = k ->
  all_cmds (fun R c => ~ connects c) (advance p w).1
  /\ rawMcpClient (manager_of (advance p w).2 this) = Some c
  /\ transports_created (trace (advance p w).2) = n
  /\ connects_issued (trace (advance p w).2) = k.
Proof.
  intros Hp Hc Hn Hk.
  apply (advance_invariant (fun R c => ~ connects c)
           (fun w' => rawMcpClient (manager_of w' this) = Some c
                      /\ transports_created (trace w') = n
                      /\ connects_issued (trace w') = k)); try done.
  intros R cmd w0 Hcmd (H1 & H2 & H3).
  destruct (exec_quiet cmd w0 this Hcmd) as (-> & -> & ->). done.
Qed.

(** What a task has become when it is suspended or done is not changed by
    running it on. *)
Lemma advance_advance {A : Type} (p : Prog A) (w : World) :
  advance (advance p w).1 (advance p w).2 = advance p w.
Proof.
  revert w. induction p as [a|e|R c k IH|t wt k IH]; intros w; simpl; auto.
Qed.

Lemma sched_one_attempt (env : Env) (this : nat) (w0 : World)
    (pool pool' : Pool) :
  rawMcpClient (manager_of w0 this) = None ->
  one_attempt env this w0 pool -> sched env this pool pool' ->
  one_attempt env this w0 pool'.
Proof.
  intros Hw0 Hinv Hstep. destruct Hstep as [ts w|ts w i t wt kont Hi];
    unfold one_attempt in *; cbn [tasks world] in *.
  - destruct Hinv as [(-> & ->)
                     |(first & later & c & -> & Hq & Hc & Hn & Hk & Hadv & Hrun)].
    + right.
      destruct (advance_ensureConnection_fresh this w0 Hw0)
        as (H1 & H2 & H3 & H4).
      exists (advance (ensureConnection this) w0).1, 0, (next_ref w0).
      rewrite H3, H4, advance_advance, <- run_advance.
      by rewrite <- surjective_pairing.
    + right. destruct (ensureConnection_connected env w this c Hc) as [_ ->].
      cbn [fst snd].
      exists first, (S later), c.
      split; [|done].
      by rewrite replicate_S_end.
  - destruct Hinv as [(-> & _)
                     |(first & later & c & -> & Hq & Hc & Hn & Hk & Hadv & Hrun)];
      [done|].
    destruct i as [|i]; simpl in Hi.
    + injection Hi as ->. cbn [all_cmds] in Hq.
      set (d := deliver wt (env (trace w) t wt) w) in *.
      destruct (deliver_frame wt (env (trace w) t wt) w) as (_ & _ & _ & Htr).
      pose proof (manager_of_deliver wt (env (trace w) t wt) w this) as Hm.
      fold d in Htr, Hm.
      assert (Hc' : rawMcpClient (manager_of d.2 this) = Some c)
        by (by rewrite Hm).
      assert (Hn' : transports_created (trace d.2)
                    = S (transports_created (trace w0))) by (by rewrite Htr).
      assert (Hk' : connects_issued (trace d.2)
                    = S (connects_issued (trace w0))) by (by rewrite Htr).
      destruct (advance_quiet this c (kont d.1) d.2 _ _ (Hq d.1) Hc' Hn' Hk')
        as (H1 & H2 & H3 & H4).
      right. exists (advance (kont d.1) d.2).1, later, c.
      cbn [insert list_insert]. rewrite advance_advance, <- run_advance.
      repeat split; try done. by rewrite <- surjective_pairing.
    + apply lookup_replicate in Hi as [Hi _]. discriminate.
Qed.

(** A task at the head of the pool can be resumed until it has finished, and
    it then has the result of its run against the environment. *)
Lemma sched_finish (env : Env) (this : nat) (p : Prog unit) (w : World)
    (rest : list (Prog unit)) :
  exists w' : World,
    rtc (sched env this)
        {| tasks := (advance p w).1 :: rest; world := (advance p w).2 |}
        {| tasks := finished (run env p w).1 :: rest; world := w' |}.
Proof.
  revert w. induction p as [a|e|R c k IH|t wt k IH]; intros w; simpl.
  - eexists. apply rtc_refl.
  - eexists. apply rtc_refl.
  - apply IH.
  - destruct (IH (deliver wt (env (trace w) t wt) w).1
                 (deliver wt (env (trace w) t wt) w).2) as (w' & Hsteps).
    exists w'. eapply rtc_l; [|exact Hsteps].
    exact (sched_settle env this (Await wt k :: rest) w 0 t wt k eq_refl).
Qed.

(** C3, as stated, fails in its second half: a caller that arrives while the
    attempt is in flight finds the client already set and returns at once,
    without waiting.  When the connect is then rejected, the first caller
    observes the failure and the second has observed success. *)
Lemma concurrent_callers_disagree :
  exists w : World,
    rtc (sched (env_reject (JsError "spawn npx ENOENT") raw_ok) 0)
        {| tasks := []; world := fresh_world |}
        {| tasks := [Throw (JsError "spawn npx ENOENT"); Ret tt]; world := w |}.
Proof.
  eexists.
  eapply rtc_l; [apply sched_call|].
  eapply rtc_l; [apply sched_call|].
  eapply rtc_l.
  { eapply (sched_settle _ 0 _ _ 0 TUnit). reflexivity. }
  eapply rtc_l.
  { eapply (sched_settle _ 0 _ _ 0 TUnit). reflexivity. }
  apply rtc_refl.
Qed.

(** C3 (amended): for every environment and every interleaving of calls of
    [ensureConnection] on a manager that holds no client at the start, at
    most one transport is created and at most one connect is issued.  Only
    the first caller waits for that attempt and observes its outcome: it
    stays suspended until it has the result of the attempt, which is what the
    connect and the listing of the attempt settle to in that environment, and
    it can always be resumed until it has finished with that result.  Every
    later caller has returned successfully at once, and so will any further
    caller, whether the attempt is still in flight, has succeeded or has
    failed. *)
Theorem ensureConnection_single_attempt (env : Env) (this : nat) (w0 : World)
    (pool : Pool) :
  rawMcpClient (manager_of w0 this) = None ->
  rtc (sched env this) {| tasks := []; world := w0 |} pool ->
  transports_created (trace (world pool)) <= S (transports_created (trace w0))
  /\ connects_issued (trace (world pool)) <= S (connects_issued (trace w0))
  /\ (tasks pool = []
      \/ exists (first : Prog unit) (later : nat),
           tasks pool = first :: replicate later (Ret tt)
           /\ advance (ensureConnection this) (world pool)
              = (Ret tt, world pool)
           /\ observes (attempt_result env w0 (config (manager_of w0 this)))
                       first
           /\ exists w' : World,
                rtc (sched env this) pool
                    {| tasks :=
                         finished (attempt_result env w0
                                     (config (manager_of w0 this)))
                         :: replicate later (Ret tt);
                       world := w' |}).
Proof.
  intros Hc Hsteps.
  assert (Hinv : one_attempt env this w0 pool).
  { revert pool Hsteps. apply rtc_ind_r.
    - left. done.
    - intros y z _ Hstep Hy. eapply sched_one_attempt; eauto. }
  destruct (ensureConnection_attempt env w0 this Hc) as (w1 & Hseq & _).
  destruct Hinv as [(Ht & ->)
                   |(first & later & c & Ht & _ & Hc' & -> & -> & Hadv & Hrun)].
  - repeat split; auto.
  - rewrite Hseq in Hrun. cbn [fst] in Hrun.
    repeat split; auto. right. exists first, later. split; [done|].
    split; [|split].
    + by destruct (ensureConnection_connected env (world pool) this c Hc')
        as [_ ->].
    + rewrite <- Hrun. destruct first as [[]|e|R cmd k|t wt k]; simpl; try done.
      simpl in Hadv. exfalso.
      assert (Hno : forall (A : Type) (p : Prog A) (w : World) (R' : Type)
                           (c' : Cmd R') (k' : R' -> Prog A),
                (advance p w).1 <> Do c' k').
      { intros A p. induction p; intros; simpl; try done; auto. }
      apply (Hno _ (k (exec cmd (world pool)).1) (exec cmd (world pool)).2
               R cmd k).
      by rewrite Hadv.
    + destruct (sched_finish env this first (world pool)
                  (replicate later (Ret tt))) as (w' & Hfin).
      rewrite Hadv, Hrun in Hfin. cbn [fst snd] in Hfin.
      exists w'. destruct pool as [ts w]. cbn [tasks world] in *. subst ts.
      exact Hfin.
Qed.

Lemma ensureConnection_single_attempt_witness :
  transports_created (trace (world two_callers)) <= 1
  /\ connects_issued (trace (world two_callers)) <= 1
  /\ (tasks two_callers = []
      \/ exists (first : Prog unit) (later : nat),
           tasks two_callers = first :: replicate later (Ret tt)
           /\ advance (ensureConnection 0) (world two_callers)
              = (Ret tt, world two_callers)
           /\ observes (Raised (JsError "spawn npx ENOENT")) first
           /\ exists w' : World,
                rtc (sched (env_reject (JsError "spawn npx ENOENT") raw_ok) 0)
                    two_callers
                    {| tasks := Throw (JsError "spawn npx ENOENT")
                                :: replicate later (Ret tt);
                       world := w' |}).
Proof.
  apply (ensureConnection_single_attempt
           (env_reject (JsError "spawn npx ENOENT") raw_ok) 0 fresh_world
           two_callers).
  - reflexivity.
  - apply (rtc_l _ _ one_caller); [exact (sched_call _ 0 [] fresh_world)|].
    apply rtc_once.
    exact (sched_call _ 0 (tasks one_caller) (world one_caller)).
Defined.

(** ** The cancellation race (browserManager.ts, [callTool]) *)

(** The race itself.  On a connected manager, with a signal that is not
    aborted when the abort listener is registered, the call sends one request
    and then: if the signal is aborted first, it throws the signal's reason,
    whatever the remote does afterwards; if the remote settles first, it
    returns the converted response, or throws the rejection.  The listener is
    removed in every case. *)
Lemma callTool_race (env : Env) (w : World) (this c sig : nat)
    (toolName : string) (args : Json) (s0 : Settled TUnit) :
  rawMcpClient (manager_of w this) = Some c ->
  aborted (signal_of w sig) = false ->
  env (trace w) TUnit WTick = Settles s0 ->
  let request := EvCallTool (next_ref w) c toolName args MCP_TIMEOUT_MS in
  let armed := emit (EvAddAbortListener sig) (emit request (bump w)) in
  let finish := emit (EvRemoveAbortListener sig) in
  let arrival := env (trace armed) TRaw
                     (WRace {| pid := next_ref w |} sig operation_cancelled) in
  (forall (why : option JsThrown) (rest : Arrival TRaw),
     arrival = AbortFirst sig why rest ->
     run env (callTool this toolName args (Some sig)) w
     = (Raised (operation_cancelled why), finish (abort_signal sig why armed)))
  /\ (forall raw : RawResult,
        arrival = Settles (Fulfilled (t := TRaw) raw) ->
        run env (callTool this toolName args (Some sig)) w
        = (Returned (toResult raw), finish armed))
  /\ (forall e : JsThrown,
        arrival = Settles (Rejected e) ->
        run env (callTool this toolName args (Some sig)) w
        = (Raised e, finish armed)).
Proof.
  intros Hc Hsig Htick. cbv zeta.
  unfold callTool. simpl. rewrite Hsig. simpl. rewrite Hc. simpl.
  rewrite Htick. simpl.
  repeat split.
  - intros why rest ->. simpl. norm. rewrite Hsig, Nat.eqb_refl. reflexivity.
  - intros raw ->. reflexivity.
  - intros e ->. reflexivity.
Qed.

(** C5 fails on the code when the signal is aborted after the check at call
    time and before the abort listener is registered, that is during
    [await this.getRawMcpClient()].  Here the signal is idle at call time and
    is aborted during that suspension, before any request; the request is
    sent all the same, the listener registered on the aborted signal never
    runs, and the call returns the response of the remote. *)
Lemma callTool_abort_before_race_is_lost :
  aborted (signal_of connected_world 0) = false
  /\ signal_of (run (env_abort_early raw_ok) (await_call (getRawMcpClient 0))
                    connected_world).2 0
     = {| aborted := true; reason := Some (JsError "stop") |}
  /\ trace (run (env_abort_early raw_ok) (await_call (getRawMcpClient 0))
                connected_world).2 = []
  /\ (run (env_abort_early raw_ok) (callTool 0 "click" (JObj []) (Some 0))
          connected_world).1
     = Returned (toResult raw_ok)
  /\ trace (run (env_abort_early raw_ok) (callTool 0 "click" (JObj []) (Some 0))
                connected_world).2
     = [EvCallTool 3 1 "click" (JObj []) 60000; EvAddAbortListener 0;
        EvRemoveAbortListener 0].
Proof. repeat split; vm_compute; reflexivity. Qed.

(** The same loss on a manager that still has to connect: the signal is
    aborted while the connect is in flight. *)
Lemma callTool_abort_while_connecting_is_lost :
  (run (env_abort_early raw_ok) (callTool 0 "click" (JObj []) (Some 0))
       fresh_world).1
  = Returned (toResult raw_ok)
  /\ requests_sent
       (trace (run (env_abort_early raw_ok)
                   (callTool 0 "click" (JObj []) (Some 0)) fresh_world).2)
     = 1.
Proof. repeat split; vm_compute; reflexivity. Qed.

(** A signal aborted before the call, a tool call rejected by the timeout of
    the SDK and a subprocess that cannot be launched all come back from
    [execute] as the same kind of result. *)
Lemma execute_failures_share_shape :
  (run (env_const [] raw_ok) (execute click_invocation 0) aborted_world).1
  = Returned (failure "stop")
  /\ (run (env_call_rejects (JsError "Request timed out"))
          (execute click_invocation 0) connected_world).1
     = Returned (failure "Request timed out")
  /\ (run (env_reject (JsError "spawn npx ENOENT") raw_ok)
          (execute click_invocation 0) fresh_world).1
     = Returned (failure "spawn npx ENOENT").
Proof. repeat split; vm_compute; reflexivity. Qed.

(** * Further properties of the bridge *)

(** ** Counting calls over a run *)

Lemma count_snoc (f : Event -> bool) (tr : list Event) (e : Event) :
  count f (tr ++ [e]) = count f tr + (if f e then 1 else 0).
Proof. apply filter_snoc_length. Qed.

Lemma count_app (f : Event -> bool) (tr tr' : list Event) :
  count f (tr ++ tr') = count f tr + count f tr'.
Proof. unfold count. by rewrite List.filter_app, length_app. Qed.

(** A count that no command of a program changes is the same after every
    run of the program. *)
(** ** The conversion of raw responses (browserManager.ts, [toResult]) *)

Lemma nonempty_texts_toResult (items : list RawItem) :
  nonempty_texts (map toResult_item items) = raw_texts items.
Proof.
  induction items as [|item rest IH]; simpl; [reflexivity|].
  destruct (bool_decide (raw_type item = Some "image")); simpl; [exact IH|].
  destruct (raw_text item) as [s|]; [|exact IH].
  destruct (String.eqb s EmptyString); [exact IH | by rewrite IH].
Qed.

(** X1: [toResult] turns every item whose type is not exactly 'image' into a
    text item, a missing or unknown type included.  So the text content that
    [execute] extracts from a converted response is the newline-joined
    non-empty texts of all the raw items that are not images, in order; the
    text of an image item is never part of it. *)
Theorem toResult_text_content (raw : RawResult) :
  textContent (toResult raw)
  = String.concat newline (raw_texts (default [] (raw_content raw))).
Proof.
  rewrite textContent_nonempty_texts. unfold items_of, toResult. simpl.
  destruct (raw_content raw) as [items|]; simpl; [|reflexivity].
  by rewrite nonempty_texts_toResult.
Qed.

(** X2: a raw response counts as an error only when its flag is the boolean
    true.  Then the result of normalizing the converted response carries the
    text content as error message; with a missing flag or false it carries
    no error and a payload that is not empty. *)
Theorem toResult_error_flag (raw : RawResult) :
  match raw_isError raw with
  | Some true =>
      normalize (toResult raw)
      = failure (String.concat newline (raw_texts (default [] (raw_content raw))))
  | _ =>
      error (normalize (toResult raw)) = None
      /\ llmContent (normalize (toResult raw)) <> EmptyString
      /\ returnDisplay (normalize (toResult raw))
         = llmContent (normalize (toResult raw))
  end.
Proof.
  pose proof (toResult_text_content raw) as Htext.
  assert (Hne : forall s, or_else s "Tool executed successfully." <> EmptyString).
  { intros s. unfold or_else. destruct (String.eqb_spec s EmptyString); [done|].
    done. }
  unfold normalize.
  destruct (raw_isError raw) as [[]|] eqn:Hflag;
    unfold toResult at 1; simpl; rewrite Hflag; simpl.
  - by rewrite Htext.
  - repeat split. apply Hne.
  - repeat split. apply Hne.
Qed.

(** ** Handing out the client (browserManager.ts, [getRawMcpClient]) *)

(** What [getRawMcpClient] returns, by the state of the manager. *)
Lemma run_getRawMcpClient (env : Env) (w : World) (this : nat) :
  match rawMcpClient (manager_of w this) with
  | Some c => run env (getRawMcpClient this) w = (Returned c, w)
  | None =>
      exists w' : World,
        run env (getRawMcpClient this) w
        = (match attempt_result env w (config (manager_of w this)) with
           | Returned _ => Returned (next_ref w)
           | Raised e => Raised e
           end, w')
  end.
Proof.
  destruct (rawMcpClient (manager_of w this)) as [c|] eqn:Hc.
  - unfold getRawMcpClient. rewrite run_bind, run_do. cbn [exec fst snd].
    by rewrite Hc.
  - destruct (ensureConnection_attempt env w this Hc)
      as (w' & Hrun & _ & Hc' & _).
    unfold getRawMcpClient. rewrite run_bind, run_do. cbn [exec fst snd].
    rewrite Hc, run_bind, run_await_call, Hrun.
    destruct (attempt_result env w (config (manager_of w this))) as [[]|e].
    + rewrite run_bind, run_do. cbn [exec fst snd].
      rewrite manager_of_after_tick, Hc'. eexists. reflexivity.
    + eexists. reflexivity.
Qed.

(** ** After a failed attempt (browserManager.ts, [connectMcp]) *)

(** An attempt that throws has not stored any tool list. *)
Lemma ensureConnection_failure_keeps_tools (env : Env) (w : World) (this : nat)
    (e : JsThrown) :
  rawMcpClient (manager_of w this) = None ->
  (run env (ensureConnection this) w).1 = Raised e ->
  discoveredTools (manager_of (run env (ensureConnection this) w).2 this)
  = discoveredTools (manager_of w this).
Proof.
  intros Hc. unfold ensureConnection. simpl. rewrite Hc.
  rewrite run_await_call. unfold connectMcp. simpl. norm.
  rewrite <- !app_assoc. simpl.
  settle_next.
  destruct s as [[]|e']; simpl.
  - norm. rewrite Hmgr. norm. rewrite Htrace, Hnext. rewrite <- !app_assoc. simpl.
    settle_next.
    destruct s as [tools|e']; simpl; norm.
    + settle_next. simpl. discriminate.
    + settle_next. simpl. intros _. norm.
      rewrite Hmgr1. norm. rewrite Hmgr0. norm. rewrite Hmgr. by norm.
  - intros _. norm. rewrite Hmgr. by norm.
Qed.

(** X4: a connection attempt that throws leaves its client and transport in
    the manager.  From then on the manager looks connected: every later
    [ensureConnection] returns at once without another attempt,
    [getRawMcpClient] hands out the client of the failed attempt, and
    [getDiscoveredTools] returns the tool list as it was before the attempt,
    all without any call to the SDK. *)
Theorem failed_attempt_is_not_retried (env env' : Env) (w w' : World)
    (this : nat) (e : JsThrown) :
  rawMcpClient (manager_of w this) = None ->
  run env (ensureConnection this) w = (Raised e, w') ->
  run env' (ensureConnection this) w' = (Returned tt, w')
  /\ run env' (getRawMcpClient this) w' = (Returned (next_ref w), w')
  /\ mcpTransport (manager_of w' this) = Some (S (next_ref w))
  /\ (run env' (getDiscoveredTools this) w').1
     = Returned (discoveredTools (manager_of w this))
  /\ trace (run env' (getDiscoveredTools this) w').2 = trace w'.
Proof.
  intros Hc Hrun.
  destruct (ensureConnection_attempt env w this Hc)
    as (w1 & Hrun1 & _ & Hc1 & Ht1 & _).
  rewrite Hrun in Hrun1. injection Hrun1 as _ <-.
  pose proof (ensureConnection_failure_keeps_tools env w this e Hc) as Htools.
  rewrite Hrun in Htools. specialize (Htools eq_refl). simpl in Htools.
  destruct (ensureConnection_connected env' w' this _ Hc1) as [Hens _].
  pose proof (run_getRawMcpClient env' w' this) as Hget.
  rewrite Hc1 in Hget.
  rewrite (run_getDiscoveredTools_connected env' w' this _ Hc1).
  simpl. rewrite Htools, trace_after_tick. done.
Qed.

Lemma failed_attempt_is_not_retried_witness :
  run (env_const [click_tool] raw_ok) (ensureConnection 0)
      (run (env_reject (JsError "spawn npx ENOENT") raw_ok)
           (ensureConnection 0) fresh_world).2
  = (Returned tt,
     (run (env_reject (JsError "spawn npx ENOENT") raw_ok)
          (ensureConnection 0) fresh_world).2)
  /\ (run (env_const [click_tool] raw_ok) (getDiscoveredTools 0)
          (run (env_reject (JsError "spawn npx ENOENT") raw_ok)
               (ensureConnection 0) fresh_world).2).1
     = Returned [].
Proof.
  destruct (failed_attempt_is_not_retried
              (env_reject (JsError "spawn npx ENOENT") raw_ok)
              (env_const [click_tool] raw_ok) fresh_world
              (run (env_reject (JsError "spawn npx ENOENT") raw_ok)
                   (ensureConnection 0) fresh_world).2
              0 (JsError "spawn npx ENOENT"))
    as (H1 & _ & _ & H2 & _).
  - reflexivity.
  - vm_compute. reflexivity.
  - exact (conj H1 H2).
Defined.

(** ** Discovery (browserManager.ts, [discoverTools]) *)

(** X5: without a client [discoverTools] throws 'MCP client not connected'
    and calls nothing.  With a client it issues one listing; when the
    listing is rejected it throws the rejection and the stored tool list is
    what it was; when the listing is fulfilled the stored list is replaced by
    the answer as a whole, whatever it held before, and the discovery is
    logged. *)
Theorem discoverTools_outcome (env : Env) (w : World) (this : nat) :
  match rawMcpClient (manager_of w this) with
  | None =>
      run env (discoverTools this) w
      = (Raised (JsError "MCP client not connected"), w)
  | Some c =>
      match outcome (env (trace w ++ [EvListTools (next_ref w) c]) TTools
                         (WPromise {| pid := next_ref w |})) with
      | Rejected e =>
          exists w' : World,
            run env (discoverTools this) w = (Raised e, w')
            /\ manager_of w' this = manager_of w this
            /\ trace w' = trace w ++ [EvListTools (next_ref w) c]
      | Fulfilled tools =>
          exists w' : World,
            run env (discoverTools this) w = (Returned tt, w')
            /\ manager_of w' this = with_tools tools (manager_of w this)
            /\ trace w'
               = trace w
                 ++ [EvListTools (next_ref w) c;
                     EvLog ("Discovered " +:+ pretty (length tools)
                            +:+ " tools from chrome-devtools-mcp: "
                            +:+ String.concat ", " (map mcp_name tools))]
      end
  end.
Proof.
  unfold discoverTools. simpl.
  destruct (rawMcpClient (manager_of w this)) as [c|] eqn:Hc; simpl; [|done].
  norm. settle_next. rewrite <- Hout.
  destruct s as [tools|e]; simpl; norm.
  - eexists. split; [reflexivity|]. norm. rewrite Hmgr. norm.
    rewrite Htrace, <- app_assoc. done.
  - eexists. split; [reflexivity|]. rewrite Hmgr. by norm.
Qed.

(** ** What [callTool] sends (browserManager.ts, [callTool]) *)

Lemma discoverTools_plain (this : nat) :
  all_cmds (fun R c => plain c) (discoverTools this).
Proof. unfold discoverTools. cmds. Qed.

Lemma connectMcp_plain (this : nat) :
  all_cmds (fun R c => plain c) (connectMcp this).
Proof. unfold connectMcp. cmds; try apply discoverTools_plain. Qed.

Lemma ensureConnection_plain (this : nat) :
  all_cmds (fun R c => plain c) (ensureConnection this).
Proof. unfold ensureConnection. cmds; try apply connectMcp_plain. Qed.


Lemma exec_plain_trace {R : Type} (c : Cmd R) (w : World) :
  plain c ->
  exists new : list Event,
    trace (exec c w).2 = trace w ++ new /\ forallb connection_event new = true.
Proof.
  destruct c; simpl; try tauto; intros _; autorewrite with world;
    first [ by exists [] ; rewrite app_nil_r | by eexists [_] ].
Qed.

(** A run of plain commands adds only events of a connection attempt. *)
Lemma run_plain_trace {A : Type} (env : Env) (p : Prog A) (w : World) :
  all_cmds (fun R c => plain c) p ->
  exists new : list Event,
    trace (run env p w).2 = trace w ++ new
    /\ forallb connection_event new = true.
Proof.
  intros Hp.
  apply (run_invariant (fun R c => plain c)
           (fun w' => exists new : list Event,
                        trace w' = trace w ++ new
                        /\ forallb connection_event new = true));
    try done.
  - intros R c w0 Hc (new & Hnew & Hall).
    destruct (exec_plain_trace c w0 Hc) as (new' & -> & Hall').
    exists (new ++ new'). rewrite Hnew, app_assoc. split; [done|].
    rewrite forallb_app, Hall, Hall'. done.
  - intros t wt a w0 H.
    by destruct (deliver_frame wt a w0) as (_ & _ & _ & ->).
  - exists []. by rewrite app_nil_r.
Qed.

Lemma connection_events_no_call (new : list Event) :
  forallb connection_event new = true -> count is_call_tool new = 0.
Proof.
  unfold count. induction new as [|e new IH]; simpl; [done|].
  intros [He Hnew]%andb_true_iff. destruct e; simpl in *; try done; auto.
Qed.

(** X7: when the manager holds no client and the connection attempt throws,
    [callTool] throws what the attempt threw and sends no tool call.  The
    next [callTool] on that manager does not connect again: its only call to
    the SDK is the tool call, sent to the client that the failed attempt
    created. *)
Theorem callTool_connection_failure (env env' : Env) (w : World) (this : nat)
    (toolName toolName' : string) (args args' : Json) (e : JsThrown) :
  rawMcpClient (manager_of w this) = None ->
  (run env (ensureConnection this) w).1 = Raised e ->
  let failed := run env (callTool this toolName args None) w in
  failed.1 = Raised e
  /\ count is_call_tool (trace failed.2) = count is_call_tool (trace w)
  /\ trace (run env' (callTool this toolName' args' None) failed.2).2
     = trace failed.2
       ++ [EvCallTool (next_ref failed.2) (next_ref w) toolName' args' 60000].
Proof.
  intros Hc Hfail.
  destruct (ensureConnection_attempt env w this Hc)
    as (w1 & Hrun & _ & Hc1 & _).
  rewrite Hrun in Hfail. simpl in Hfail.
  assert (Hget : run env (getRawMcpClient this) w = (Raised e, after_tick env w1)).
  { unfold getRawMcpClient. rewrite run_bind, run_do. cbn [exec fst snd].
    rewrite Hc, run_bind, run_await_call, Hrun, Hfail. reflexivity. }
  assert (Hcall : run env (callTool this toolName args None) w
                  = (Raised e, after_tick env (after_tick env w1))).
  { unfold callTool. rewrite run_bind. simpl run at 1. cbv iota beta.
    rewrite run_bind, run_await_call, Hget. reflexivity. }
  cbv zeta. rewrite Hcall. cbn [fst snd].
  split; [reflexivity|]. split.
  - rewrite !trace_after_tick.
    destruct (run_plain_trace env (ensureConnection this) w
                (ensureConnection_plain this)) as (new & Hnew & Hall).
    rewrite Hrun in Hnew. simpl in Hnew.
    rewrite Hnew, count_app, (connection_events_no_call new Hall). lia.
  - set (w2 := after_tick env (after_tick env w1)).
    assert (Hc2 : rawMcpClient (manager_of w2 this) = Some (next_ref w)).
    { unfold w2. by rewrite !manager_of_after_tick. }
    pose proof (run_getRawMcpClient env' w2 this) as Hget2. rewrite Hc2 in Hget2.
    unfold callTool. rewrite run_bind. simpl run at 1. cbv iota beta.
    rewrite run_bind, run_await_call, Hget2.
    rewrite run_bind, run_do. cbn [exec fst snd]. simpl.
    match goal with
    | |- context [deliver ?wt ?a ?w3] =>
        destruct (deliver_frame wt a w3) as (_ & _ & _ & Htr);
        destruct (deliver wt a w3) as [[raw|e'] w4]
    end; simpl in *; rewrite Htr; norm; reflexivity.
Qed.

Lemma callTool_connection_failure_witness :
  (run (env_reject (JsError "spawn npx ENOENT") raw_ok)
       (callTool 0 "click" (JObj []) None) fresh_world).1
  = Raised (JsError "spawn npx ENOENT").
Proof.
  refine (proj1 (callTool_connection_failure
                   (env_reject (JsError "spawn npx ENOENT") raw_ok)
                   (env_const [] raw_ok) fresh_world 0
                   "click" "click" (JObj []) (JObj [])
                   (JsError "spawn npx ENOENT") _ _)).
  - reflexivity.
  - vm_compute. reflexivity.
Defined.

(** ** From [build] to the request (mcpToolWrapper.ts, [build], [execute]) *)

(** [callTool] with a signal on a manager that holds a client: one request,
    the listener, the race, the listener removed. *)
Lemma run_callTool_connected (env : Env) (w : World) (this c sig : nat)
    (toolName : string) (args : Json) :
  rawMcpClient (manager_of w this) = Some c ->
  aborted (signal_of w sig) = false ->
  let request := EvCallTool (next_ref w) c toolName args MCP_TIMEOUT_MS in
  let armed :=
    emit (EvAddAbortListener sig) (emit request (bump (after_tick env w))) in
  let race := WRace {| pid := next_ref w |} sig operation_cancelled in
  let settled := deliver race (env (trace armed) TRaw race) armed in
  run env (callTool this toolName args (Some sig)) w
  = (match settled.1 with
     | Fulfilled raw => Returned (toResult raw)
     | Rejected e => Raised e
     end,
     emit (EvRemoveAbortListener sig) settled.2).
Proof.
  intros Hc Hsig. cbv zeta.
  pose proof (run_getRawMcpClient env w this) as Hget. rewrite Hc in Hget.
  unfold callTool. rewrite run_bind, run_bind, run_do. cbn [exec fst snd].
  rewrite Hsig. cbn [run].
  rewrite run_bind, run_await_call, Hget.
  rewrite run_bind, run_do. cbn [exec fst snd].
  rewrite run_try_finally, run_bind, run_do. cbn [exec fst snd].
  rewrite next_ref_after_tick.
  cbn [bind run].
  destruct (deliver _ _ _) as [[raw|e] w2]; reflexivity.
Qed.

(** X8: executing the invocation that a wrapped tool builds for [params], on
    a connected manager and with a signal that is not aborted: when the
    remote answers [raw] before any abort, exactly one request goes to the
    client of the tool's own manager, with the name of the tool, [params]
    unchanged and the timeout of 60000 ms; the abort listener is added and
    removed once; the result is the normalized conversion of [raw]. *)
Theorem build_execute_dispatch (env : Env) (w : World) (t : McpDeclarativeTool)
    (params : Json) (sig c : nat) (raw : RawResult) :
  rawMcpClient (manager_of w (browserManager t)) = Some c ->
  aborted (signal_of w sig) = false ->
  env (trace w ++ [EvCallTool (next_ref w) c (name t) params 60000;
                   EvAddAbortListener sig])
      TRaw (WRace {| pid := next_ref w |} sig operation_cancelled)
    = Settles (Fulfilled (t := TRaw) raw) ->
  (run env (execute (build t params) sig) w).1
    = Returned (normalize (toResult raw))
  /\ trace (run env (execute (build t params) sig) w).2
     = trace w ++ [EvCallTool (next_ref w) c (name t) params 60000;
                   EvAddAbortListener sig; EvRemoveAbortListener sig].
Proof.
  intros Hc Hsig Hraw.
  rewrite run_execute, run_await_call. cbn [build inv_browserManager
    inv_toolName inv_params].
  rewrite (run_callTool_connected env w (browserManager t) c sig _ _ Hc Hsig).
  cbv zeta. norm. rewrite <- !app_assoc. cbn [app].
  unfold MCP_TIMEOUT_MS. rewrite Hraw. simpl. norm.
  rewrite <- !app_assoc. done.
Qed.

Lemma build_execute_dispatch_witness :
  (run (env_const [] raw_ok) (execute (build click_tool_object (JObj [])) 0)
       connected_world).1
  = Returned (normalize (toResult raw_ok)).
Proof.
  refine (proj1 (build_execute_dispatch (env_const [] raw_ok) connected_world
                   click_tool_object (JObj []) 0 1 raw_ok _ _ _));
    reflexivity.
Defined.

(** X9: executing an invocation with a signal that is already aborted
    returns a failure and does not throw; its message is the message of the
    abort reason, or 'Operation cancelled' when the signal carries no reason.
    The only effect is the error line of the log: no connection is started
    and no request is sent, also on a manager that holds no client. *)
Theorem execute_pre_aborted (env : Env) (w : World) (inv : McpToolInvocation)
    (sig : nat) :
  aborted (signal_of w sig) = true ->
  let msg := error_message (operation_cancelled (reason (signal_of w sig))) in
  (run env (execute inv sig) w).1 = Returned (failure msg)
  /\ trace (run env (execute inv sig) w).2
     = trace w ++ [EvLogError ("MCP tool " +:+ inv_toolName inv +:+ " failed: "
                               +:+ msg)].
Proof.
  intros Hsig. cbv zeta.
  rewrite run_execute, run_await_call.
  unfold callTool. rewrite run_bind, run_bind, run_do. cbn [exec fst snd].
  rewrite Hsig. cbn [run fst snd]. norm. done.
Qed.

Lemma execute_pre_aborted_witness :
  (run (env_const [] raw_ok) (execute click_invocation 0) aborted_world).1
  = Returned (failure "stop").
Proof.
  refine (proj1 (execute_pre_aborted (env_const [] raw_ok) aborted_world
                   click_invocation 0 _)).
  reflexivity.
Defined.

(** ** The calls of the factory (browserAgentFactory.ts) *)

Lemma createMcpDeclarativeTools_trace (env : Env) (w : World) (bm bus c : nat) :
  rawMcpClient (manager_of w bm) = Some c ->
  trace (run env (createMcpDeclarativeTools bm bus) w).2
  = trace w
    ++ [EvLog ("Creating " +:+ pretty (length (discoveredTools (manager_of w bm)))
               +:+ " declarative tools for browser agent")].
Proof.
  intros Hc. unfold createMcpDeclarativeTools.
  rewrite run_bind, run_await_call.
  rewrite (run_getDiscoveredTools_connected env w bm c Hc).
  rewrite run_bind. simpl. rewrite run_map_each_wrap. cbn [snd].
  destruct (iter_bump_frame (length (discoveredTools (manager_of w bm)))
              (emit (EvLog ("Creating "
                            +:+ pretty (length (discoveredTools (manager_of w bm)))
                            +:+ " declarative tools for browser agent"))
                    (after_tick env (after_tick env w))))
    as (_ & _ & _ & ->).
  by norm.
Qed.

Lemma wrapped_from_length (bm bus r : nat) (ds : list McpTool) :
  length (wrapped_from bm bus r ds) = length ds.
Proof.
  rewrite <- (length_map name), wrapped_from_names. apply length_map.
Qed.

(** The events of a run of the factory, by the result of its attempt and
    of the call of the progress callback. *)
Lemma createBrowserAgentDefinition_trace (env : Env) (cfg : Config) (bus : nat)
    (printOutput : bool) (w : World) :
  let w0 := factory_start cfg w in
  let bm := next_ref w in
  let r := run env (createBrowserAgentDefinition cfg bus printOutput) w in
  rawMcpClient (manager_of r.2 bm) = Some (S bm)
  /\ mcpTransport (manager_of r.2 bm) = Some (S (S bm))
  /\ match attempt_result env w0 cfg with
     | Raised e =>
         r.1 = Raised e
         /\ trace r.2 = trace w0 ++ attempt_trace env w0 cfg
     | Returned _ =>
         match callback_outcome env cfg printOutput w with
         | Rejected e =>
             r.1 = Raised e
             /\ printOutput = true
             /\ trace r.2
                = trace w0 ++ attempt_trace env w0 cfg
                  ++ [EvPrintOutput
                        "Browser connected with isolated MCP client."]
         | Fulfilled _ =>
             trace r.2
             = trace w0 ++ attempt_trace env w0 cfg
               ++ (if printOutput
                   then [EvPrintOutput
                           "Browser connected with isolated MCP client."]
                   else [])
               ++ [EvLog ("Creating "
                          +:+ pretty (length (discoveredTools
                                                (manager_of r.2 bm)))
                          +:+ " declarative tools for browser agent");
                   EvLog ("Created "
                          +:+ pretty (length (discoveredTools
                                                (manager_of r.2 bm)))
                          +:+ " isolated MCP tools for browser agent: "
                          +:+ String.concat ", "
                                (map mcp_name
                                   (discoveredTools (manager_of r.2 bm))))]
         end
     end.
Proof.
  cbv zeta.
  assert (Hfresh : manager_of (factory_start cfg w) (next_ref w)
                   = new_manager cfg).
  { unfold factory_start. simpl. norm. unfold manager_of. norm.
    by rewrite lookup_insert_eq. }
  assert (Hnext : next_ref (factory_start cfg w) = S (next_ref w))
    by (unfold factory_start; simpl; by norm).
  destruct (ensureConnection_attempt env (factory_start cfg w) (next_ref w))
    as (w' & Hrun & _ & Hc & Ht & _).
  { by rewrite Hfresh. }
  pose proof (ensureConnection_attempt_trace env (factory_start cfg w)
                (next_ref w)) as Htr.
  rewrite Hfresh in Hrun, Htr. specialize (Htr eq_refl).
  change (config (new_manager cfg)) with cfg in Hrun, Htr.
  rewrite Hrun in Htr. cbn [snd] in Htr.
  rewrite Hnext in Hc, Ht.
  unfold createBrowserAgentDefinition.
  cbn [bind do]. cbn [run].
  change (exec (NewBrowserManager cfg) (exec (DebugLog _) w).2)
    with (next_ref w, factory_start cfg w).
  cbn [fst snd].
  rewrite run_bind, run_await_call, Hrun.
  destruct (attempt_result env (factory_start cfg w) cfg) as [[]|e].
  2:{ cbn [fst snd]. rewrite manager_of_after_tick, trace_after_tick. done. }
  rewrite run_bind.
  destruct (run_printOutput env printOutput (after_tick env w'))
    as (w2 & -> & Hheap2 & _ & Htrace2).
  rewrite trace_after_tick, Htr, <- app_assoc.
  rewrite heap_after_tick in Hheap2.
  rewrite trace_after_tick, Htr, <- app_assoc in Htrace2.
  assert (Hm2 : manager_of w2 (next_ref w) = manager_of w' (next_ref w))
    by (by apply manager_of_heap).
  fold (callback_outcome env cfg printOutput w).
  assert (Hgiven : forall e, callback_outcome env cfg printOutput w = Rejected e ->
                             printOutput = true).
  { intros e. unfold callback_outcome. by destruct printOutput. }
  destruct (callback_outcome env cfg printOutput w) as [[]|e].
  2:{ cbn [fst snd]. rewrite Hm2, Htrace2, (Hgiven e eq_refl). done. }
  rewrite run_bind, run_await_call.
  pose proof (createMcpDeclarativeTools_trace env w2 (next_ref w) bus
                (S (next_ref w))) as Htr3.
  destruct (run_createMcpDeclarativeTools_connected env w2 (next_ref w) bus
              (S (next_ref w))) as (w3 & Hrun3 & Hheap3 & _).
  { by rewrite Hm2. }
  rewrite Hrun3 in Htr3 |- *. cbn [snd] in Htr3.
  rewrite Hm2 in Htr3. specialize (Htr3 Hc).
  simpl.
  set (w1 := emit _ (after_tick env w3)).
  assert (Hm1 : manager_of w1 (next_ref w) = manager_of w' (next_ref w)).
  { rewrite <- Hm2. apply manager_of_heap. unfold w1. by norm. }
  rewrite Hm1. repeat split; try done.
  rewrite trace_after_tick, Htr3, Htrace2.
  rewrite wrapped_from_names, wrapped_from_length, Hm2.
  simpl. rewrite <- !app_assoc. simpl. rewrite <- ?app_assoc. reflexivity.
Qed.

Lemma attempt_trace_counts (env : Env) (w : World) (cfg : Config) :
  transports_created (attempt_trace env w cfg) = 1
  /\ connects_issued (attempt_trace env w cfg) = 1
  /\ count is_close_call (attempt_trace env w cfg) = 0
  /\ count is_print (attempt_trace env w cfg) = 0.
Proof.
  unfold attempt_trace, discovered_log.
  destruct (connect_outcome env w cfg) as [[]|e];
    [destruct (discovery_outcome env w cfg) as [tools|e]|]; done.
Qed.

(** X10: whenever the factory throws, it has created the manager, one
    client and one transport, that is one spawned process; the manager still
    holds both and nothing has been closed; no manager is returned, so
    [cleanupBrowserAgent] cannot be called on it.  What it throws is either
    the failure of the connection attempt (the rejected connect or the
    rejected listing), and then the progress callback has not been called; or,
    after an attempt that succeeded, what the progress callback threw: the
    call of the callback is inside no [try]. *)
Theorem createBrowserAgentDefinition_failure (env : Env) (cfg : Config)
    (bus : nat) (printOutput : bool) (w : World) (e : JsThrown) :
  (run env (createBrowserAgentDefinition cfg bus printOutput) w).1 = Raised e ->
  let w1 := (run env (createBrowserAgentDefinition cfg bus printOutput) w).2 in
  rawMcpClient (manager_of w1 (next_ref w)) = Some (S (next_ref w))
  /\ mcpTransport (manager_of w1 (next_ref w)) = Some (S (S (next_ref w)))
  /\ transports_created (trace w1) = S (transports_created (trace w))
  /\ count is_close_call (trace w1) = count is_close_call (trace w)
  /\ (attempt_result env (factory_start cfg w) cfg = Raised e
      /\ count is_print (trace w1) = count is_print (trace w)
      \/ attempt_result env (factory_start cfg w) cfg = Returned tt
         /\ printOutput = true
         /\ callback_outcome env cfg printOutput w = Rejected e
         /\ count is_print (trace w1) = S (count is_print (trace w))).
Proof.
  intros Hthrow. cbv zeta.
  pose proof (createBrowserAgentDefinition_trace env cfg bus printOutput w)
    as (Hc & Ht & Htr).
  pose proof (run_createBrowserAgentDefinition env cfg bus printOutput w)
    as Hrun.
  cbv zeta in Hc, Ht, Htr.
  destruct (attempt_trace_counts env (factory_start cfg w) cfg)
    as (Hn & _ & Hclose & Hprint).
  assert (Hstart : trace (factory_start cfg w)
                   = trace w
                     ++ [EvLog "Creating browser agent definition with isolated MCP tools..."]).
  { unfold factory_start. simpl. by norm. }
  split; [exact Hc|]. split; [exact Ht|].
  unfold transports_created in *.
  destruct (attempt_result env (factory_start cfg w) cfg) as [[]|e'].
  - destruct (callback_outcome env cfg printOutput w) as [[]|e'].
    { destruct Hrun as (w1 & Hrun & _). by rewrite Hrun in Hthrow. }
    destruct Htr as (He & Hgiven & Htr). rewrite He in Hthrow.
    injection Hthrow as ->. rewrite Htr, Hstart.
    rewrite !List.filter_app, !length_app, !count_app, Hn, Hclose, Hprint.
    unfold count. simpl. split; [lia|]. split; [lia|].
    right. repeat split; try done. lia.
  - destruct Htr as [He Htr]. rewrite He in Hthrow. injection Hthrow as ->.
    rewrite Htr, Hstart.
    rewrite !List.filter_app, !length_app, !count_app, Hn, Hclose, Hprint.
    unfold count. simpl. split; [lia|]. split; [lia|].
    left. split; [done|]. lia.
Qed.

Lemma createBrowserAgentDefinition_failure_witness :
  mcpTransport
    (manager_of
       (run (env_callback_throws (JsError "stdout closed") [click_tool] raw_ok)
            (createBrowserAgentDefinition no_config 7 true) empty_world).2
       (next_ref empty_world))
  = Some (S (S (next_ref empty_world)))
  /\ count is_close_call
       (trace (run (env_callback_throws (JsError "stdout closed") [click_tool]
                      raw_ok)
                   (createBrowserAgentDefinition no_config 7 true)
                   empty_world).2)
     = count is_close_call (trace empty_world).
Proof.
  destruct (createBrowserAgentDefinition_failure
              (env_callback_throws (JsError "stdout closed") [click_tool] raw_ok)
              no_config 7 true empty_world (JsError "stdout closed"))
    as (_ & Ht & _ & Hclose & _).
  - vm_compute. reflexivity.
  - exact (conj Ht Hclose).
Defined.

(** X11: whenever the factory returns, its calls were, in this order: the
    opening log line, one client and one transport created ([npx] with the
    arguments of the configuration), one connect, one listing of the tools,
    the progress message if a callback was given, and the two closing log
    lines.  The tools are listed once: [createMcpDeclarativeTools] reads the
    list that the connection stored and does not ask again.  Nothing is
    closed and no tool is called. *)
Theorem createBrowserAgentDefinition_calls (env : Env) (cfg : Config)
    (bus : nat) (printOutput : bool) (w : World) (def : LocalAgentDefinition)
    (bm : nat) :
  (run env (createBrowserAgentDefinition cfg bus printOutput) w).1
    = Returned (def, bm) ->
  let w1 := (run env (createBrowserAgentDefinition cfg bus printOutput) w).2 in
  let tools := discoveredTools (manager_of w1 bm) in
  trace w1
  = trace w
    ++ [EvLog "Creating browser agent definition with isolated MCP tools..."]
    ++ attempt_events (factory_start cfg w) cfg
    ++ discovery_events (factory_start cfg w)
    ++ [discovered_log tools]
    ++ (if printOutput
        then [EvPrintOutput "Browser connected with isolated MCP client."]
        else [])
    ++ [EvLog ("Creating " +:+ pretty (length tools)
               +:+ " declarative tools for browser agent");
        EvLog ("Created " +:+ pretty (length tools)
               +:+ " isolated MCP tools for browser agent: "
               +:+ String.concat ", " (map mcp_name tools))].
Proof.
  intros Hret. cbv zeta.
  pose proof (createBrowserAgentDefinition_trace env cfg bus printOutput w)
    as (_ & _ & Htr).
  pose proof (run_createBrowserAgentDefinition env cfg bus printOutput w)
    as Hrun.
  cbv zeta in Htr.
  unfold attempt_result in Htr, Hrun. unfold attempt_trace in Htr.
  destruct (connect_outcome env (factory_start cfg w) cfg) as [[]|e].
  2:{ destruct Htr as [He _]. by rewrite He in Hret. }
  destruct (discovery_outcome env (factory_start cfg w) cfg) as [tools|e].
  2:{ destruct Htr as [He _]. by rewrite He in Hret. }
  destruct (callback_outcome env cfg printOutput w) as [[]|e].
  2:{ destruct Htr as [He _]. by rewrite He in Hret. }
  destruct Hrun as (w1 & Hrun & _ & _ & _ & Htools).
  rewrite Hrun in Hret, Htr |- *. cbn [fst snd] in *.
  injection Hret as _ <-.
  rewrite (Htools tools eq_refl eq_refl) in Htr |- *.
  rewrite Htr. unfold factory_start. simpl. norm.
  rewrite <- !app_assoc. reflexivity.
Qed.

Lemma createBrowserAgentDefinition_calls_witness :
  count is_list_tools
    (trace (run (env_const [click_tool; fill_tool] raw_ok)
                (createBrowserAgentDefinition no_config 7 true) empty_world).2)
  = 1.
Proof.
  rewrite (createBrowserAgentDefinition_calls
             (env_const [click_tool; fill_tool] raw_ok) no_config 7 true
             empty_world
             {| toolConfig_tools := wrapped_from 0 7 5 [click_tool; fill_tool] |}
             0).
  - vm_compute. reflexivity.
  - vm_compute. reflexivity.
Defined.

(** ** The calls of one [callTool] (browserManager.ts, [callTool]) *)

(** Past the check of the signal, [callTool] adds to the calls of
    [getRawMcpClient] one request and the listener, when it got a client. *)
Lemma run_callTool_events (env : Env) (w : World) (this : nat)
    (toolName : string) (args : Json) (signal : option nat) :
  match signal with
  | Some sig => aborted (signal_of w sig)
  | None => false
  end = false ->
  let got := run env (getRawMcpClient this) w in
  trace (run env (callTool this toolName args signal) w).2
  = trace got.2
    ++ match got.1 with
       | Returned c =>
           EvCallTool (next_ref got.2) c toolName args MCP_TIMEOUT_MS
           :: listener_events signal
       | Raised _ => []
       end.
Proof.
  intros Hsig. cbv zeta. unfold callTool.
  match goal with
  | |- context [run env (bind _ ?f) w] => set (rest := f)
  end.
  rewrite run_bind.
  assert (Hpre : run env match signal with
                         | Some sig =>
                             s <- do (ReadSignal sig) ;;
                             if aborted s
                             then Throw (operation_cancelled (reason s))
                             else Ret tt
                         | None => Ret tt
                         end%prog w = (Returned tt, w)).
  { destruct signal as [sig|]; [|reflexivity].
    rewrite run_bind, run_do. cbn [exec fst snd]. by rewrite Hsig. }
  rewrite Hpre. unfold rest. rewrite run_bind, run_await_call.
  destruct (run env (getRawMcpClient this) w) as [[c|e] w1]; cbn [fst snd].
  2:{ by rewrite trace_after_tick, app_nil_r. }
  rewrite run_bind, run_do. cbn [exec fst snd].
  rewrite next_ref_after_tick.
  destruct signal as [sig|].
  - rewrite run_try_finally. rewrite run_bind, run_do. cbn [exec fst snd].
    cbn [bind run].
    match goal with
    | |- context [deliver ?wt ?a ?w2] =>
        destruct (deliver_frame wt a w2) as (_ & _ & _ & Htr);
        destruct (deliver wt a w2) as [[raw|e] w3]
    end; simpl in *; norm; rewrite Htr; norm;
      rewrite <- !app_assoc; reflexivity.
  - cbn [bind run await].
    match goal with
    | |- context [deliver ?wt ?a ?w2] =>
        destruct (deliver_frame wt a w2) as (_ & _ & _ & Htr);
        destruct (deliver wt a w2) as [[raw|e] w3]
    end; simpl in *; rewrite Htr; norm; reflexivity.
Qed.

(** With the signal aborted at call time nothing is called. *)
Lemma run_callTool_aborted (env : Env) (w : World) (this : nat)
    (toolName : string) (args : Json) (sig : nat) :
  aborted (signal_of w sig) = true ->
  run env (callTool this toolName args (Some sig)) w
  = (Raised (operation_cancelled (reason (signal_of w sig))), w).
Proof.
  intros Hsig. unfold callTool. rewrite run_bind, run_bind, run_do.
  cbn [exec fst snd]. by rewrite Hsig.
Qed.

Lemma getRawMcpClient_attempt_trace (env : Env) (w : World) (this : nat) :
  rawMcpClient (manager_of w this) = None ->
  trace (run env (getRawMcpClient this) w).2
  = trace w ++ attempt_trace env w (config (manager_of w this)).
Proof.
  intros Hc.
  pose proof (ensureConnection_attempt_trace env w this Hc) as Htr.
  unfold getRawMcpClient. rewrite run_bind, run_do. cbn [exec fst snd].
  rewrite Hc, run_bind, run_await_call.
  destruct (run env (ensureConnection this) w) as [[[]|e] w1];
    cbn [fst snd] in *.
  - rewrite run_bind, run_do. cbn [exec fst snd].
    destruct (rawMcpClient (manager_of (after_tick env w1) this));
      cbn [run snd]; by rewrite trace_after_tick.
  - by rewrite trace_after_tick.
Qed.

(** The identities taken by an attempt that succeeds. *)
Lemma getRawMcpClient_attempt_next_ref (env : Env) (w : World) (this : nat) :
  rawMcpClient (manager_of w this) = None ->
  attempt_result env w (config (manager_of w this)) = Returned tt ->
  next_ref (run env (getRawMcpClient this) w).2 = 4 + next_ref w.
Proof.
  intros Hc Hok.
  destruct (ensureConnection_attempt env w this Hc)
    as (w' & Hrun & _ & Hc' & _ & _ & _ & Hn).
  unfold getRawMcpClient. rewrite run_bind, run_do. cbn [exec fst snd].
  rewrite Hc, run_bind, run_await_call, Hrun, Hok.
  rewrite run_bind, run_do. cbn [exec fst snd].
  rewrite manager_of_after_tick, Hc'. cbn [run snd].
  rewrite next_ref_after_tick. by apply Hn.
Qed.

(** X6: the calls of one [callTool], exactly, for every environment, state
    and signal.  With the signal aborted at call time: none.  On a manager
    that holds a client: one tool call to that client, with the given name
    and arguments and the timeout of 60000 ms, and nothing before it.  On a
    manager without client: the events of one connection attempt (one client,
    one transport, one connect, and the listing if the connect is fulfilled)
    and then, if the attempt succeeded, the one tool call to the new client,
    if it failed nothing more.  When a signal was given, the tool call is
    followed by one listener added to it and one listener removed from it,
    however the race ends. *)
Theorem callTool_trace (env : Env) (w : World) (this : nat)
    (toolName : string) (args : Json) (signal : option nat) :
  trace (run env (callTool this toolName args signal) w).2
  = trace w
    ++ if match signal with
          | Some sig => aborted (signal_of w sig)
          | None => false
          end
       then []
       else
         match rawMcpClient (manager_of w this) with
         | Some c =>
             EvCallTool (next_ref w) c toolName args 60000
             :: listener_events signal
         | None =>
             attempt_trace env w (config (manager_of w this))
             ++ match attempt_result env w (config (manager_of w this)) with
                | Returned _ =>
                    EvCallTool (4 + next_ref w) (next_ref w) toolName args 60000
                    :: listener_events signal
                | Raised _ => []
                end
         end.
Proof.
  destruct (match signal with
            | Some sig => aborted (signal_of w sig)
            | None => false
            end) eqn:Hsig.
  - destruct signal as [sig|]; [|done].
    by rewrite (run_callTool_aborted env w this toolName args sig Hsig),
      app_nil_r.
  - rewrite (run_callTool_events env w this toolName args signal Hsig).
    pose proof (run_getRawMcpClient env w this) as Hget.
    destruct (rawMcpClient (manager_of w this)) as [c|] eqn:Hc.
    + by rewrite Hget.
    + rewrite (getRawMcpClient_attempt_trace env w this Hc), <- app_assoc.
      pose proof (getRawMcpClient_attempt_next_ref env w this Hc) as Hnext.
      destruct Hget as (w' & Hget). rewrite Hget in Hnext |- *.
      cbn [fst snd] in *.
      destruct (attempt_result env w (config (manager_of w this))) as [[]|e];
        [|done].
      by rewrite (Hnext eq_refl).
Qed.

(** ** The factory and the cleanup together (browserAgentFactory.ts) *)

Lemma close_log_no_close (prefix : string) (s : Settled TUnit) :
  List.filter is_close_call (close_log prefix s) = [].
Proof. by destruct s. Qed.

(** X12: cleaning up the manager that the factory returned closes exactly
    what the factory created: first the client, then the transport, each
    once, whatever the two close calls answer; the cleanup returns, and the
    manager then holds no client, no transport and no tools. *)
Theorem cleanup_closes_what_the_factory_created (env env' : Env) (cfg : Config)
    (bus : nat) (printOutput : bool) (w : World) (def : LocalAgentDefinition)
    (bm : nat) :
  (run env (createBrowserAgentDefinition cfg bus printOutput) w).1
    = Returned (def, bm) ->
  let w1 := (run env (createBrowserAgentDefinition cfg bus printOutput) w).2 in
  let cleaned := run env' (cleanupBrowserAgent bm) w1 in
  cleaned.1 = Returned tt
  /\ List.filter is_close_call (trace cleaned.2)
     = List.filter is_close_call (trace w1)
       ++ [EvClientClose (next_ref w1) (S bm);
           EvTransportClose (S (next_ref w1)) (S (S bm))]
  /\ rawMcpClient (manager_of cleaned.2 bm) = None
  /\ mcpTransport (manager_of cleaned.2 bm) = None
  /\ discoveredTools (manager_of cleaned.2 bm) = [].
Proof.
  intros Hret. cbv zeta.
  destruct (run env (createBrowserAgentDefinition cfg bus printOutput) w)
    as [r w1] eqn:Hrun. cbn [fst snd] in *. subst r.
  destruct (createBrowserAgentDefinition_returned env cfg bus printOutput w w1
              def bm Hrun) as (_ & _ & Hc & Ht & _).
  pose proof (close_trace env' w1 bm _ _ Hc Ht) as Htr. cbv zeta in Htr.
  destruct (close_clears env' w1 bm) as (w2 & Hclose & Hheap & _).
  unfold cleanupBrowserAgent. rewrite run_cleanupWith, Hclose.
  rewrite Hclose in Htr. cbn [fst snd] in *.
  split; [reflexivity|]. split.
  - rewrite trace_emit, trace_after_tick, Htr.
    rewrite !List.filter_app. simpl.
    rewrite ?List.filter_app, ?close_log_no_close. simpl.
    by rewrite !app_nil_r, <- app_assoc.
  - assert (Hm : manager_of (emit (EvLog "Browser agent cleanup complete")
                               (after_tick env' w2)) bm
                 = new_manager (config (manager_of w1 bm))).
    { unfold manager_of at 1. norm. by rewrite Hheap. }
    by rewrite Hm.
Qed.

Lemma cleanup_closes_what_the_factory_created_witness :
  (run (env_const [] raw_ok) (cleanupBrowserAgent 0)
       (run (env_const [click_tool] raw_ok)
            (createBrowserAgentDefinition no_config 7 false) empty_world).2).1
  = Returned tt.
Proof.
  refine (proj1 (cleanup_closes_what_the_factory_created
                   (env_const [click_tool] raw_ok) (env_const [] raw_ok)
                   no_config 7 false empty_world
                   {| toolConfig_tools := wrapped_from 0 7 5 [click_tool] |}
                   0 _)).
  vm_compute. reflexivity.
Defined.

(** ** A tool used after the cleanup (mcpToolWrapper.ts, [execute]) *)

(** X3: [getRawMcpClient] hands out the client that the manager holds,
    without any effect; when the manager holds none it runs one connection
    attempt, whose events are its only calls, and returns the client of that
    attempt, or throws what the attempt threw.  Its own error 'Failed to
    initialize chrome-devtools MCP client' is never what it throws: after an
    attempt that returned, the client is always there. *)
Theorem getRawMcpClient_outcome (env : Env) (w : World) (this : nat) :
  match rawMcpClient (manager_of w this) with
  | Some c => run env (getRawMcpClient this) w = (Returned c, w)
  | None =>
      (run env (getRawMcpClient this) w).1
      = match attempt_result env w (config (manager_of w this)) with
        | Returned _ => Returned (next_ref w)
        | Raised e => Raised e
        end
      /\ trace (run env (getRawMcpClient this) w).2
         = trace w ++ attempt_trace env w (config (manager_of w this))
  end.
Proof.
  pose proof (run_getRawMcpClient env w this) as Hrun.
  pose proof (getRawMcpClient_attempt_trace env w this) as Htrace.
  destruct (rawMcpClient (manager_of w this)) as [c|]; [exact Hrun|].
  destruct Hrun as (w' & Hrun). rewrite Hrun in Htrace |- *.
  split; [reflexivity|]. by apply Htrace.
Qed.

(** X13: the wrapped tools stay usable after the cleanup, and using one
    starts the browser again.  After [cleanupBrowserAgent] on the manager of
    a tool, executing an invocation of that tool with a signal that is not
    aborted creates one new transport, that is spawns one new process, and
    issues one new connect, whatever the environment answers. *)
Theorem execute_after_cleanup_relaunches (env env' : Env) (w : World)
    (t : McpDeclarativeTool) (params : Json) (sig : nat) :
  let w1 := (run env (cleanupBrowserAgent (browserManager t)) w).2 in
  aborted (signal_of w1 sig) = false ->
  let w2 := (run env' (execute (build t params) sig) w1).2 in
  transports_created (trace w2) = S (transports_created (trace w1))
  /\ connects_issued (trace w2) = S (connects_issued (trace w1)).
Proof.
  cbv zeta.
  destruct (close_clears env w (browserManager t)) as (w0 & Hclose & Hheap & _).
  unfold cleanupBrowserAgent. rewrite run_cleanupWith, Hclose. cbn [snd].
  set (w1 := emit _ (after_tick env w0)).
  assert (Hc : rawMcpClient (manager_of w1 (browserManager t)) = None).
  { unfold manager_of, w1. norm. by rewrite Hheap. }
  intros Hsig.
  pose proof (run_callTool_events env' w1 (browserManager t) (name t) params
                (Some sig) Hsig) as Hcall.
  cbv zeta in Hcall.
  rewrite (getRawMcpClient_attempt_trace env' w1 _ Hc) in Hcall.
  destruct (attempt_trace_counts env' w1
              (config (manager_of w1 (browserManager t))))
    as (Hn & Hk & _).
  rewrite run_execute, run_await_call.
  cbn [build inv_browserManager inv_toolName inv_params].
  destruct (run env' (callTool (browserManager t) (name t) params (Some sig)) w1)
    as [[result|e] w2]; cbn [fst snd] in *;
    rewrite ?trace_emit, trace_after_tick, Hcall;
    unfold transports_created, connects_issued in *;
    rewrite !List.filter_app, !length_app, Hn, Hk;
    destruct (run env' (getRawMcpClient (browserManager t)) w1).1;
    simpl; lia.
Qed.

Lemma execute_after_cleanup_relaunches_witness :
  transports_created
    (trace (run (env_const [] raw_ok) (execute (build click_tool_object (JObj [])) 0)
                (run (env_const [] raw_ok) (cleanupBrowserAgent 0)
                     connected_world).2).2)
  = 1.
Proof.
  refine (proj1 (execute_after_cleanup_relaunches
                   (env_const [] raw_ok) (env_const [] raw_ok) connected_world
                   click_tool_object (JObj []) 0 _)).
  reflexivity.
Defined.

(** ** Reading the tool list (browserManager.ts, [getDiscoveredTools]) *)

(** X14: on a manager that holds a client [getDiscoveredTools] returns the
    stored list as it is and calls nothing: the list is never refreshed.  On
    a manager without client it runs one connection attempt and returns
    exactly what the listing of that attempt answered, or throws what the
    connect or the listing was rejected with. *)
Theorem getDiscoveredTools_outcome (env : Env) (w : World) (this : nat) :
  match rawMcpClient (manager_of w this) with
  | Some _ =>
      (run env (getDiscoveredTools this) w).1
        = Returned (discoveredTools (manager_of w this))
      /\ trace (run env (getDiscoveredTools this) w).2 = trace w
  | None =>
      (run env (getDiscoveredTools this) w).1
      = match connect_outcome env w (config (manager_of w this)) with
        | Rejected e => Raised e
        | Fulfilled _ =>
            match discovery_outcome env w (config (manager_of w this)) with
            | Rejected e => Raised e
            | Fulfilled tools => Returned tools
            end
        end
  end.
Proof.
  destruct (rawMcpClient (manager_of w this)) as [c|] eqn:Hc.
  - rewrite (run_getDiscoveredTools_connected env w this c Hc).
    split; [reflexivity|]. apply trace_after_tick.
  - destruct (ensureConnection_attempt env w this Hc)
      as (w' & Hrun & _ & _ & _ & _ & Htools & _).
    unfold getDiscoveredTools. rewrite run_bind, run_await_call, Hrun.
    unfold attempt_result in *.
    destruct (connect_outcome env w (config (manager_of w this))) as [[]|e];
      [|reflexivity].
    destruct (discovery_outcome env w (config (manager_of w this)))
      as [tools|e]; [|reflexivity].
    rewrite run_bind, run_do. cbn [exec fst snd run].
    by rewrite manager_of_after_tick, (Htools tools eq_refl eq_refl).
Qed.

(** ** The wrapped operation never throws (mcpToolWrapper.ts, [execute]) *)

Lemma try_catch_returns_only {A : Type} (p : Prog A) (h : JsThrown -> Prog A) :
  (forall e, returns_only (h e)) -> returns_only (try_catch p h).
Proof.
  intros Hh. induction p as [a|e|R c k IH|t wt k IH]; simpl; auto.
Qed.

(** [callTool] with a signal that is not aborted, on a manager without
    client whose connection attempt fails, throws the failure. *)
Lemma run_callTool_attempt_fails (env : Env) (w : World) (this sig : nat)
    (toolName : string) (args : Json) (e : JsThrown) :
  rawMcpClient (manager_of w this) = None ->
  aborted (signal_of w sig) = false ->
  attempt_result env w (config (manager_of w this)) = Raised e ->
  (run env (callTool this toolName args (Some sig)) w).1 = Raised e.
Proof.
  intros Hc Hsig Hfail.
  pose proof (run_getRawMcpClient env w this) as Hget.
  rewrite Hc, Hfail in Hget. destruct Hget as (w' & Hget).
  unfold callTool. rewrite run_bind, run_bind, run_do. cbn [exec fst snd].
  rewrite Hsig. cbn [run].
  by rewrite run_bind, run_await_call, Hget.
Qed.

(** C10: for every environment, world, invocation and signal, [execute]
    returns a result and no path through it ends in a throw, whichever way
    its suspensions are resumed.  When [callTool] returns, the result is the
    normalized response.  When [callTool] throws an Error, the result is the
    failure whose error message is the message of that Error, with "Error: "
    before it in the display text, and when it throws another value, the
    failure with the string of that value; the failure is logged.  So it is
    for the three causes: with the signal aborted at call time the message
    is that of the abort reason, or 'Operation cancelled' without a reason;
    when the SDK rejects the tool call, as its timeout does, the message is
    that of the rejection; when the manager has to connect and the attempt
    fails, the message is that of the failed connect or listing.  The result
    carries no tag that tells a cancellation from another failure. *)
Theorem execute_total (env : Env) (inv : McpToolInvocation) (sig : nat)
    (w : World) :
  let this := inv_browserManager inv in
  let call :=
    run env (await_call (callTool this (inv_toolName inv) (inv_params inv)
                                  (Some sig))) w in
  let failed (m : string) : ToolResult :=
    {| llmContent := "Error: " +:+ m;
       returnDisplay := "Error: " +:+ m;
       error := Some {| message := m |} |} in
  let logged (m : string) : Event :=
    EvLogError ("MCP tool " +:+ inv_toolName inv +:+ " failed: " +:+ m) in
  (exists (r : ToolResult) (w' : World),
     run env (execute inv sig) w = (Returned r, w'))
  /\ returns_only (execute inv sig)
  /\ (forall (result : McpToolCallResult) (w1 : World),
        call = (Returned result, w1) ->
        run env (execute inv sig) w = (Returned (normalize result), w1))
  /\ (forall (m : string) (w1 : World),
        call = (Raised (JsError m), w1) ->
        run env (execute inv sig) w
        = (Returned (failed m), emit (logged m) w1))
  /\ (forall (s : string) (w1 : World),
        call = (Raised (JsOther s), w1) ->
        run env (execute inv sig) w
        = (Returned (failed s), emit (logged s) w1))
  /\ (aborted (signal_of w sig) = true ->
      (run env (execute inv sig) w).1
      = Returned (failed match reason (signal_of w sig) with
                         | Some (JsError m) => m
                         | Some (JsOther s) => s
                         | None => "Operation cancelled"
                         end))
  /\ (forall (c : nat) (m : string),
        rawMcpClient (manager_of w this) = Some c ->
        aborted (signal_of w sig) = false ->
        env (trace w ++ [EvCallTool (next_ref w) c (inv_toolName inv)
                           (inv_params inv) 60000;
                         EvAddAbortListener sig])
            TRaw (WRace {| pid := next_ref w |} sig operation_cancelled)
          = Settles (Rejected (JsError m)) ->
        (run env (execute inv sig) w).1 = Returned (failed m))
  /\ (forall m : string,
        rawMcpClient (manager_of w this) = None ->
        aborted (signal_of w sig) = false ->
        attempt_result env w (config (manager_of w this)) = Raised (JsError m) ->
        (run env (execute inv sig) w).1 = Returned (failed m)).
Proof.
  cbv zeta. rewrite !run_execute.
  split; [|split; [|split; [|split; [|split; [|split; [|split]]]]]].
  - destruct (run env (await_call _) w) as [[result|e] w1]; eauto.
  - apply try_catch_returns_only. intros e. simpl. done.
  - by intros result w1 ->.
  - by intros m w1 ->.
  - by intros s w1 ->.
  - intros Hsig. rewrite run_await_call.
    rewrite (run_callTool_aborted env w _ _ _ sig Hsig).
    by destruct (reason (signal_of w sig)) as [[m|s]|].
  - intros c m Hc Hsig Hrej. rewrite run_await_call.
    rewrite (run_callTool_connected env w _ c sig _ _ Hc Hsig).
    cbv zeta. norm. rewrite <- !app_assoc. cbn [app].
    unfold MCP_TIMEOUT_MS. rewrite Hrej. reflexivity.
  - intros m Hc Hsig Hfail. rewrite run_await_call.
    pose proof (run_callTool_attempt_fails env w _ sig (inv_toolName inv)
                  (inv_params inv) _ Hc Hsig Hfail) as Hcall.
    destruct (run env (callTool _ _ _ _) w) as [r w1]. cbn [fst] in Hcall.
    by subst r.
Qed.

Lemma execute_total_witness :
  (run (env_const [] raw_ok) (execute click_invocation 0) aborted_world).1
  = Returned (failure "stop")
  /\ (run (env_call_rejects (JsError "Request timed out"))
          (execute click_invocation 0) connected_world).1
     = Returned (failure "Request timed out")
  /\ (run (env_reject (JsError "spawn npx ENOENT") raw_ok)
          (execute click_invocation 0) fresh_world).1
     = Returned (failure "spawn npx ENOENT").
Proof.
  split; [|split].
  - destruct (execute_total (env_const [] raw_ok) click_invocation 0
                aborted_world) as (_ & _ & _ & _ & _ & H & _).
    exact (H eq_refl).
  - destruct (execute_total (env_call_rejects (JsError "Request timed out"))
                click_invocation 0 connected_world)
      as (_ & _ & _ & _ & _ & _ & H & _).
    exact (H 1 "Request timed out" eq_refl eq_refl eq_refl).
  - destruct (execute_total (env_reject (JsError "spawn npx ENOENT") raw_ok)
                click_invocation 0 fresh_world)
      as (_ & _ & _ & _ & _ & _ & _ & H).
    apply (H "spawn npx ENOENT"); [reflexivity | reflexivity |].
    vm_compute. reflexivity.
Defined.

(** * The footer (packages/cli/src/config/footerItems.ts) *)

Lemma VALID_IDS_default (id : string) :
  id ∈ VALID_IDS <-> id ∈ DEFAULT_ORDER.
Proof. unfold VALID_IDS. rewrite elem_of_list_to_set. reflexivity. Qed.

Lemma includes_elem_of (arr : list string) (id : string) :
  includes arr id = true <-> id ∈ arr.
Proof.
  unfold includes. rewrite existsb_exists. split.
  - intros (x & Hx & Heq). apply String.eqb_eq in Heq. subst x.
    by apply list_elem_of_In.
  - intros Hin. exists id. split; [by apply list_elem_of_In|].
    apply String.eqb_refl.
Qed.

(** Decidable facts about concrete lists of ids, by evaluation. *)
Ltac decide_by_computation :=
  match goal with
  | |- ?P => apply (bool_decide_unpack P); vm_compute; exact I
  end.

Lemma deriveItemsFromLegacySettings_valid (settings : MergedSettings) :
  NoDup (deriveItemsFromLegacySettings settings)
  /\ forall id : string,
       id ∈ deriveItemsFromLegacySettings settings -> id ∈ VALID_IDS.
Proof.
  unfold deriveItemsFromLegacySettings.
  destruct (truthy_bool (hideCWD (footer (ui settings))));
    destruct (truthy_bool (hideSandboxStatus (footer (ui settings))));
    destruct (truthy_bool (hideModelInfo (footer (ui settings))));
    destruct (truthy_bool (hideContextPercentage (footer (ui settings))));
    destruct (truthy_bool (showMemoryUsage (ui settings)));
    (split; [decide_by_computation|]);
    intros id Hid; apply VALID_IDS_default;
    revert id Hid; apply Forall_forall; decide_by_computation.
Qed.

(** X15: the list derived from the legacy flags, for every setting of the
    flags: it has no duplicates and holds valid ids only, so
    [resolveFooterState] keeps all of it.  'context-remaining' is in it
    exactly when [hideContextPercentage] is not set: [hideModelInfo] removes
    'model-name' and 'quota' but not the context percentage, which then comes
    last of the derived items or before 'memory-usage'; with the model name
    shown, the percentage follows it directly. *)
Theorem deriveItemsFromLegacySettings_items (settings : MergedSettings) :
  let l := deriveItemsFromLegacySettings settings in
  let flags := footer (ui settings) in
  NoDup l
  /\ (forall id : string, id ∈ l -> id ∈ VALID_IDS)
  /\ ("context-remaining" ∈ l
      <-> truthy_bool (hideContextPercentage flags) = false)
  /\ ("model-name" ∈ l <-> truthy_bool (hideModelInfo flags) = false)
  /\ ("quota" ∈ l <-> truthy_bool (hideModelInfo flags) = false)
  /\ (truthy_bool (hideModelInfo flags) = false ->
      truthy_bool (hideContextPercentage flags) = false ->
      exists pre post : list string,
        l = pre ++ "model-name" :: "context-remaining" :: post).
Proof.
  cbv zeta.
  destruct (deriveItemsFromLegacySettings_valid settings) as [Hnodup Hvalid].
  split; [exact Hnodup|]. split; [exact Hvalid|]. clear Hnodup Hvalid.
  unfold deriveItemsFromLegacySettings.
  destruct (truthy_bool (hideCWD (footer (ui settings))));
    destruct (truthy_bool (hideSandboxStatus (footer (ui settings))));
    destruct (truthy_bool (hideModelInfo (footer (ui settings))));
    destruct (truthy_bool (hideContextPercentage (footer (ui settings))));
    destruct (truthy_bool (showMemoryUsage (ui settings)));
    (split; [split; [intros H; try reflexivity;
                     exfalso; revert H; decide_by_computation
                    |intros H; try discriminate H;
                     decide_by_computation]|]);
    (split; [split; [intros H; try reflexivity;
                     exfalso; revert H; decide_by_computation
                    |intros H; try discriminate H;
                     decide_by_computation]|]);
    (split; [split; [intros H; try reflexivity;
                     exfalso; revert H; decide_by_computation
                    |intros H; try discriminate H;
                     decide_by_computation]|]);
    intros H1 H2; try discriminate H1; try discriminate H2;
    vm_compute;
    first [ by exists [], _
          | by eexists [_], _
          | by eexists [_; _], _
          | by eexists [_; _; _], _ ].
Qed.

Lemma filter_all {A : Type} (f : A -> bool) (l : list A) :
  (forall x, In x l -> f x = true) -> List.filter f l = l.
Proof.
  induction l as [|x l IH]; simpl; [done|]. intros H.
  rewrite (H x (or_introl eq_refl)), IH; [done|]. intros y Hy. apply H. by right.
Qed.

Lemma filter_none {A : Type} (f : A -> bool) (l : list A) :
  (forall x, In x l -> f x = false) -> List.filter f l = [].
Proof.
  induction l as [|x l IH]; simpl; [done|]. intros H.
  rewrite (H x (or_introl eq_refl)), IH; [done|]. intros y Hy. apply H. by right.
Qed.

(** The ids that [resolveFooterState] takes from the settings: the
    configured items, or the derived ones, without the invalid ids. *)
Lemma resolveFooterState_unfold (settings : MergedSettings) :
  let source :=
    List.filter (fun id => bool_decide (id ∈ VALID_IDS))
      (default (deriveItemsFromLegacySettings settings)
               (items (footer (ui settings)))) in
  resolved_orderedIds (resolveFooterState settings)
  = source ++ List.filter (fun id => negb (includes source id)) DEFAULT_ORDER
  /\ resolved_selectedIds (resolveFooterState settings) = list_to_set source.
Proof. done. Qed.

(** X16: what the dialog would save right after it has opened is the list
    it was opened with, without its invalid ids: the selected ids come first
    in the order of the dialog, in their configured order, duplicates
    included.  So a configured list of valid ids is read back unchanged, and
    with no configured list the dialog reads back the list derived from the
    legacy flags. *)
Theorem resolveFooterState_round_trip (settings : MergedSettings) :
  finalItems (initial_state settings)
  = List.filter (fun id => bool_decide (id ∈ VALID_IDS))
      (default (deriveItemsFromLegacySettings settings)
               (items (footer (ui settings))))
  /\ (forall configured : list string,
        items (footer (ui settings)) = Some configured ->
        (forall id : string, id ∈ configured -> id ∈ VALID_IDS) ->
        finalItems (initial_state settings) = configured)
  /\ (items (footer (ui settings)) = None ->
      finalItems (initial_state settings)
      = deriveItemsFromLegacySettings settings).
Proof.
  assert (Hfinal : finalItems (initial_state settings)
                   = List.filter (fun id => bool_decide (id ∈ VALID_IDS))
                       (default (deriveItemsFromLegacySettings settings)
                                (items (footer (ui settings))))).
  { unfold finalItems, initial_state. cbn [orderedIds selectedIds].
    destruct (resolveFooterState_unfold settings) as [-> ->].
    set (source := List.filter _ (default _ _)).
    rewrite List.filter_app, filter_all, filter_none; [by rewrite app_nil_r| |].
    - intros id [_ Hid]%List.filter_In.
      apply bool_decide_eq_false. rewrite elem_of_list_to_set.
      intros Hin%includes_elem_of. by rewrite Hin in Hid.
    - intros id Hid. apply bool_decide_eq_true, elem_of_list_to_set.
      by apply list_elem_of_In. }
  split; [exact Hfinal|]. split.
  - intros configured Hitems Hvalid. rewrite Hfinal, Hitems. simpl.
    apply filter_all. intros id Hid%list_elem_of_In.
    by apply bool_decide_eq_true, Hvalid.
  - intros Hitems. rewrite Hfinal, Hitems. simpl.
    apply filter_all. intros id Hid%list_elem_of_In.
    apply bool_decide_eq_true.
    by apply (deriveItemsFromLegacySettings_valid settings).
Qed.

Lemma NoDup_DEFAULT_ORDER : NoDup DEFAULT_ORDER.
Proof. decide_by_computation. Qed.

Lemma resolveFooterState_ids (settings : MergedSettings) (id : string) :
  id ∈ resolved_orderedIds (resolveFooterState settings) <-> id ∈ DEFAULT_ORDER.
Proof.
  destruct (resolveFooterState_unfold settings) as [-> _].
  set (source := List.filter _ (default _ _)).
  rewrite elem_of_app, !list_elem_of_In, !List.filter_In, <- !list_elem_of_In.
  rewrite negb_true_iff, <- not_true_iff_false, includes_elem_of.
  split.
  - intros [Hsrc|[Hdef _]]; [|done].
    unfold source in Hsrc. apply list_elem_of_In, List.filter_In in Hsrc.
    destruct Hsrc as [_ Hvalid]. apply bool_decide_eq_true in Hvalid.
    by apply VALID_IDS_default.
  - intros Hdef. destruct (decide (id ∈ source)); [by left|by right].
Qed.

(** X17: the order that the dialog starts with holds exactly the ids of the
    default order: no invalid id of the settings gets in and no footer item
    is missing.  Every selected id is in it.  It is a permutation of the
    default order exactly when the valid ids of the configured list are
    free of duplicates, and always when the list is derived from the legacy
    flags; a valid id configured twice stays in the order twice. *)
Theorem resolveFooterState_order (settings : MergedSettings) :
  let r := resolveFooterState settings in
  let configured := default (deriveItemsFromLegacySettings settings)
                            (items (footer (ui settings))) in
  (forall id : string, id ∈ resolved_orderedIds r <-> id ∈ DEFAULT_ORDER)
  /\ (forall id : string,
        id ∈ resolved_selectedIds r -> id ∈ resolved_orderedIds r)
  /\ (NoDup (List.filter (fun id => bool_decide (id ∈ VALID_IDS)) configured)
      <-> resolved_orderedIds r ≡ₚ DEFAULT_ORDER)
  /\ (items (footer (ui settings)) = None ->
      resolved_orderedIds r ≡ₚ DEFAULT_ORDER).
Proof.
  cbv zeta.
  assert (Hperm : NoDup (List.filter (fun id => bool_decide (id ∈ VALID_IDS))
                           (default (deriveItemsFromLegacySettings settings)
                                    (items (footer (ui settings))))) ->
                  resolved_orderedIds (resolveFooterState settings)
                  ≡ₚ DEFAULT_ORDER).
  { intros Hnodup. apply NoDup_Permutation.
    - destruct (resolveFooterState_unfold settings) as [-> _].
      set (source := List.filter _ (default _ _)) in *.
      apply NoDup_app. split; [exact Hnodup|split].
      + intros id Hsrc Hoth.
        apply list_elem_of_In, List.filter_In in Hoth. destruct Hoth as [_ Hno].
        apply negb_true_iff, not_true_iff_false in Hno.
        by apply Hno, includes_elem_of.
      + apply NoDup_ListNoDup, List.NoDup_filter, NoDup_ListNoDup,
          NoDup_DEFAULT_ORDER.
    - apply NoDup_DEFAULT_ORDER.
    - apply resolveFooterState_ids. }
  split; [apply resolveFooterState_ids|]. split; [|split].
  - intros id. destruct (resolveFooterState_unfold settings) as [-> ->].
    rewrite elem_of_list_to_set, elem_of_app. by left.
  - split; [exact Hperm|].
    intros Hp.
    assert (Hnd : NoDup (resolved_orderedIds (resolveFooterState settings))).
    { rewrite Hp. apply NoDup_DEFAULT_ORDER. }
    destruct (resolveFooterState_unfold settings) as [Heq _].
    rewrite Heq in Hnd. apply NoDup_app in Hnd. by destruct Hnd as [Hsrc _].
  - intros Hitems. apply Hperm. rewrite Hitems. simpl.
    destruct (deriveItemsFromLegacySettings_valid settings) as [Hnd _].
    apply NoDup_ListNoDup, List.NoDup_filter, NoDup_ListNoDup, Hnd.
Qed.

(** ** The reducer of the footer dialog ([footerConfigReducer]) *)

(** X18: moving the cursor keeps it on a slot and keeps the focused item in
    the visible window.  With a window of at least one item, from a state
    whose cursor is on one of the [filteredCount + 2] slots and, when on an
    item of the list, inside the window at the scroll offset, MOVE_UP and
    MOVE_DOWN lead to such a state again, wrapping around at both ends; the
    offset never scrolls past the last full window; and MOVE_UP undoes the
    cursor step of MOVE_DOWN and conversely. *)
Theorem move_keeps_cursor_visible (filteredCount maxToShow : Z)
    (state : FooterConfigState) :
  (0 <= filteredCount)%Z -> (1 <= maxToShow)%Z ->
  cursor_visible filteredCount maxToShow state ->
  let up := footerConfigReducer state (MOVE_UP filteredCount maxToShow) in
  let down := footerConfigReducer state (MOVE_DOWN filteredCount maxToShow) in
  cursor_visible filteredCount maxToShow up
  /\ cursor_visible filteredCount maxToShow down
  /\ ((scrollOffset state <= Z.max 0 (filteredCount - maxToShow))%Z ->
      (scrollOffset up <= Z.max 0 (filteredCount - maxToShow))%Z
      /\ (scrollOffset down <= Z.max 0 (filteredCount - maxToShow))%Z)
  /\ activeIndex (footerConfigReducer down (MOVE_UP filteredCount maxToShow))
     = activeIndex state
  /\ activeIndex (footerConfigReducer up (MOVE_DOWN filteredCount maxToShow))
     = activeIndex state
  /\ orderedIds up = orderedIds state /\ selectedIds up = selectedIds state
  /\ orderedIds down = orderedIds state /\ selectedIds down = selectedIds state.
Proof.
  intros Hcount Hshow (Hactive & Hoffset & Hwindow). cbv zeta.
  unfold cursor_visible, footerConfigReducer.
  cbn [activeIndex scrollOffset orderedIds selectedIds].
  repeat match goal with
         | |- context [Z.ltb ?a ?b] => destruct (Z.ltb_spec a b)
         | |- context [Z.eqb ?a ?b] => destruct (Z.eqb_spec a b)
         | |- context [Z.leb ?a ?b] => destruct (Z.leb_spec a b)
         end; cbn [andb]; repeat split; try lia.
Qed.

Lemma move_keeps_cursor_visible_witness :
  cursor_visible 3 2
    (footerConfigReducer
       {| orderedIds := DEFAULT_ORDER; selectedIds := ∅;
          activeIndex := 1; scrollOffset := 0 |}
       (MOVE_DOWN 3 2)).
Proof.
  refine (proj1 (proj2 (move_keeps_cursor_visible 3 2
                          {| orderedIds := DEFAULT_ORDER; selectedIds := ∅;
                             activeIndex := 1; scrollOffset := 0 |} _ _ _)));
    [lia | lia | unfold cursor_visible; simpl; lia].
Defined.

(** X19: toggling with the cursor on an item of the filtered list flips the
    selection of that item and of no other, and leaves the order, the cursor
    and the offset alone; toggling again restores the selection.  The saved
    list then gains or loses that id only, at its place in the order.  With
    the cursor on no item (a negative index, or one of the two slots below the
    list) the state is returned as it is. *)
Theorem toggle_item_flips_one (state : FooterConfigState)
    (filteredItems : list string) :
  let toggled := footerConfigReducer state (TOGGLE_ITEM filteredItems) in
  match at_index filteredItems (activeIndex state) with
  | Some key =>
      (key ∈ selectedIds toggled <-> key ∉ selectedIds state)
      /\ (forall id : string,
            id <> key -> (id ∈ selectedIds toggled <-> id ∈ selectedIds state))
      /\ orderedIds toggled = orderedIds state
      /\ activeIndex toggled = activeIndex state
      /\ scrollOffset toggled = scrollOffset state
      /\ selectedIds (footerConfigReducer toggled (TOGGLE_ITEM filteredItems))
         = selectedIds state
      /\ List.filter (fun id => negb (String.eqb id key)) (finalItems toggled)
         = List.filter (fun id => negb (String.eqb id key)) (finalItems state)
  | None => toggled = state
  end.
Proof.
  cbv zeta. unfold footerConfigReducer.
  destruct (at_index filteredItems (activeIndex state)) as [key|] eqn:Hat.
  2:{ by destruct (Z.leb _ _). }
  assert (Hfocus : Z.leb (Z.of_nat (length filteredItems)) (activeIndex state)
                   = false).
  { apply Z.leb_gt. unfold at_index in Hat.
    destruct (Z.ltb_spec (activeIndex state) 0); [done|].
    apply lookup_lt_Some in Hat. lia. }
  rewrite Hfocus. cbn [selectedIds orderedIds activeIndex scrollOffset].
  rewrite Hat, Hfocus. cbn [selectedIds].
  split; [|split; [|split; [|split; [|split; [|split]]]]]; try reflexivity.
  - case_bool_decide as Hkey;
      rewrite ?elem_of_difference, ?elem_of_union, elem_of_singleton; tauto.
  - intros id Hid. case_bool_decide as Hkey;
      rewrite ?elem_of_difference, ?elem_of_union, elem_of_singleton; tauto.
  - apply set_eq. intros id.
    destruct (bool_decide (key ∈ selectedIds state)) eqn:Hkey.
    + apply bool_decide_eq_true in Hkey.
      rewrite bool_decide_eq_false_2
        by (rewrite elem_of_difference, elem_of_singleton; tauto).
      rewrite elem_of_union, elem_of_difference, elem_of_singleton.
      destruct (decide (id = key)) as [->|]; tauto.
    + apply bool_decide_eq_false in Hkey.
      rewrite bool_decide_eq_true_2
        by (rewrite elem_of_union, elem_of_singleton; tauto).
      rewrite elem_of_difference, elem_of_union, elem_of_singleton.
      destruct (decide (id = key)) as [->|]; tauto.
  - unfold finalItems. cbn [selectedIds orderedIds].
    induction (orderedIds state) as [|id l IH]; [done|]. simpl.
    destruct (String.eqb_spec id key) as [->|Hne].
    + repeat case_bool_decide; simpl; rewrite ?String.eqb_refl; simpl;
        exact IH.
    + assert (Hsame : bool_decide
                        (id ∈ (if bool_decide (key ∈ selectedIds state)
                               then selectedIds state ∖ {[key]}
                               else selectedIds state ∪ {[key]}))
                      = bool_decide (id ∈ selectedIds state)).
      { apply bool_decide_ext. case_bool_decide as Hkey;
          rewrite ?elem_of_difference, ?elem_of_union, elem_of_singleton;
          tauto. }
      rewrite Hsame. destruct (bool_decide (id ∈ selectedIds state)); simpl;
        [|exact IH].
      apply String.eqb_neq in Hne. rewrite Hne. simpl. by rewrite IH.
Qed.
